(** * mathjslab: the tree-walking evaluator of [evaluator.ts]

    A shallow embedding of the [Evaluator] class: the name table, the
    read-only list, the per-call local table and the built-in function
    table are the fields of an explicit interpreter state; a method that
    mutates [this] is a function from state to a completion and a new
    state.  A [throw] keeps every mutation made before it, as in
    JavaScript.

    AST nodes are immutable trees here.  The two properties the
    evaluator writes on them while it descends, [parent] and [index],
    are passed along with the node instead: [Evaluator] receives the
    links the node carries at the call, and each case hands its children
    the links the source has just written.  The tables are finite maps
    of their own properties; the keys every plain object inherits from
    [Object.prototype] are listed in [inherited], and the tests [key in
    table] and [typeof table[key]] on the name table, the function table
    and the command table answer for them as JavaScript does.  A frame
    of the local table is read for the bindings it holds itself.

    The classes [ComplexDecimal], [MultiArray], [Tensor] and
    [CharString], the constants table and [substSymbol] live in other
    files; they are the fields of the record [Library] below and the
    theorems of the sections [Claims] and [Coverage] hold for any such
    library.  The examples that follow them run on two small sample
    libraries. *)

From stdpp Require Import gmap strings list fin_maps pretty.

Set Warnings "-register-all".

(** ** Completions *)

(** The exceptions the source raises.  [EvalError] and [SyntaxError] are
    thrown explicitly; [TypeError] is what JavaScript raises on a
    property access through [undefined] or [null]; [LibraryError] stands
    for any exception of the external classes. *)
Inductive error :=
| EvalError (message : string)
| SyntaxError (message : string)
| TypeError (message : string)
| LibraryError (message : string).

(** A call either returns, throws, or does not return at all. *)
Inductive completion (A : Type) :=
| Normal (a : A)
| Throw (e : error)
| Diverge.
Arguments Normal {A} a.
Arguments Throw {A} e.
Arguments Diverge {A}.

(** ** Values and AST nodes *)

(** The [type] property of an object: a string on AST nodes, a number
    (the number class) on [ComplexDecimal] and [MultiArray] values. *)
Inductive jstype :=
| TNumber (n : Z)
| TString (s : string)
| TUndefined.

(** A decimal.js value. *)
Inductive Decimal :=
| Finite (coefficient exponent : Z)
| Infinity (negative : bool)
| NaN.

Module ComplexDecimal.
Record t := mk { re : Decimal; im : Decimal; type : Z }.
End ComplexDecimal.

Module CharString.
Record t := mk { str : string; type : jstype }.
End CharString.

Module MultiArray.
Record t (A : Type) := mk { dim : list nat; array : list (list A); type : Z }.
Arguments mk {A} dim array type.
Arguments dim {A} _.
Arguments array {A} _.
Arguments type {A} _.
End MultiArray.

(** [NodeExpr] and the other shapes a [tree: any] takes.  The three
    operation shapes are the ones [nodeOp] builds. *)
Inductive node :=
| Undefined
| Null
| VNumber (n : ComplexDecimal.t)
| VString (s : CharString.t)
| VTensor (m : MultiArray.t node)
| NodeReserved (type : string)
| NAME (id : string)
| CmdWList (id : string) (args : list node)
| ARG (expr : node) (args : list node)
| RANGE (start stop stride : node)
| BinaryOperation (type : string) (left right : node)
| UnaryOperationR (type : string) (right : node)
| UnaryOperationL (type : string) (left : node)
| LIST (list : list node)
| RETLIST (selector : nat -> nat -> completion node).

(** The [parent] back-reference of a node, read as the chain of
    enclosing objects with the [index] each of them carries.  [PSelf] is
    an object whose [parent] is itself (the assignment case builds one). *)
Inductive parent_ref :=
| PNull
| PUndefined
| PObj (n : node) (index : option nat) (parent : parent_ref)
| PSelf (n : node) (index : option nat).

(** The two advisory properties of [PrimaryNode]. *)
Record links := { parent : parent_ref; index : option nat }.

(** ** Property access *)

Definition isNumber (tree : node) : bool :=
  match tree with VNumber _ => true | _ => false end.

Definition isString (tree : node) : bool :=
  match tree with VString _ => true | _ => false end.

Definition isTensor (tree : node) : bool :=
  match tree with VTensor _ => true | _ => false end.

(** [tree.type]; [None] when [tree] is [undefined] or [null], where the
    access throws. *)
Definition node_type (tree : node) : option jstype :=
  match tree with
  | Undefined | Null => None
  | VNumber n => Some (TNumber (ComplexDecimal.type n))
  | VString s => Some (CharString.type s)
  | VTensor m => Some (TNumber (MultiArray.type m))
  | NodeReserved ty => Some (TString ty)
  | NAME _ => Some (TString "NAME")
  | CmdWList _ _ => Some (TString "CmdWList")
  | ARG _ _ => Some (TString "ARG")
  | RANGE _ _ _ => Some (TString "RANGE")
  | BinaryOperation ty _ _ | UnaryOperationR ty _ | UnaryOperationL ty _ => Some (TString ty)
  | LIST _ => Some (TString "LIST")
  | RETLIST _ => Some (TString "RETLIST")
  end.

Definition has_type (tree : node) (ty : string) : bool :=
  match node_type tree with
  | Some (TString s) => bool_decide (s = ty)
  | _ => false
  end.

(** [tree.id], [tree.left], [tree.right], [tree.expr], [tree.args]: a
    property the object does not have reads as [undefined]. *)
Definition node_id (tree : node) : option string :=
  match tree with
  | NAME id | CmdWList id _ => Some id
  | _ => None
  end.

Definition node_left (tree : node) : node :=
  match tree with
  | BinaryOperation _ l _ | UnaryOperationL _ l => l
  | _ => Undefined
  end.

Definition node_right (tree : node) : node :=
  match tree with
  | BinaryOperation _ _ r | UnaryOperationR _ r => r
  | _ => Undefined
  end.

Definition node_expr (tree : node) : node :=
  match tree with
  | ARG e _ => e
  | _ => Undefined
  end.

Definition node_args (tree : node) : option (list node) :=
  match tree with
  | ARG _ a | CmdWList _ a => Some a
  | _ => None
  end.

(** Whether [x.parent = ...] can be executed: it throws on [undefined]
    and [null]. *)
Definition is_object (tree : node) : bool :=
  match tree with Undefined | Null => false | _ => true end.

(** ** Interpreter state *)

Record TNameTableEntry := { args : list node; expr : node }.

Module TBaseFunctionTableEntry.
Record t := mk {
  mapper : option bool;
  ev : list bool;
  func : list node -> completion node;
  unparserML : option (node -> (nat -> completion string) -> completion string)
}.
End TBaseFunctionTableEntry.

Module TCommandWordListTableEntry.
Record t := mk { func : list string -> completion unit }.
End TCommandWordListTableEntry.

(** One entry of [localTable]: the object created by
    [this.localTable[name] = {}].  [frame_id] tells two such objects
    apart, so that a write through a reference taken before the entry
    was replaced or deleted does not reach the table. *)
Record frame := { frame_id : nat; vars : gmap string node }.

Record EvaluatorState := {
  debug : bool;
  nameTable : gmap string TNameTableEntry;
  readonlyNameTable : list string;
  aliasName : string -> string;
  baseFunctionTable : gmap string TBaseFunctionTableEntry.t;
  localTable : gmap string frame;
  commandWordListTable : gmap string TCommandWordListTableEntry.t;
  commandsTable : list string;
  exitStatus : Z;
  next_frame : nat
}.

(** [set debug(value)] *)
Definition set_debug (value : bool) (st : EvaluatorState) : EvaluatorState :=
  {| debug := value; nameTable := nameTable st;
     readonlyNameTable := readonlyNameTable st; aliasName := aliasName st;
     baseFunctionTable := baseFunctionTable st; localTable := localTable st;
     commandWordListTable := commandWordListTable st;
     commandsTable := commandsTable st; exitStatus := exitStatus st;
     next_frame := next_frame st |}.

Definition set_nameTable (f : gmap string TNameTableEntry -> gmap string TNameTableEntry)
    (st : EvaluatorState) : EvaluatorState :=
  {| debug := debug st; nameTable := f (nameTable st);
     readonlyNameTable := readonlyNameTable st; aliasName := aliasName st;
     baseFunctionTable := baseFunctionTable st; localTable := localTable st;
     commandWordListTable := commandWordListTable st;
     commandsTable := commandsTable st; exitStatus := exitStatus st;
     next_frame := next_frame st |}.

Definition set_readonlyNameTable (l : list string) (st : EvaluatorState) : EvaluatorState :=
  {| debug := debug st; nameTable := nameTable st;
     readonlyNameTable := l; aliasName := aliasName st;
     baseFunctionTable := baseFunctionTable st; localTable := localTable st;
     commandWordListTable := commandWordListTable st;
     commandsTable := commandsTable st; exitStatus := exitStatus st;
     next_frame := next_frame st |}.

Definition set_baseFunctionTable
    (f : gmap string TBaseFunctionTableEntry.t -> gmap string TBaseFunctionTableEntry.t)
    (st : EvaluatorState) : EvaluatorState :=
  {| debug := debug st; nameTable := nameTable st;
     readonlyNameTable := readonlyNameTable st; aliasName := aliasName st;
     baseFunctionTable := f (baseFunctionTable st); localTable := localTable st;
     commandWordListTable := commandWordListTable st;
     commandsTable := commandsTable st; exitStatus := exitStatus st;
     next_frame := next_frame st |}.

Definition set_localTable (f : gmap string frame -> gmap string frame)
    (st : EvaluatorState) : EvaluatorState :=
  {| debug := debug st; nameTable := nameTable st;
     readonlyNameTable := readonlyNameTable st; aliasName := aliasName st;
     baseFunctionTable := baseFunctionTable st; localTable := f (localTable st);
     commandWordListTable := commandWordListTable st;
     commandsTable := commandsTable st; exitStatus := exitStatus st;
     next_frame := next_frame st |}.

Definition set_exitStatus (z : Z) (st : EvaluatorState) : EvaluatorState :=
  {| debug := debug st; nameTable := nameTable st;
     readonlyNameTable := readonlyNameTable st; aliasName := aliasName st;
     baseFunctionTable := baseFunctionTable st; localTable := localTable st;
     commandWordListTable := commandWordListTable st;
     commandsTable := commandsTable st; exitStatus := z;
     next_frame := next_frame st |}.

Definition set_next_frame (n : nat) (st : EvaluatorState) : EvaluatorState :=
  {| debug := debug st; nameTable := nameTable st;
     readonlyNameTable := readonlyNameTable st; aliasName := aliasName st;
     baseFunctionTable := baseFunctionTable st; localTable := localTable st;
     commandWordListTable := commandWordListTable st;
     commandsTable := commandsTable st; exitStatus := exitStatus st;
     next_frame := n |}.

(** ** The monad of methods *)

Definition M (A : Type) : Type := EvaluatorState -> completion A * EvaluatorState.

Definition ret {A} (a : A) : M A := fun st => (Normal a, st).

Definition throw {A} (e : error) : M A := fun st => (Throw e, st).

Definition diverge {A} : M A := fun st => (Diverge, st).

Definition bind {A B} (m : M A) (k : A -> M B) : M B :=
  fun st =>
    match m st with
    | (Normal a, st') => k a st'
    | (Throw e, st') => (Throw e, st')
    | (Diverge, st') => (Diverge, st')
    end.

(** [try { m } catch (e) { h e }] *)
Definition try_catch {A} (m : M A) (h : error -> M A) : M A :=
  fun st =>
    match m st with
    | (Throw e, st') => h e st'
    | r => r
    end.

Definition get : M EvaluatorState := fun st => (Normal st, st).

Definition modify (f : EvaluatorState -> EvaluatorState) : M unit :=
  fun st => (Normal tt, f st).

(** The result of an external, state-free call. *)
Definition lift {A} (c : completion A) : M A := fun st => (c, st).

Declare Scope js_scope.
Delimit Scope js_scope with js.
Notation "'let*' x ':=' c1 'in' c2" := (bind c1 (fun x => c2))
  (at level 10, x name, c1 at level 100, c2 at level 200) : js_scope.
Notation "'do' c1 'in' c2" := (bind c1 (fun _ => c2))
  (at level 10, c1 at level 100, c2 at level 200) : js_scope.
Open Scope js_scope.

(** [for] over an array, threading the state, left to right. *)
Fixpoint mapM {A B} (f : A -> M B) (l : list A) : M (list B) :=
  match l with
  | [] => ret []
  | x :: l' => let* y := f x in let* ys := mapM f l' in ret (y :: ys)
  end.

(** [array.map((x, i) => ...)] with effects. *)
Fixpoint mapiM_from {A B} (i : nat) (f : nat -> A -> M B) (l : list A) : M (list B) :=
  match l with
  | [] => ret []
  | x :: l' => let* y := f i x in let* ys := mapiM_from (S i) f l' in ret (y :: ys)
  end.

Definition mapiM {A B} (f : nat -> A -> M B) (l : list A) : M (list B) :=
  mapiM_from 0 f l.

(** ** The external classes *)

(** What [evaluator.ts] imports.  [Tensor] is indexed by method name, as
    the source also reaches it ([Tensor[operation]]); a call with fewer
    arguments than parameters passes [Undefined].  [setItems] and
    [setItemsLogical] mutate the table they are handed: they return the
    new table.  [evaluateTensor] receives the evaluator and calls it
    back.  [unparseTensor] and [unparseTensorML] call the evaluator's
    renderer on the elements of the array: they are handed each element
    with its rendering.  In the same way an [unparserML] template of the
    function table is handed [tree] and the rendering of [tree.args[i]].

    [stale_links] gives the [parent] and [index] a node still carries
    from the list builders or from an earlier evaluation, at the places
    where [Evaluator] descends into a node without linking it first. *)
Record Library := {
  ComplexDecimal_static : string -> ComplexDecimal.t;
  numberClass_logical : Z;
  newNumber : Z -> node;
  constantsTable : list (string * node);
  catalog : gmap string TBaseFunctionTableEntry.t;
  Tensor : string -> list node -> completion node;
  evaluateTensor :
    (node -> links -> bool -> string -> M node) ->
    MultiArray.t node -> links -> bool -> string -> M node;
  mapTensor : node -> (list node -> completion node) -> completion node;
  getItems : node -> string -> list node -> completion node;
  getItemsLogical : node -> string -> node -> completion node;
  setItems :
    gmap string TNameTableEntry -> string -> list node -> node ->
    completion (gmap string TNameTableEntry);
  setItemsLogical :
    gmap string TNameTableEntry -> string -> node -> node ->
    completion (gmap string TNameTableEntry);
  expandRange : node -> node -> node -> completion node;
  linearize : node -> completion node;
  toTensor : node -> completion node;
  linearLength : node -> Z;
  getDimension : node -> option nat -> Z;
  unparseNumber : ComplexDecimal.t -> completion string;
  unparseString : CharString.t -> completion string;
  unparseTensor : MultiArray.t (node * completion string) -> completion string;
  unparseNumberML : ComplexDecimal.t -> completion string;
  unparseStringML : CharString.t -> completion string;
  unparseTensorML : MultiArray.t (node * completion string) -> completion string;
  substSymbol : option string -> completion string;
  stale_links : node -> links
}.

(** ** Node builders *)

Definition nodeReserved (nodeid : string) : node := NodeReserved nodeid.

(** The backslash, the left-division operator. *)
Definition backslash : string := String (Ascii.ascii_of_nat 92) EmptyString.

Definition binary_types : list string :=
  ["+"; "-"; ".*"; "*"; "./"; "/"; "." +:+ backslash; backslash; ".^"; "^"; ".**"; "**";
   "<"; "<="; "=="; ">="; ">"; "!="; "~="; "&"; "|"; "&&"; "||"].

Definition assignment_types : list string :=
  ["="; "+="; "-="; "*="; "/="; backslash +:+ "="; "^="; "**="; ".*="; "./=";
   "." +:+ backslash +:+ "=";
   ".^="; ".**="; "&="; "|="].

Definition nodeOp (op : string) (data1 data2 : node) : node :=
  if bool_decide (op ∈ binary_types ++ assignment_types) then
    BinaryOperation op data1 data2
  else if bool_decide (op ∈ ["()"; "!"; "~"; "+_"; "-_"; "++_"; "--_"]) then
    UnaryOperationR op data1
  else if bool_decide (op ∈ [".'"; "'"; "_++"; "_--"]) then
    UnaryOperationL op data1
  else NodeReserved "INVALID".

Definition nodeName (nodeid : string) : node := NAME nodeid.

Definition nodeArgExpr (nodeexpr : node) (nodelist : option (list node)) : node :=
  ARG nodeexpr (default [] nodelist).

(** [nodeListFirst] and [nodeList] also make the list the parent of the
    node they are given; an argument list keeps those links, which
    [stale_links] stands for. *)
Definition nodeListFirst (n : option node) : node :=
  match n with
  | Some x => LIST [x]
  | None => LIST []
  end.

Definition nodeList (lnode : list node) (n : node) : node := LIST (lnode ++ [n]).

Definition nodeReturnList (selector : nat -> nat -> completion node) : node :=
  RETLIST selector.

(** ** Small steps shared by the methods *)

(** [x.parent = ...] and every other property access through [x]. *)
Definition check_object (x : node) (what : string) : M unit :=
  if is_object x then ret tt
  else throw (TypeError ("Cannot access properties of " +:+ what)).

(** A property key built from a value that may be [undefined]. *)
Definition property_key (id : option string) : string := default "undefined" id.

(** The chain a child sees once [child.parent = tree] has run, [l] being
    the links of [tree]. *)
Definition linked (tree : node) (l : links) : parent_ref :=
  PObj tree (index l) (parent l).

Definition reduceIfReturnList (value : node) : M node :=
  match value with
  | RETLIST selector =>
      let* result := lift (selector 1 0) in
      do check_object result "result" in
      ret result
  | _ =>
      do check_object value "value" in
      if has_type value "RETLIST"
      then throw (TypeError "value.selector is not a function")
      else ret value
  end.

(** The property names a plain object inherits from [Object.prototype].
    For such a key [key in table] is true and [table[key]] is a built-in
    function (an object for [__proto__]), which has none of the
    properties of an entry: [.args], [.expr], [.mapper], [.ev] and
    [.func] read as [undefined] on it. *)
Definition inherited : list string :=
  ["constructor"; "toString"; "toLocaleString"; "valueOf"; "hasOwnProperty";
   "isPrototypeOf"; "propertyIsEnumerable"; "__proto__"; "__defineGetter__";
   "__defineSetter__"; "__lookupGetter__"; "__lookupSetter__"].

(** [local && this.localTable[fname] && this.localTable[fname][id]],
    for a binding the frame holds itself. *)
Definition local_binding (st : EvaluatorState) (local : bool) (fname id : string)
    : option node :=
  if local then
    match localTable st !! fname with
    | Some f => vars f !! id
    | None => None
    end
  else None.

(** ** [validateAssignment] *)

Record LeftHandSide := { lhs_left : node; lhs_id : string; lhs_args : list node }.

Definition invalidMessageBase : string := "invalid left hand side of assignment".

Definition invalidMessage : string :=
  invalidMessageBase +:+ ": cannot assign to a read only value:".

(** The body of [validateAssignment]; [elements] is the recursive call
    [this.validateAssignment(left, false)[0]] on each entry of the first
    row of a tensor. *)
Definition validateAssignment_body
    (elements : list node -> M (list LeftHandSide))
    (tree : node) (shallow : bool) : M (list LeftHandSide) :=
  do check_object tree "tree" in
  let* st := get in
  if has_type tree "NAME" then
    let id := property_key (node_id tree) in
    if bool_decide (id ∈ readonlyNameTable st)
    then throw (EvalError (invalidMessage +:+ " " +:+ id +:+ "."))
    else ret [ {| lhs_left := tree; lhs_id := id; lhs_args := [] |} ]
  else if has_type tree "ARG" then
    do check_object (node_expr tree) "tree.expr" in
    if has_type (node_expr tree) "NAME" then
      let id := property_key (node_id (node_expr tree)) in
      if bool_decide (id ∈ readonlyNameTable st)
      then throw (EvalError (invalidMessage +:+ " " +:+ id +:+ "."))
      else ret [ {| lhs_left := node_expr tree; lhs_id := id;
                    lhs_args := default [] (node_args tree) |} ]
    else throw (EvalError (invalidMessageBase +:+ "."))
  else if has_type tree "<~>" then
    ret [ {| lhs_left := Null; lhs_id := "~"; lhs_args := [] |} ]
  else
    match tree with
    | VTensor m =>
        if shallow && bool_decide (head (MultiArray.dim m) = Some 1) then
          match MultiArray.array m with
          | row :: _ => elements row
          | [] => throw (TypeError "Cannot read properties of undefined (reading 'map')")
          end
        else throw (EvalError (invalidMessageBase +:+ "."))
    | _ => throw (EvalError (invalidMessageBase +:+ "."))
    end.

(** [this.validateAssignment(left, false)[0]] *)
Definition validateElement (left : node) : M LeftHandSide :=
  let* r := validateAssignment_body
              (fun _ => throw (EvalError (invalidMessageBase +:+ "."))) left false in
  match r with
  | t :: _ => ret t
  | [] => throw (TypeError "undefined target")
  end.

Definition validateAssignment (tree : node) (shallow : bool) : M (list LeftHandSide) :=
  validateAssignment_body (mapM validateElement) tree shallow.

(** ** The evaluator, over a library *)

Section Evaluator.

Context (lib : Library).

(** *** Name table set-up, [Restart] and [Clear] *)

Definition nativeNameTable : list (string * node) :=
  [ ("false", VNumber (ComplexDecimal_static lib "false"));
    ("true", VNumber (ComplexDecimal_static lib "true"));
    ("i", VNumber (ComplexDecimal_static lib "onei"));
    ("I", VNumber (ComplexDecimal_static lib "onei"));
    ("j", VNumber (ComplexDecimal_static lib "onei"));
    ("J", VNumber (ComplexDecimal_static lib "onei"));
    ("e", VNumber (ComplexDecimal_static lib "e"));
    ("pi", VNumber (ComplexDecimal_static lib "pi"));
    ("inf", VNumber (ComplexDecimal_static lib "inf_0"));
    ("Inf", VNumber (ComplexDecimal_static lib "inf_0"));
    ("nan", VNumber (ComplexDecimal_static lib "NaN_0"));
    ("NaN", VNumber (ComplexDecimal_static lib "NaN_0")) ].

(** One turn of either loop of [loadNativeTable]. *)
Definition loadEntry (st : EvaluatorState) (entry : string * node) : EvaluatorState :=
  set_readonlyNameTable (readonlyNameTable st ++ [entry.1])
    (set_nameTable (<[entry.1 := {| args := []; expr := entry.2 |}]>) st).

Definition loadNativeTable (st : EvaluatorState) : EvaluatorState :=
  foldl loadEntry (foldl loadEntry st nativeNameTable) (constantsTable lib).

Definition Restart (st : EvaluatorState) : EvaluatorState :=
  loadNativeTable
    (set_readonlyNameTable []
       (set_localTable (fun _ => ∅) (set_nameTable (fun _ => ∅) st))).

(** One turn of [names.forEach] in [Clear]. *)
Definition clearName (st : EvaluatorState) (name : string) : EvaluatorState :=
  if bool_decide (name ∈ readonlyNameTable st) then st
  else set_baseFunctionTable (delete name) (set_nameTable (delete name) st).

Definition Clear (names : list string) (st : EvaluatorState) : EvaluatorState :=
  if length names =? 0 then Restart st
  else foldl clearName st names.

(** *** Operators *)

Definition arg (i : nat) (l : list node) : node := nth i l Undefined.

(** [incDecOp(pre, operation)]: the closure stored in [opTable]. *)
Definition incDecOp (pre : bool) (operation : string) (tree : node) : M node :=
  do check_object tree "tree" in
  if has_type tree "NAME" then
    let id := property_key (node_id tree) in
    let* st := get in
    match nameTable st !! id with
    | None =>
        if bool_decide (id ∈ inherited)
        then throw (EvalError "in x++ or ++x, x must be defined first.")
        else throw (TypeError "Cannot read properties of undefined (reading 'expr')")
    | Some entry =>
        if is_object (expr entry) then
          if pre then
            let* v := lift (Tensor lib operation [expr entry; VNumber (ComplexDecimal_static lib "one")]) in
            do modify (set_nameTable (<[id := {| args := args entry; expr := v |}]>)) in
            ret v
          else
            let* value := lift (Tensor lib "copy" [expr entry]) in
            let* v := lift (Tensor lib operation [expr entry; VNumber (ComplexDecimal_static lib "one")]) in
            do modify (set_nameTable (<[id := {| args := args entry; expr := v |}]>)) in
            ret value
        else throw (EvalError "in x++ or ++x, x must be defined first.")
    end
  else
    throw (SyntaxError ("invalid " +:+
             (if bool_decide (operation = "plus") then "increment" else "decrement")
             +:+ " variable.")).

(** [opTable], with the aliases the constructor adds. *)
Definition opTable (op : string) : option (list node -> M node) :=
  let tensor (method : string) := Some (fun operands => lift (Tensor lib method operands)) in
  if bool_decide (op = "+") then tensor "plus"
  else if bool_decide (op = "-") then tensor "minus"
  else if bool_decide (op = ".*") then tensor "times"
  else if bool_decide (op = "*") then tensor "mtimes"
  else if bool_decide (op = "./") then tensor "rdivide"
  else if bool_decide (op = "/") then tensor "mrdivide"
  else if bool_decide (op = "." +:+ backslash) then tensor "ldivide"
  else if bool_decide (op = backslash) then tensor "mldivide"
  else if bool_decide (op = ".^") then tensor "power"
  else if bool_decide (op = "^") then tensor "mpower"
  else if bool_decide (op = "+_") then tensor "uplus"
  else if bool_decide (op = "-_") then tensor "uminus"
  else if bool_decide (op = ".'") then tensor "transpose"
  else if bool_decide (op = "'") then tensor "ctranspose"
  else if bool_decide (op = "<") then tensor "lt"
  else if bool_decide (op = "<=") then tensor "le"
  else if bool_decide (op = "==") then tensor "eq"
  else if bool_decide (op = ">=") then tensor "ge"
  else if bool_decide (op = ">") then tensor "gt"
  else if bool_decide (op = "!=") then tensor "ne"
  else if bool_decide (op = "&") then tensor "and"
  else if bool_decide (op = "|") then tensor "or"
  else if bool_decide (op = "!") then tensor "not"
  else if bool_decide (op = "&&") then tensor "mand"
  else if bool_decide (op = "||") then tensor "mor"
  else if bool_decide (op = "++_") then Some (fun operands => incDecOp true "plus" (arg 0 operands))
  else if bool_decide (op = "--_") then Some (fun operands => incDecOp true "minus" (arg 0 operands))
  else if bool_decide (op = "_++") then Some (fun operands => incDecOp false "plus" (arg 0 operands))
  else if bool_decide (op = "_--") then Some (fun operands => incDecOp false "minus" (arg 0 operands))
  else if bool_decide (op = "**") then tensor "mpower"
  else if bool_decide (op = ".**") then tensor "power"
  else if bool_decide (op = "~=") then tensor "ne"
  else if bool_decide (op = "~") then tensor "not"
  else None.

(** [this.opTable[op](...operands)] *)
Definition applyOp (op : string) (operands : list node) : M node :=
  match opTable op with
  | Some f => f operands
  | None => throw (TypeError "this.opTable[...] is not a function")
  end.

(** *** [Unparse] *)

Definition cbind {A B} (c : completion A) (k : A -> completion B) : completion B :=
  match c with
  | Normal a => k a
  | Throw e => Throw e
  | Diverge => Diverge
  end.

Fixpoint csequence {A} (l : list (completion A)) : completion (list A) :=
  match l with
  | [] => Normal []
  | c :: l' => cbind c (fun x => cbind (csequence l') (fun xs => Normal (x :: xs)))
  end.

(** [a + b] on two renderings. *)
Definition cappend (a b : completion string) : completion string :=
  cbind a (fun x => cbind b (fun y => Normal (x +:+ y))).

(** [list.map(...).join(sep)] on renderings. *)
Definition cjoin (sep : string) (l : list (completion string)) : completion string :=
  cbind (csequence l) (fun xs => Normal (String.concat sep xs)).

(** [try { body } catch (e) { return placeholder; }] *)
Definition catch_placeholder (placeholder : string) (body : completion string)
    : completion string :=
  match body with
  | Throw _ => Normal placeholder
  | r => r
  end.

(** The properties of a node that the renderers read, each sub-tree
    replaced by its rendering.  [None] is a property that is missing
    (or, for the parts of a range, falsy). *)
Record rendered := {
  r_left : completion string;
  r_right : completion string;
  r_id : option string;
  r_list : option (list (completion string));
  r_start : option (completion string);
  r_stop : option (completion string);
  r_stride : option (completion string);
  r_expr : completion string;
  r_args : option (list (completion string))
}.

(** The renderings of the properties of [tree], given the renderer
    [U] of a sub-tree and its value [u] on [undefined]. *)
Definition render_with (U : node -> completion string) (u : completion string)
    (tree : node) : rendered :=
  let truthy x := if is_object x then Some (U x) else None in
  {| r_left := match tree with
               | BinaryOperation _ l _ | UnaryOperationL _ l => U l
               | _ => u
               end;
     r_right := match tree with
                | BinaryOperation _ _ r | UnaryOperationR _ r => U r
                | _ => u
                end;
     r_id := node_id tree;
     r_list := match tree with LIST l => Some (map U l) | _ => None end;
     r_start := match tree with RANGE a _ _ => truthy a | _ => None end;
     r_stop := match tree with RANGE _ b _ => truthy b | _ => None end;
     r_stride := match tree with RANGE _ _ c => truthy c | _ => None end;
     r_expr := match tree with ARG e _ => U e | _ => u end;
     r_args := match tree with
               | ARG _ a | CmdWList _ a => Some (map U a)
               | _ => None
               end |}.

Definition newline : string := String (Ascii.ascii_of_nat 10) EmptyString.

Definition required {A} (o : option A) (property : string) : completion A :=
  match o with
  | Some a => Normal a
  | None => Throw (TypeError ("Cannot read properties of undefined (reading '" +:+ property +:+ "')"))
  end.

(** The [switch (tree.type)] of [Unparse]. *)
Definition Unparse_switch (type : string) (r : rendered) : completion string :=
  if bool_decide (type ∈ binary_types ++ assignment_types) then
    cappend (r_left r) (cappend (Normal type) (r_right r))
  else if bool_decide (type = "()") then
    cappend (Normal "(") (cappend (r_right r) (Normal ")"))
  else if bool_decide (type ∈ ["!"; "~"]) then cappend (Normal type) (r_right r)
  else if bool_decide (type = "+_") then cappend (Normal "+") (r_right r)
  else if bool_decide (type = "-_") then cappend (Normal "-") (r_right r)
  else if bool_decide (type = "++_") then cappend (Normal "++") (r_right r)
  else if bool_decide (type = "--_") then cappend (Normal "--") (r_right r)
  else if bool_decide (type ∈ [".'"; "'"]) then cappend (r_left r) (Normal type)
  else if bool_decide (type = "_++") then cappend (r_left r) (Normal "++")
  else if bool_decide (type = "_--") then cappend (r_left r) (Normal "--")
  else if bool_decide (type = "NAME") then
    cbind (required (r_id r) "replace") (fun id =>
      Normal (if bool_decide (id ∈ ["Inf"; "inf"]) then "&infin;" else id))
  else if bool_decide (type = "LIST") then
    cbind (required (r_list r) "map") (fun l => cappend (cjoin newline l) (Normal newline))
  else if bool_decide (type = "RANGE") then
    match r_start r, r_stop r with
    | Some a, Some b =>
        match r_stride r with
        | Some c => cappend a (cappend (Normal ":") (cappend c (cappend (Normal ":") b)))
        | None => cappend a (cappend (Normal ":") b)
        end
    | _, _ => Normal ":"
    end
  else if bool_decide (type = "ENDRANGE") then Normal "end"
  else if bool_decide (type = ":") then Normal ":"
  else if bool_decide (type = "<~>") then Normal "~"
  else if bool_decide (type = "ARG") then
    cbind (required (r_args r) "map") (fun a =>
      cappend (r_expr r) (cappend (Normal "(") (cappend (cjoin "," a) (Normal ")"))))
  else if bool_decide (type = "RETLIST") then Normal "<RETLIST>"
  else if bool_decide (type = "CmdWList") then
    cbind (required (r_args r) "map") (fun a =>
      cappend (Normal (property_key (r_id r) +:+ " ")) (cjoin " " a))
  else Normal "<INVALID>".

(** The elements of a tensor, each with its rendering. *)
Definition render_elements (U : node -> completion string) (m : MultiArray.t node)
    : MultiArray.t (node * completion string) :=
  match m with
  | MultiArray.mk d a t => MultiArray.mk d (map (map (fun x => (x, U x))) a) t
  end.

Fixpoint Unparse (tree : node) : completion string :=
  catch_placeholder "<ERROR>"
    match tree with
    | Undefined => Normal "<UNDEFINED>"
    | Null => Throw (TypeError "Cannot read properties of null (reading 'type')")
    | VNumber n => unparseNumber lib n
    | VString s => unparseString lib s
    | VTensor (MultiArray.mk d a t) =>
        unparseTensor lib (MultiArray.mk d (map (map (fun x => (x, Unparse x))) a) t)
    | _ =>
        match node_type tree with
        | Some (TString type) =>
            Unparse_switch type (render_with Unparse (Normal "<UNDEFINED>") tree)
        | _ => Normal "<INVALID>"
        end
    end.

(** *** [unparserML] *)

(** [try { body } catch (e) { if (this._debug) throw e; else return
    '<mi>error</mi>'; }] *)
Definition catch_debug (debug : bool) (body : completion string) : completion string :=
  match body with
  | Throw e => if debug then Throw e else Normal "<mi>error</mi>"
  | r => r
  end.

Definition mo (s : string) : completion string := Normal ("<mo>" +:+ s +:+ "</mo>").

Fixpoint cconcat (l : list (completion string)) : completion string :=
  match l with
  | [] => Normal EmptyString
  | c :: l' => cappend c (cconcat l')
  end.

(** ['<mi>' + substSymbol(id) + '</mi>'] *)
Definition mi_symbol (id : option string) : completion string :=
  cconcat [Normal "<mi>"; substSymbol lib id; Normal "</mi>"].

(** The [switch (tree.type)] of [unparserML]. *)
Definition unparserML_switch (st : EvaluatorState) (type : string) (tree : node)
    (r : rendered) : completion string :=
  let L := r_left r in
  let R := r_right r in
  if bool_decide (type ∈ ["+"; "-"; ".*"; "./"; "." +:+ backslash; backslash; ".^"; ".**";
                          "<"; ">"; "=="; "&"; "|"; "&&"; "||"] ++ assignment_types) then
    cconcat [L; mo type; R]
  else if bool_decide (type = "<=") then cconcat [L; mo "&le;"; R]
  else if bool_decide (type = ">=") then cconcat [L; mo "&ge;"; R]
  else if bool_decide (type ∈ ["!="; "~="]) then cconcat [L; mo "&ne;"; R]
  else if bool_decide (type = "()") then cconcat [mo "("; R; mo ")"]
  else if bool_decide (type = "*") then cconcat [L; mo "&times;"; R]
  else if bool_decide (type = "/") then
    cconcat [Normal "<mfrac><mrow>"; L; Normal "</mrow><mrow>"; R; Normal "</mrow></mfrac>"]
  else if bool_decide (type ∈ ["**"; "^"]) then
    cconcat [Normal "<msup><mrow>"; L; Normal "</mrow><mrow>"; R; Normal "</mrow></msup>"]
  else if bool_decide (type ∈ ["!"; "~"]) then cconcat [mo type; R]
  else if bool_decide (type = "+_") then cconcat [mo "+"; R]
  else if bool_decide (type = "-_") then cconcat [mo "-"; R]
  else if bool_decide (type = "++_") then cconcat [mo "++"; R]
  else if bool_decide (type = "--_") then cconcat [mo "--"; R]
  else if bool_decide (type = "_++") then cconcat [L; mo "++"]
  else if bool_decide (type = "_--") then cconcat [L; mo "--"]
  else if bool_decide (type = ".'") then
    cconcat [Normal "<msup><mrow>"; L; Normal "</mrow><mrow><mi>T</mi></mrow></msup>"]
  else if bool_decide (type = "'") then
    cconcat [Normal "<msup><mrow>"; L; Normal "</mrow><mrow><mi>H</mi></mrow></msup>"]
  else if bool_decide (type = "NAME") then mi_symbol (r_id r)
  else if bool_decide (type = "LIST") then
    cbind (required (r_list r) "map") (fun l =>
      cconcat [Normal "<mtable>";
               cconcat (map (fun v => cconcat [Normal "<mtr><mtd>"; v; Normal "</mtd></mtr>"]) l);
               Normal "</mtable>"])
  else if bool_decide (type = "RANGE") then
    match r_start r, r_stop r with
    | Some a, Some b =>
        match r_stride r with
        | Some c => cconcat [a; mo ":"; c; mo ":"; b]
        | None => cconcat [a; mo ":"; b]
        end
    | _, _ => mo ":"
    end
  else if bool_decide (type = "ENDRANGE") then Normal "<mi>end</mi>"
  else if bool_decide (type = ":") then mo ":"
  else if bool_decide (type = "<~>") then mo "~"
  else if bool_decide (type = "ARG") then
    cbind (required (r_args r) "length") (fun a =>
      if length a =? 0 then
        cconcat [r_expr r; Normal "<mrow><mo>(</mo><mo>)</mo></mrow>"]
      else
        cbind (cjoin "<mo>,</mo>" a) (fun arglist =>
          cbind (required (node_type (node_expr tree)) "type") (fun _ =>
            if has_type (node_expr tree) "NAME" then
              let id := node_id (node_expr tree) in
              let aliasTreeName := aliasName st (property_key id) in
              match baseFunctionTable st !! aliasTreeName with
              | Some (TBaseFunctionTableEntry.mk _ _ _ (Some template)) =>
                  template tree (fun i => nth i a (Normal "<mi>undefined</mi>"))
              | _ =>
                  cconcat [mi_symbol id; Normal "<mrow><mo>(</mo>"; Normal arglist;
                           Normal "<mo>)</mo></mrow>"]
              end
            else
              cconcat [r_expr r; Normal "<mrow><mo>(</mo>"; Normal arglist;
                       Normal "<mo>)</mo></mrow>"])))
  else if bool_decide (type = "RETLIST") then Normal "<mi>RETLIST</mi>"
  else if bool_decide (type = "CmdWList") then
    cbind (required (r_args r) "map") (fun a =>
      cconcat [Normal ("<mtext>" +:+ property_key (r_id r) +:+ " "); cjoin " " a;
               Normal "</mtext>"])
  else Normal "<mi>invalid</mi>".

Fixpoint unparserML (st : EvaluatorState) (tree : node) : completion string :=
  catch_debug (debug st)
    match tree with
    | Undefined => Normal "<mi>undefined</mi>"
    | Null => Throw (TypeError "Cannot read properties of null (reading 'type')")
    | VNumber n => unparseNumberML lib n
    | VString s => unparseStringML lib s
    | VTensor (MultiArray.mk d a t) =>
        unparseTensorML lib (MultiArray.mk d (map (map (fun x => (x, unparserML st x))) a) t)
    | _ =>
        match node_type tree with
        | Some (TString type) =>
            unparserML_switch st type tree
              (render_with (unparserML st) (Normal "<mi>undefined</mi>") tree)
        | _ => Normal "<mi>invalid</mi>"
        end
    end.

(** The body of the [try] of [Unparse] and of [unparserML], over the
    renderer [U] of the sub-trees. *)
Definition Unparse_try (U : node -> completion string) (tree : node)
    : completion string :=
  match tree with
  | Undefined => Normal "<UNDEFINED>"
  | Null => Throw (TypeError "Cannot read properties of null (reading 'type')")
  | VNumber n => unparseNumber lib n
  | VString s => unparseString lib s
  | VTensor m => unparseTensor lib (render_elements U m)
  | _ =>
      match node_type tree with
      | Some (TString type) =>
          Unparse_switch type (render_with U (Normal "<UNDEFINED>") tree)
      | _ => Normal "<INVALID>"
      end
  end.

Definition unparserML_try (st : EvaluatorState) (U : node -> completion string)
    (tree : node) : completion string :=
  match tree with
  | Undefined => Normal "<mi>undefined</mi>"
  | Null => Throw (TypeError "Cannot read properties of null (reading 'type')")
  | VNumber n => unparseNumberML lib n
  | VString s => unparseStringML lib s
  | VTensor m => unparseTensorML lib (render_elements U m)
  | _ =>
      match node_type tree with
      | Some (TString type) =>
          unparserML_switch st type tree
            (render_with U (Normal "<mi>undefined</mi>") tree)
      | _ => Normal "<mi>invalid</mi>"
      end
  end.

(** [unparseMLFunctions]: the templates the constructor stores in the
    function table; [a i] is [this.unparserML(tree.args[i])]. *)
Definition unparseMLFunctions
    : list (string * (node -> (nat -> completion string) -> completion string)) :=
  [ ("abs", fun _ a => cconcat [Normal "<mrow><mo>|</mo>"; a 0; Normal "<mo>|</mo></mrow>"]);
    ("conj", fun _ a =>
       cconcat [Normal "<mover><mrow>"; a 0; Normal "</mrow><mo>&OverBar;</mo></mover>"]);
    ("sqrt", fun _ a => cconcat [Normal "<msqrt><mrow>"; a 0; Normal "</mrow></msqrt>"]);
    ("root", fun _ a =>
       cconcat [Normal "<mroot><mrow>"; a 0; Normal "</mrow><mrow>"; a 1; Normal "</mrow></mroot>"]);
    ("exp", fun _ a => cconcat [Normal "<msup><mi>e</mi><mrow>"; a 0; Normal "</mrow></msup>"]);
    ("logb", fun _ a =>
       cconcat [Normal "<msub><mi>log</mi><mrow>"; a 0; Normal "</mrow></msub><mrow>"; a 1;
                Normal "</mrow>"]);
    ("log2", fun _ a =>
       cconcat [Normal "<msub><mi>log</mi><mrow><mn>2</mn></mrow></msub><mrow>"; a 0;
                Normal "</mrow>"]);
    ("log10", fun _ a =>
       cconcat [Normal "<msub><mi>log</mi><mrow><mn>10</mn></mrow></msub><mrow>"; a 0;
                Normal "</mrow>"]);
    ("gamma", fun _ a =>
       cconcat [Normal "<mi>&Gamma;</mi><mrow><mo>(</mo>"; a 0; Normal "<mo>)</mo></mrow>"]);
    ("factorial", fun _ a =>
       cconcat [Normal "<mrow><mo>(</mo>"; a 0; Normal "<mo>)</mo></mrow><mo>!</mo>"]) ].

(** *** The cases of [Evaluator] *)

(** [this.Evaluator(tree, local, fname)], with the [parent] and [index]
    the node carries when the call is made. *)
Definition Evaluator_t : Type := node -> links -> bool -> string -> M node.

Definition empty : string := EmptyString.

(** The links of a child after [child.parent = tree]. *)
Definition child_links (tree : node) (l : links) (child : node) : links :=
  {| parent := linked tree l; index := index (stale_links lib child) |}.

(** The links of an argument after [arg.parent = tree; arg.index = i]. *)
Definition arg_links (tree : node) (l : links) (i : nat) : links :=
  {| parent := linked tree l; index := Some i |}.

(** [parent.expr.id] used as a key of the name table. *)
Definition callee_key (p : node) : M string :=
  do check_object (node_expr p) "parent.expr" in
  ret (property_key (node_id (node_expr p))).

(** [id in this.nameTable && this.nameTable[id].args.length === 0 &&
    this.isTensor(this.nameTable[id].expr)]: the tensor bound to [id],
    if any.  An inherited key passes the first test, and [.args.length]
    throws on what it names. *)
Definition bound_tensor (st : EvaluatorState) (id : string) : completion (option node) :=
  match nameTable st !! id with
  | Some entry =>
      if (length (args entry) =? 0) && isTensor (expr entry)
      then Normal (Some (expr entry)) else Normal None
  | None =>
      if bool_decide (id ∈ inherited)
      then Throw (TypeError "Cannot read properties of undefined (reading 'length')")
      else Normal None
  end.

(** [parent.args.length] *)
Definition args_length (p : node) : M nat :=
  match node_args p with
  | Some a => ret (length a)
  | None => throw (TypeError "Cannot read properties of undefined (reading 'length')")
  end.

(** [tree.parent.index] *)
Definition parent_index (p : parent_ref) : option nat :=
  match p with
  | PObj _ i _ | PSelf _ i => i
  | _ => None
  end.

(** The [while] of case ['ENDRANGE']: [Some p] is the object the loop
    stops at, [None] is [null]. *)
Fixpoint nearest_ARG (p : parent_ref) : M (option node) :=
  match p with
  | PNull => ret None
  | PUndefined => throw (TypeError "Cannot read properties of undefined (reading 'type')")
  | PObj n _ up => if has_type n "ARG" then ret (Some n) else nearest_ARG up
  | PSelf n _ => if has_type n "ARG" then ret (Some n) else diverge
  end.

Definition end_message : string :=
  "indeterminate end of range. The word 'end' to refer a value is valid only in indexing.".

Definition colon_message : string :=
  "indeterminate colon. The colon to refer a range is valid only in indexing.".

Definition Evaluator_ENDRANGE (l : links) : M node :=
  let* found := nearest_ARG (parent l) in
  match found with
  | None => throw (SyntaxError end_message)
  | Some p =>
      let* id := callee_key p in
      let* st := get in
      let* bound := lift (bound_tensor st id) in
      match bound with
      | Some t =>
          let* n := args_length p in
          if n =? 1 then ret (newNumber lib (linearLength lib t))
          else ret (newNumber lib (getDimension lib t (parent_index (parent l))))
      | None => throw (SyntaxError end_message)
      end
  end.

Definition Evaluator_colon (l : links) : M node :=
  match parent l with
  | PNull => throw (TypeError "Cannot read properties of null (reading 'type')")
  | PUndefined => throw (TypeError "Cannot read properties of undefined (reading 'type')")
  | PObj p _ _ | PSelf p _ =>
      if has_type p "ARG" then
        let* id := callee_key p in
        let* st := get in
        let* bound := lift (bound_tensor st id) in
        match bound with
        | Some t =>
            let* n := args_length p in
            if n =? 1 then
              lift (expandRange lib (VNumber (ComplexDecimal_static lib "one"))
                      (newNumber lib (linearLength lib t)) Undefined)
            else
              lift (expandRange lib (VNumber (ComplexDecimal_static lib "one"))
                      (newNumber lib (getDimension lib t (parent_index (parent l)))) Undefined)
        | None => throw (SyntaxError colon_message)
        end
      else throw (SyntaxError colon_message)
  end.

Section Cases.

(** The recursive call. *)
Variable Ev : Evaluator_t.

(** [this.reduceIfReturnList(this.Evaluator(tree, local, fname))] *)
Definition reduce (tree : node) (l : links) (local : bool) (fname : string) : M node :=
  let* v := Ev tree l local fname in
  reduceIfReturnList v.

Definition Evaluator_binary (tree : node) (l : links) (local : bool) (fname : string)
    (type : string) : M node :=
  do check_object (node_left tree) "tree.left" in
  do check_object (node_right tree) "tree.right" in
  let* a := reduce (node_left tree) (child_links tree l (node_left tree)) local fname in
  let* b := reduce (node_right tree) (child_links tree l (node_right tree)) local fname in
  applyOp type [a; b].

Definition Evaluator_NAME (tree : node) (l : links) (local : bool) (fname : string)
    : M node :=
  let id := property_key (node_id tree) in
  let* st := get in
  match local_binding st local fname id with
  | Some v =>
      (* Defined in localTable. *)
      ret v
  | None =>
      match nameTable st !! id with
      | Some entry =>
          if length (args entry) =? 0 then
            (* Defined as name. *)
            do check_object (expr entry) "expr" in
            reduce (expr entry) (child_links tree l (expr entry)) false empty
          else
            (* Defined as function name. *)
            throw (EvalError ("calling " +:+ id +:+ " function without arguments list."))
      | None =>
          if bool_decide (id ∈ inherited) then
            (* [tree.id in this.nameTable] holds, [.args] is undefined. *)
            throw (TypeError "Cannot read properties of undefined (reading 'length')")
          else throw (EvalError ("'" +:+ id +:+ "' undefined."))
      end
  end.

(** The conversion of an undefined name that is a word-list command,
    at the head of the [for] of case ['LIST']. *)
Definition wordListCommand (st : EvaluatorState) (local : bool) (fname : string)
    (child : node) : node :=
  if has_type child "NAME" then
    let id := property_key (node_id child) in
    match local_binding st local fname id, nameTable st !! id with
    | None, None =>
        if negb (bool_decide (id ∈ inherited)) && bool_decide (id ∈ commandsTable st)
        then CmdWList id [] else child
    | _, _ => child
    end
  else child.

(** [typeof x.type === 'number'] *)
Definition type_is_number (x : node) : bool :=
  match node_type x with
  | Some (TNumber _) => true
  | _ => false
  end.

(** The [for] of case ['LIST']: [done] holds [result.list[0..i-1]]. *)
Fixpoint Evaluator_LIST_loop (tree : node) (l : links) (local : bool) (fname : string)
    (i : nat) (done todo : list node) : M (list node) :=
  match todo with
  | [] => ret done
  | child :: todo' =>
      do check_object child "tree.list[i]" in
      let* st := get in
      let child := wordListCommand st local fname child in
      let result := LIST (done ++ replicate (length todo) Undefined) in
      let up := match parent l with PNull => PNull | _ => linked tree l end in
      let* v := reduce child {| parent := PObj result None up; index := Some i |} local fname in
      do (if type_is_number v
          then modify (set_nameTable (<["ans" := {| args := []; expr := v |}]>))
          else ret tt) in
      Evaluator_LIST_loop tree l local fname (S i) (done ++ [v]) todo'
  end.

Definition Evaluator_LIST (tree : node) (l : links) (local : bool) (fname : string)
    : M node :=
  match tree with
  | LIST list =>
      let* result := Evaluator_LIST_loop tree l local fname 0 [] list in
      ret (LIST result)
  | _ => throw (TypeError "Cannot read properties of undefined (reading 'length')")
  end.

Definition Evaluator_RANGE (tree : node) (l : links) (local : bool) (fname : string)
    : M node :=
  match tree with
  | RANGE start stop stride =>
      do check_object start "tree.start" in
      do check_object stop "tree.stop" in
      let* a := reduce start (child_links tree l start) local fname in
      let* b := reduce stop (child_links tree l stop) local fname in
      let* c := (if is_object stride
                 then reduce stride (child_links tree l stride) local fname
                 else ret Null) in
      lift (expandRange lib a b c)
  | _ => throw (TypeError "Cannot set properties of undefined (setting 'parent')")
  end.

(** [this.isTensor(arg0) && arg0.type === ComplexDecimal.numberClass.logical] *)
Definition isLogicalTensor (arg0 : node) : bool :=
  match arg0 with
  | VTensor m => bool_decide (MultiArray.type m = numberClass_logical lib)
  | _ => false
  end.

(** [tree.args.map((arg, i) => { arg.parent = tree; arg.index = i;
    return this.reduceIfReturnList(this.Evaluator(arg, local, fname)); })] *)
Definition reduceArgs (tree : node) (l : links) (local : bool) (fname : string)
    (args : list node) : M (list node) :=
  mapiM (fun i arg =>
           do check_object arg "arg" in
           reduce arg (arg_links tree l i) local fname) args.

(** Indexing of the tensor [temp], named [id] in messages, by the
    subscripts [args] of [tree]. *)
Definition indexTensor (tree : node) (l : links) (local : bool) (fname : string)
    (temp : node) (id : completion string) (args : list node) : M node :=
  let* result :=
    (match args with
     | [arg0] =>
         (* Test logical indexing. *)
         let* arg0 := reduce arg0 (stale_links lib arg0) local fname in
         let* id := lift id in
         if isLogicalTensor arg0
         then lift (getItemsLogical lib temp id arg0)
         else lift (getItems lib temp id [arg0])
     | _ =>
         let* id := lift id in
         let* subscripts := reduceArgs tree l local fname args in
         lift (getItems lib temp id subscripts)
     end) in
  do check_object result "result" in
  ret result.

(** [this.localTable[name] = {}] *)
Definition createFrame (name : string) (st : EvaluatorState) : EvaluatorState :=
  set_next_frame (S (next_frame st))
    (set_localTable (<[name := {| frame_id := next_frame st; vars := ∅ |}]>) st).

(** [base[key] = v], [base] being the object that [this.localTable[name]]
    was before [v] was computed: the write shows in the table when that
    object is still the one registered under [name]. *)
Definition writeFrame (name : string) (base : frame) (key : string) (v : node)
    (st : EvaluatorState) : EvaluatorState :=
  set_localTable (fun t =>
    match t !! name with
    | Some g =>
        if frame_id g =? frame_id base
        then <[name := {| frame_id := frame_id g; vars := <[key := v]> (vars g) |}]> t
        else t
    | None => t
    end) st.

(** The [for] that fills the local frame of a call.  The object and the
    key of [this.localTable[name][key] = ...] are read before the
    argument is evaluated. *)
Fixpoint bindArguments (tree : node) (l : links) (fname name : string)
    (i : nat) (todo : list node) : M unit :=
  match todo with
  | [] => ret tt
  | a :: todo' =>
      do check_object a "tree.args[i]" in
      let* st := get in
      let base := localTable st !! name in
      let* key :=
        (match nameTable st !! name with
         | Some entry =>
             match args entry !! i with
             | Some p => do check_object p "args[i]" in ret (property_key (node_id p))
             | None => throw (TypeError "Cannot read properties of undefined (reading 'id')")
             end
         | None => throw (TypeError "Cannot read properties of undefined (reading 'args')")
         end) in
      let* v := reduce a (arg_links tree l i) true fname in
      match base with
      | None => throw (TypeError "Cannot set properties of undefined")
      | Some f =>
          do modify (writeFrame name f key v) in
          bindArguments tree l fname name (S i) todo'
      end
  end.

(** The branch "Else is defined function" of case ['ARG']. *)
Definition callFunction (tree : node) (l : links) (fname name : string)
    (entry : TNameTableEntry) (actual : list node) : M node :=
  if negb (length (args entry) =? length actual) then
    throw (EvalError ("invalid number of arguments in function " +:+ name +:+ "."))
  else
    (* Create localTable entry. *)
    do modify (createFrame name) in
    do bindArguments tree l fname name 0 actual in
    let* st := get in
    match nameTable st !! name with
    | None => throw (TypeError "Cannot read properties of undefined (reading 'expr')")
    | Some current =>
        let* temp := reduce (expr current) (stale_links lib (expr current)) true name in
        (* Delete localTable entry. *)
        do modify (set_localTable (delete name)) in
        ret temp
    end.

(** The branch "Is base function" of case ['ARG']. *)
Definition callBaseFunction (tree : node) (l : links) (local : bool) (fname : string)
    (aliasTreeName : string) (entry : TBaseFunctionTableEntry.t) (actual : list node)
    : M node :=
  match TBaseFunctionTableEntry.mapper entry with
  | Some isMapper =>
      (* Arguments evaluated. *)
      let* argumentsList := reduceArgs tree l local fname actual in
      if isMapper && negb (length argumentsList =? 1) then
        throw (EvalError ("Invalid call to " +:+ aliasTreeName +:+ "."))
      else if (length argumentsList =? 1) && isTensor (arg 0 argumentsList) && isMapper then
        lift (mapTensor lib (arg 0 argumentsList) (TBaseFunctionTableEntry.func entry))
      else lift (TBaseFunctionTableEntry.func entry argumentsList)
  | None =>
      (* Arguments selectively evaluated. *)
      let* argumentsList :=
        mapiM (fun i a =>
                 do check_object a "arg" in
                 if default false (TBaseFunctionTableEntry.ev entry !! i)
                 then reduce a (arg_links tree l i) local fname
                 else ret a) actual in
      lift (TBaseFunctionTableEntry.func entry argumentsList)
  end.

Definition Evaluator_ARG (tree : node) (l : links) (local : bool) (fname : string)
    : M node :=
  match node_expr tree with
  | Undefined => throw (EvalError ("'" +:+ property_key (node_id tree) +:+ "' undefined."))
  | callee =>
      do check_object callee "tree.expr" in
      let* actual :=
        (match node_args tree with
         | Some a => ret a
         | None => throw (TypeError "Cannot read properties of undefined (reading 'map')")
         end) in
      if has_type callee "NAME" then
        (* Indexed matrix reference or function call. *)
        let id := property_key (node_id callee) in
        let* st := get in
        let aliasTreeName := aliasName st id in
        match baseFunctionTable st !! aliasTreeName with
        | Some entry => callBaseFunction tree l local fname aliasTreeName entry actual
        | None =>
            if bool_decide (aliasTreeName ∈ inherited) then
              (* [aliasTreeName in this.baseFunctionTable] holds; [.mapper],
                 [.ev] and [.func] are undefined on what it names: the
                 read of [.ev[0]] throws before any argument is reduced. *)
              if length actual =? 0 then
                throw (TypeError "this.baseFunctionTable[aliasTreeName].func is not a function")
              else throw (TypeError "Cannot read properties of undefined (reading '0')")
            else
            match local_binding st local fname id with
            | Some v => ret v
            | None =>
                match nameTable st !! id with
                | Some entry =>
                    if length (args entry) =? 0 then
                      (* If is a defined name. *)
                      do check_object (expr entry) "expr" in
                      let* temp := reduce (expr entry) (child_links tree l (expr entry)) false empty in
                      if length actual =? 0 then ret temp
                      else if isTensor temp then indexTensor tree l local fname temp (Normal id) actual
                      else throw (EvalError "invalid matrix indexing or function arguments.")
                    else callFunction tree l fname id entry actual
                | None =>
                    if bool_decide (id ∈ inherited) then
                      throw (TypeError "Cannot read properties of undefined (reading 'length')")
                    else throw (EvalError ("'" +:+ id +:+ "' undefined."))
                end
            end
        end
      else
        (* literal indexing, ex: [1,2;3,4](1,2). *)
        indexTensor tree l local fname callee (Unparse callee) actual
  end.

Definition Evaluator_CmdWList (tree : node) : M node :=
  let id := property_key (node_id tree) in
  let* st := get in
  match commandWordListTable st !! id with
  | None =>
      if bool_decide (id ∈ inherited) then
        throw (TypeError "this.commandWordListTable[...].func is not a function")
      else throw (TypeError "Cannot read properties of undefined (reading 'func')")
  | Some entry =>
      let words := map (fun word =>
                          match word with
                          | VString s => CharString.str s
                          | _ => "undefined"
                          end) (default [] (node_args tree)) in
      do lift (TCommandWordListTableEntry.func entry words) in
      do modify (set_exitStatus (-2)) in
      ret tree
  end.

(** *** Assignment *)

(** The selector of the return list that wraps a right side which is
    not one already. *)
Definition wrapRight (right : node) : nat -> nat -> completion node :=
  fun _ index =>
    if index =? 0 then Normal right
    else Throw (EvalError ("element number " +:+ pretty (index + 1)
                           +:+ " undefined in return list")).

(** [right.selector]: the function of a [RETLIST] node. *)
Definition selector_of (right : node) : nat -> nat -> completion node :=
  match right with
  | RETLIST selector => selector
  | _ => fun _ _ => Throw (TypeError "right.selector is not a function")
  end.

(** The test "args is a list of undefined NAME". *)
Fixpoint isFunctionDefinition (st : EvaluatorState) (args : list node) : M bool :=
  match args with
  | [] => ret true
  | a :: args' =>
      do check_object a "args[i]" in
      if has_type a "NAME" then
        match nameTable st !! property_key (node_id a) with
        | None =>
            if bool_decide (property_key (node_id a) ∈ inherited) then ret false
            else isFunctionDefinition st args'
        | Some _ => ret false
        end
      else ret false
  end.

(** [this.setItems(this.nameTable, ...)] and [this.setItemsLogical]:
    the library updates the table it is handed. *)
Definition storeItems (id : string) (subscripts : list node) (value : node) : M unit :=
  let* st := get in
  let* table := lift (setItems lib (nameTable st) id subscripts value) in
  modify (set_nameTable (fun _ => table)).

Definition storeItemsLogical (id : string) (mask : node) (value : node) : M unit :=
  let* st := get in
  let* table := lift (setItemsLogical lib (nameTable st) id mask value) in
  modify (set_nameTable (fun _ => table)).

(** [this.nameTable[id].expr] *)
Definition storedExpr (id : string) : M node :=
  let* st := get in
  match nameTable st !! id with
  | Some entry => ret (expr entry)
  | None =>
      if bool_decide (id ∈ inherited) then ret Undefined
      else throw (TypeError "Cannot read properties of undefined (reading 'expr')")
  end.

(** [this.toTensor(this.reduceIfReturnList(this.Evaluator(x)))] *)
Definition reducedTensor (x : node) (l : links) (local : bool) (fname : string) : M node :=
  let* v := reduce x l local fname in
  lift (toTensor lib v).

Section Assignment.

(** The assignment node, its links, the flags of the call, the operator
    of a computed assignment, the return list of the right side, and
    the number of targets. *)
Variables (tree : node) (l : links) (local : bool) (fname : string).
Variables (op : string) (selector : nat -> nat -> completion node) (wrapped : bool).
Variable count : nat.

(** The links of [right.selector(assignment.length, n)] where the
    source evaluates it as it stands: the wrapped right side was linked
    to [tree] on entry. *)
Definition selected_links (rightN : node) : links :=
  if wrapped then child_links tree l rightN else stale_links lib rightN.

(** The value of the right side, reduced and made a tensor. *)
Definition rightTensor (n : nat) : M node :=
  let* rightN := lift (selector count n) in
  reducedTensor rightN (selected_links rightN) false empty.

(** [op.length ? this.nodeOp(op, left, rightN) : rightN] *)
Definition assignedExpr (left rightN : node) : node :=
  if 0 <? String.length op then nodeOp op left rightN else rightN.

(** The links of that expression: a node [nodeOp] has just built has
    none; [rightN] has been given [tree.right] as parent, which is
    [rightN] itself when the right side was wrapped. *)
Definition assignedLinks (rightN : node) : links :=
  if 0 <? String.length op then {| parent := PUndefined; index := None |}
  else
    let right_index := index (stale_links lib (node_right tree)) in
    {| parent := if wrapped then PSelf (node_right tree) right_index
                 else PObj (node_right tree) right_index (linked tree l);
       index := index (stale_links lib rightN) |}.

(** "Name definition." *)
Definition assignName (n : nat) (left : node) (id : string) : M node :=
  let* rightN := lift (selector count n) in
  do check_object rightN "rightN" in
  let expr := assignedExpr left rightN in
  try_catch
    (let* v := reduce expr (assignedLinks rightN) false empty in
     do modify (set_nameTable (<[id := {| args := []; expr := v |}]>)) in
     ret (nodeOp "=" left v))
    (fun error =>
       do modify (set_nameTable (<[id := {| args := []; expr := expr |}]>)) in
       throw error).

(** "Indexed matrix reference on left hand side with operator." *)
Definition assignIndexedComputed (n : nat) (id : string) (indices : list node) : M node :=
  let* st := get in
  match nameTable st !! id with
  | None =>
      if bool_decide (id ∈ inherited) then
        throw (TypeError "Cannot read properties of undefined (reading 'length')")
      else
        throw (EvalError ("in computed assignment " +:+ id +:+ "(index) OP= X, " +:+ id
                          +:+ " must be defined first."))
  | Some entry =>
      if length (args entry) =? 0 then
        do (match indices with
            | [a0] =>
                (* Test logical indexing. *)
                let* arg0 := reduce a0 (stale_links lib a0) local fname in
                if isLogicalTensor arg0 then
                  let* mask := lift (linearize lib arg0) in
                  let* current := storedExpr id in
                  let* items := lift (getItemsLogical lib current id arg0) in
                  let* value := rightTensor n in
                  let combined := nodeOp op items value in
                  let* result :=
                    reducedTensor combined {| parent := PUndefined; index := None |} false fname in
                  storeItemsLogical id mask result
                else
                  let* subscript := lift (linearize lib arg0) in
                  let* current := storedExpr id in
                  let* items := lift (getItems lib current id [arg0]) in
                  let* value := rightTensor n in
                  let combined := nodeOp op items value in
                  let* result :=
                    reducedTensor combined {| parent := PUndefined; index := None |} false fname in
                  storeItems id [subscript] result
            | _ =>
                let* subscripts :=
                  mapM (fun a =>
                          let* v := reduce a (stale_links lib a) false empty in
                          lift (linearize lib v)) indices in
                let* current := storedExpr id in
                let* items := lift (getItems lib current id indices) in
                let* value := rightTensor n in
                let combined := nodeOp op items value in
                let* result :=
                  reducedTensor combined {| parent := PUndefined; index := None |} false fname in
                storeItems id subscripts result
            end) in
        let* stored := storedExpr id in
        ret (nodeOp "=" (nodeName id) stored)
      else
        throw (EvalError ("in computed assignment " +:+ id +:+ "(index) OP= X, " +:+ id
                          +:+ " cannot be a function."))
  end.

(** "Indexed matrix reference on left hand side." *)
Definition assignIndexed (n : nat) (id : string) (indices : list node) : M node :=
  do (match indices with
      | [a0] =>
          (* Test logical indexing. *)
          let* arg0 := reduce a0 (stale_links lib a0) local fname in
          if isLogicalTensor arg0 then
            let* mask := lift (linearize lib arg0) in
            let* value := rightTensor n in
            storeItemsLogical id mask value
          else
            let* subscript := lift (linearize lib arg0) in
            let* value := rightTensor n in
            storeItems id [subscript] value
      | _ =>
          let* subscripts :=
            mapM (fun a =>
                    let* v := reduce a (stale_links lib a) false empty in
                    lift (linearize lib v)) indices in
          let* value := rightTensor n in
          storeItems id subscripts value
      end) in
  let* stored := storedExpr id in
  ret (nodeOp "=" (nodeName id) stored).

(** "Function definition": parameters and body are stored, and [tree]
    itself is what is appended to [resultList]. *)
Definition defineFunction (n : nat) (id : string) (parameters : list node) : M node :=
  let* body := lift (selector count n) in
  do modify (set_nameTable (<[id := {| args := parameters; expr := body |}]>)) in
  ret tree.

(** One turn of the [for] over the targets: the node appended to
    [resultList], if any, and whether that node is [tree] itself. *)
Definition assignTarget (n : nat) (target : LeftHandSide) : M (option (node * bool)) :=
  if is_object (lhs_left target) then
    let id := lhs_id target in
    if length (lhs_args target) =? 0 then
      (* Name definition. *)
      let* r := assignName n (lhs_left target) id in ret (Some (r, false))
    else if 0 <? String.length op then
      let* r := assignIndexedComputed n id (lhs_args target) in ret (Some (r, false))
    else
      (* Test if is a function definition (test if args is a list of undefined NAME). *)
      let* st := get in
      let* isFunction := isFunctionDefinition st (lhs_args target) in
      if isFunction then
        let* r := defineFunction n id (lhs_args target) in ret (Some (r, true))
      else
        let* r := assignIndexed n id (lhs_args target) in ret (Some (r, false))
  else ret None.

(** The [for] over the targets; [relinked] records that [tree] itself
    was appended to [resultList], which [nodeList] makes its parent. *)
Fixpoint assignTargets (n : nat) (targets : list LeftHandSide)
    (resultList : list node) (relinked : bool) : M (list node * bool) :=
  match targets with
  | [] => ret (resultList, relinked)
  | target :: targets' =>
      let* r := assignTarget n target in
      match r with
      | Some (x, is_tree) =>
          assignTargets (S n) targets' (resultList ++ [x]) (relinked || is_tree)
      | None => assignTargets (S n) targets' resultList relinked
      end
  end.

End Assignment.

(** What the assignment returns once the targets are done; [relinked]
    tells that [tree] was appended to [resultList], which has made the
    list, an object without parent, the parent of [tree]. *)
Definition assignmentResult (l : links) (resultList : list node) (relinked : bool)
    : M node :=
  let tree_parent :=
    if relinked then PObj (LIST resultList) None PUndefined else parent l in
  match tree_parent with
  | PNull | PUndefined =>
      throw (TypeError "Cannot read properties of null (reading 'parent')")
  | PObj _ _ PNull =>
      (* assignment at root expression *)
      if length resultList =? 1 then ret (arg 0 resultList)
      else ret (LIST resultList)
  | _ =>
      (* assignment at right side *)
      match resultList with
      | x :: _ => ret (node_right x)
      | [] => throw (TypeError "Cannot read properties of undefined (reading 'right')")
      end
  end.

Definition Evaluator_assignment (tree : node) (l : links) (local : bool) (fname : string)
    (type : string) : M node :=
  do check_object (node_left tree) "tree.left" in
  do check_object (node_right tree) "tree.right" in
  let* assignment := validateAssignment (node_left tree) true in
  let op := String.substring 0 (String.length type - 1) type in
  if (1 <? length assignment) && (0 <? String.length op) then
    throw (EvalError "computed multiple assignment not allowed.")
  else
    let* right :=
      try_catch (Ev (node_right tree) (child_links tree l (node_right tree)) false fname)
                (fun _ => ret (node_right tree)) in
    do check_object right "right" in
    let wrapped := negb (has_type right "RETLIST") in
    let selector := if wrapped then wrapRight (node_right tree) else selector_of right in
    let* results :=
      assignTargets tree l local fname op selector wrapped (length assignment)
        0 assignment [] false in
    assignmentResult l results.1 results.2.

(** [`${tree.type}`] *)
Definition type_text (t : jstype) : string :=
  match t with
  | TNumber n => pretty n
  | TString s => s
  | TUndefined => "undefined"
  end.

(** The body of [Evaluator]. *)
Definition Evaluator_body (tree : node) (l : links) (local : bool) (fname : string)
    : M node :=
  if isNumber tree || isString tree then
    (* NUMBER or STRING *)
    ret tree
  else
    match tree with
    | VTensor m =>
        (* MATRIX *)
        evaluateTensor lib Ev m l local fname
    | _ =>
        match node_type tree with
        | None => throw (TypeError "Cannot read properties of undefined (reading 'type')")
        | Some (TString type) =>
            if bool_decide (type ∈ binary_types) then
              Evaluator_binary tree l local fname type
            else if bool_decide (type = "()") then
              do check_object (node_right tree) "tree.right" in
              reduce (node_right tree) (child_links tree l (node_right tree)) local fname
            else if bool_decide (type ∈ ["+_"; "-_"]) then
              do check_object (node_right tree) "tree.right" in
              let* v := reduce (node_right tree) (child_links tree l (node_right tree))
                          local fname in
              applyOp type [v]
            else if bool_decide (type ∈ ["++_"; "--_"]) then
              do check_object (node_right tree) "tree.right" in
              applyOp type [node_right tree]
            else if bool_decide (type ∈ [".'"; "'"]) then
              do check_object (node_left tree) "tree.left" in
              let* v := reduce (node_left tree) (child_links tree l (node_left tree))
                          local fname in
              applyOp type [v]
            else if bool_decide (type ∈ ["_++"; "_--"]) then
              do check_object (node_left tree) "tree.left" in
              applyOp type [node_left tree]
            else if bool_decide (type ∈ assignment_types) then
              Evaluator_assignment tree l local fname type
            else if bool_decide (type = "NAME") then Evaluator_NAME tree l local fname
            else if bool_decide (type = "LIST") then Evaluator_LIST tree l local fname
            else if bool_decide (type = "RANGE") then Evaluator_RANGE tree l local fname
            else if bool_decide (type = "ENDRANGE") then Evaluator_ENDRANGE l
            else if bool_decide (type = ":") then Evaluator_colon l
            else if bool_decide (type = "ARG") then Evaluator_ARG tree l local fname
            else if bool_decide (type = "CmdWList") then Evaluator_CmdWList tree
            else throw (EvalError ("evaluating undefined type '" +:+ type +:+ "'."))
        | Some t =>
            throw (EvalError ("evaluating undefined type '" +:+ type_text t +:+ "'."))
        end
    end.

End Cases.

(** [Evaluator]: [fuel] bounds the depth of the recursion; a call that
    runs out of it has not returned. *)
Fixpoint Evaluator (fuel : nat) : Evaluator_t :=
  match fuel with
  | 0 => fun _ _ _ _ => diverge
  | S fuel' => Evaluator_body (Evaluator fuel')
  end.

(** [Evaluate] *)
Definition Evaluate (fuel : nat) (tree : node) : M node :=
  try_catch
    (do modify (set_exitStatus 0) in
     do check_object tree "tree" in
     Evaluator fuel tree {| parent := PNull; index := index (stale_links lib tree) |} false empty)
    (fun e =>
       do modify (set_exitStatus 3) in
       throw e).

(** *** Construction *)

(** The field initialisers of the class. *)
Definition fields : EvaluatorState :=
  {| debug := false; nameTable := ∅; readonlyNameTable := [];
     aliasName := fun name => name; baseFunctionTable := ∅;
     localTable := ∅; commandWordListTable := ∅; commandsTable := [];
     exitStatus := 0; next_frame := 0 |}.

(** [this.baseFunctionTable[func].unparserML = this.unparseMLFunctions[func]] *)
Definition configureUnparserML
    (table : completion (gmap string TBaseFunctionTableEntry.t))
    (template : string * (node -> (nat -> completion string) -> completion string))
    : completion (gmap string TBaseFunctionTableEntry.t) :=
  cbind table (fun t =>
    match t !! template.1 with
    | Some e =>
        Normal (<[template.1 :=
                   TBaseFunctionTableEntry.mk
                     (TBaseFunctionTableEntry.mapper e) (TBaseFunctionTableEntry.ev e)
                     (TBaseFunctionTableEntry.func e) (Some template.2)]> t)
    | None => Throw (TypeError "Cannot set properties of undefined (setting 'unparserML')")
    end).

(** The state [new Evaluator()] leaves: [loadNativeTable], then the
    function catalogues of the library, then the templates. *)
Definition constructor : completion EvaluatorState :=
  cbind (foldl configureUnparserML (Normal (catalog lib)) unparseMLFunctions)
    (fun table => Normal (set_baseFunctionTable (fun _ => table) (loadNativeTable fields))).

Record TEvaluatorConfig := {
  aliasTable : option (list (string * (string -> bool)));
  externalFunctionTable : option (gmap string TBaseFunctionTableEntry.t);
  externalCmdWListTable : option (gmap string TCommandWordListTableEntry.t)
}.

(** The [aliasName] that [initialize] installs over an alias table:
    the first alias whose pattern matches. *)
Fixpoint aliasNameOf (table : list (string * (string -> bool))) (name : string) : string :=
  match table with
  | [] => name
  | (alias, test) :: table' => if test name then alias else aliasNameOf table' name
  end.

(** [Evaluator.initialize(config)]; [commands] is the global
    [commandsTable] of the parser. *)
Definition initialize (config : option TEvaluatorConfig) (commands : list string)
    : completion EvaluatorState :=
  cbind constructor (fun evaluator =>
    let evaluator :=
      {| debug := debug evaluator; nameTable := nameTable evaluator;
         readonlyNameTable := readonlyNameTable evaluator;
         aliasName := aliasName evaluator;
         baseFunctionTable := baseFunctionTable evaluator;
         localTable := localTable evaluator;
         commandWordListTable := commandWordListTable evaluator;
         commandsTable := commands; exitStatus := exitStatus evaluator;
         next_frame := next_frame evaluator |} in
    match config with
    | Some c =>
        let functions := default ∅ (externalFunctionTable c) ∪ baseFunctionTable evaluator in
        let words := default ∅ (externalCmdWListTable c) ∪ commandWordListTable evaluator in
        Normal
          {| debug := debug evaluator; nameTable := nameTable evaluator;
             readonlyNameTable := readonlyNameTable evaluator;
             aliasName := match aliasTable c with
                          | Some t => aliasNameOf t
                          | None => fun name => name
                          end;
             baseFunctionTable := functions;
             localTable := localTable evaluator;
             commandWordListTable := words;
             commandsTable := commands ++ (map fst (map_to_list words));
             exitStatus := exitStatus evaluator;
             next_frame := next_frame evaluator |}
    | None => Normal evaluator
    end).

End Evaluator.

(** ** Node and function constructors *)

(** [nodeRange(...args)]: two arguments are start and stop, three are
    start, stride and stop. *)
Definition nodeRange (args : list node) : completion node :=
  match args with
  | [start; stop] => Normal (RANGE start stop Null)
  | [start; stride; stop] => Normal (RANGE start stop stride)
  | _ => Throw (SyntaxError "invalid range.")
  end.

(** [defFunction(name, func, map, ev)], with [map ?? false] and [ev ?? []]. *)
Definition defFunction (name : string) (func : list node -> completion node)
    (map : option bool) (ev : option (list bool)) (st : EvaluatorState) : EvaluatorState :=
  set_baseFunctionTable
    (<[name := TBaseFunctionTableEntry.mk (Some (default false map)) (default [] ev) func None]>)
    st.

(** [throw new EvalError(`Invalid call to ${name}.`)] *)
Definition invalidCall (name : string) : completion node :=
  Throw (EvalError ("Invalid call to " +:+ name +:+ ".")).

(** [DefUnOpFunction]: [func] takes the rest parameter [...operand]. *)
Definition DefUnOpFunction (name : string) (func : list node -> completion node)
    (st : EvaluatorState) : EvaluatorState :=
  set_baseFunctionTable
    (<[name := TBaseFunctionTableEntry.mk (Some false) []
                 (fun operand =>
                    if length operand =? 1 then func [arg 0 operand]
                    else invalidCall name)
                 None]>)
    st.

(** [DefBinOpFunction]: [func] takes [left] and the rest parameter
    [...right]. *)
Definition DefBinOpFunction (name : string) (func : list node -> completion node)
    (st : EvaluatorState) : EvaluatorState :=
  set_baseFunctionTable
    (<[name := TBaseFunctionTableEntry.mk (Some false) []
                 (fun operands =>
                    let left := arg 0 operands in
                    let right := drop 1 operands in
                    if length right =? 1 then func [left; arg 0 right]
                    else invalidCall name)
                 None]>)
    st.

(** [DefBinMoreOpFunction]: the [for] over [right] from index 1 is a
    fold from the left. *)
Definition DefBinMoreOpFunction (name : string) (func : list node -> completion node)
    (st : EvaluatorState) : EvaluatorState :=
  set_baseFunctionTable
    (<[name := TBaseFunctionTableEntry.mk (Some false) []
                 (fun operands =>
                    let left := arg 0 operands in
                    let right := drop 1 operands in
                    if length right =? 1 then func [left; arg 0 right]
                    else if 1 <? length right then
                      foldl (fun result r => cbind result (fun x => func [x; r]))
                            (func [left; arg 0 right]) (drop 1 right)
                    else invalidCall name)
                 None]>)
    st.

(** ** A small library for the examples *)

Module Sample.

Definition real (z : Z) : ComplexDecimal.t :=
  ComplexDecimal.mk (Finite z 0) (Finite 0 0) 1.

Definition number (z : Z) : node := VNumber (real z).

Definition logical : Z := 0.

(** The integer a number node holds, when it is one. *)
Definition integer (x : node) : option Z :=
  match x with
  | VNumber (ComplexDecimal.mk (Finite z 0) _ _) => Some z
  | _ => None
  end.

Definition static (name : string) : ComplexDecimal.t :=
  if bool_decide (name = "false") then ComplexDecimal.mk (Finite 0 0) (Finite 0 0) logical
  else if bool_decide (name = "true") then ComplexDecimal.mk (Finite 1 0) (Finite 0 0) logical
  else if bool_decide (name = "onei") then ComplexDecimal.mk (Finite 0 0) (Finite 1 0) 2
  else if bool_decide (name = "e") then real 3
  else if bool_decide (name = "pi") then real 3
  else if bool_decide (name = "inf_0") then ComplexDecimal.mk (Infinity false) (Finite 0 0) 1
  else if bool_decide (name = "NaN_0") then ComplexDecimal.mk NaN (Finite 0 0) 1
  else real 1.

(** Integer arithmetic on number nodes; anything else is refused. *)
Definition tensor (method : string) (operands : list node) : completion node :=
  match operands with
  | [a] =>
      if bool_decide (method = "copy") then Normal a
      else Throw (LibraryError "unsupported")
  | [a; b] =>
      match integer a, integer b with
      | Some x, Some y =>
          if bool_decide (method = "plus") then Normal (number (x + y))
          else if bool_decide (method = "minus") then Normal (number (x - y))
          else if bool_decide (method ∈ ["times"; "mtimes"]) then Normal (number (x * y))
          else Throw (LibraryError "unsupported")
      | _, _ => Throw (LibraryError "unsupported")
      end
  | _ => Throw (LibraryError "unsupported")
  end.

Definition dims (t : node) : list nat :=
  match t with
  | VTensor m => MultiArray.dim m
  | _ => []
  end.

Definition abs : TBaseFunctionTableEntry.t :=
  TBaseFunctionTableEntry.mk (Some true) []
    (fun a => match a with
              | [x] => match integer x with
                       | Some z => Normal (number (Z.abs z))
                       | None => Throw (LibraryError "unsupported")
                       end
              | _ => Throw (LibraryError "unsupported")
              end)
    None.

(** The first element of a name that is not bound yet: the value
    becomes the entry.  Any other store is refused. *)
Definition store (table : gmap string TNameTableEntry) (id : string)
    (subscripts : list node) (value : node) : completion (gmap string TNameTableEntry) :=
  match table !! id, map integer subscripts with
  | None, [Some 1%Z] => Normal (<[id := {| args := []; expr := value |}]> table)
  | _, _ => Throw (LibraryError "unsupported")
  end.

(** Modelled from the spec: a tensor literal that is already reduced
    evaluates to itself, [linearLength] is the product of the
    dimensions and [getDimension] the size of one of them. *)
Definition lib : Library :=
  {| ComplexDecimal_static := static;
     numberClass_logical := logical;
     newNumber := number;
     constantsTable := [];
     catalog := {[ "abs" := abs ]};
     Tensor := tensor;
     evaluateTensor := fun _ m _ _ _ => ret (VTensor m);
     mapTensor := fun _ _ => Throw (LibraryError "unsupported");
     getItems := fun _ _ _ => Throw (LibraryError "unsupported");
     getItemsLogical := fun _ _ _ => Throw (LibraryError "unsupported");
     setItems := store;
     setItemsLogical := fun _ _ _ _ => Throw (LibraryError "unsupported");
     expandRange := fun _ _ _ => Throw (LibraryError "unsupported");
     linearize := fun x => Normal x;
     toTensor := fun x => Normal x;
     linearLength := fun t => Z.of_nat (foldr Nat.mul 1 (dims t));
     getDimension := fun t i =>
       match i with
       | Some k => Z.of_nat (nth k (dims t) 1)
       | None => 0%Z
       end;
     unparseNumber := fun n =>
       match ComplexDecimal.re n with
       | Finite z _ => Normal (pretty z)
       | _ => Throw (LibraryError "unsupported")
       end;
     unparseString := fun s => Normal (CharString.str s);
     unparseTensor := fun _ => Normal "[...]";
     unparseNumberML := fun n =>
       match ComplexDecimal.re n with
       | Finite z _ => Normal ("<mn>" +:+ pretty z +:+ "</mn>")
       | _ => Throw (LibraryError "unsupported")
       end;
     unparseStringML := fun s => Normal ("<mtext>" +:+ CharString.str s +:+ "</mtext>");
     unparseTensorML := fun _ => Normal "<mtable></mtable>";
     substSymbol := fun id => Normal (property_key id);
     stale_links := fun _ => {| parent := PUndefined; index := None |} |}.

(** An interpreter with the native names and the function [abs]. *)
Definition evaluator : EvaluatorState :=
  set_baseFunctionTable (fun _ => {[ "abs" := abs ]}) (loadNativeTable lib fields).

(** The links of a statement evaluated through [Evaluate]. *)
Definition root : links := {| parent := PNull; index := None |}.

(** A 3 by 4 tensor of zeros. *)
Definition A : node :=
  VTensor (MultiArray.mk [3; 4] (replicate 3 (replicate 4 (number 0))) 1).

(** The logical row [true, false]. *)
Definition mask : node :=
  VTensor (MultiArray.mk [1; 2]
             [[VNumber (static "true"); VNumber (static "false")]] logical).

Definition bind_name (id : string) (parameters : list node) (body : node)
    (st : EvaluatorState) : EvaluatorState :=
  set_nameTable (<[id := {| args := parameters; expr := body |}]>) st.

End Sample.

(** ** A library with linear indexing and the whole function catalogue *)

Module Indexed.

(** The elements of a tensor, row after row. *)
Definition elements (t : node) : list node :=
  match t with
  | VTensor m => concat (MultiArray.array m)
  | _ => []
  end.

(** The rows of a tensor. *)
Definition rows (t : node) : list (list node) :=
  match t with
  | VTensor m => MultiArray.array m
  | _ => []
  end.

(** One subscript, counted from one over the elements; or a row and a
    column, counted from one. *)
Definition item (t : node) (id : string) (subscripts : list node) : completion node :=
  match subscripts with
  | [k] =>
      match Sample.integer k with
      | Some z =>
          match elements t !! Z.to_nat (z - 1) with
          | Some x => Normal x
          | None => Throw (LibraryError (id +:+ ": out of bound"))
          end
      | None => Throw (LibraryError "unsupported")
      end
  | [r; c] =>
      match Sample.integer r, Sample.integer c with
      | Some i, Some j =>
          match rows t !! Z.to_nat (i - 1) ≫= (λ row, row !! Z.to_nat (j - 1)) with
          | Some x => Normal x
          | None => Throw (LibraryError (id +:+ ": out of bound"))
          end
      | _, _ => Throw (LibraryError "unsupported")
      end
  | _ => Throw (LibraryError "unsupported")
  end.

(** The elements the mask selects, as a row. *)
Definition selection (t : node) (id : string) (mask : node) : completion node :=
  let selected :=
    map fst (filter (fun p => bool_decide (Sample.integer p.2 = Some 1%Z))
               (zip (elements t) (elements mask))) in
  Normal (VTensor (MultiArray.mk [1; length selected] [selected] 1)).

Definition functions : gmap string TBaseFunctionTableEntry.t :=
  list_to_map (map (fun name => (name, Sample.abs))
                 ["abs"; "conj"; "sqrt"; "root"; "exp"; "logb"; "log2"; "log10"; "gamma";
                  "factorial"]).

Definition lib : Library :=
  {| ComplexDecimal_static := ComplexDecimal_static Sample.lib;
     numberClass_logical := numberClass_logical Sample.lib;
     newNumber := newNumber Sample.lib;
     constantsTable := constantsTable Sample.lib;
     catalog := functions;
     Tensor := Tensor Sample.lib;
     evaluateTensor := evaluateTensor Sample.lib;
     mapTensor := mapTensor Sample.lib;
     getItems := item;
     getItemsLogical := selection;
     setItems := setItems Sample.lib;
     setItemsLogical := setItemsLogical Sample.lib;
     expandRange := expandRange Sample.lib;
     linearize := linearize Sample.lib;
     toTensor := toTensor Sample.lib;
     linearLength := linearLength Sample.lib;
     getDimension := getDimension Sample.lib;
     unparseNumber := unparseNumber Sample.lib;
     unparseString := unparseString Sample.lib;
     unparseTensor := unparseTensor Sample.lib;
     unparseNumberML := unparseNumberML Sample.lib;
     unparseStringML := unparseStringML Sample.lib;
     unparseTensorML := unparseTensorML Sample.lib;
     substSymbol := substSymbol Sample.lib;
     stale_links := stale_links Sample.lib |}.

(** The tensor [11, 12, 13; 21, 22, 23]. *)
Definition grid : node :=
  VTensor (MultiArray.mk [2; 3]
             [[Sample.number 11; Sample.number 12; Sample.number 13];
              [Sample.number 21; Sample.number 22; Sample.number 23]] 1).

(** The row [10, 20, 30]. *)
Definition row : node :=
  VTensor (MultiArray.mk [1; 3] [[Sample.number 10; Sample.number 20; Sample.number 30]] 1).

End Indexed.

(** * Vocabulary of the statements *)

(** The table [loadNativeTable] builds over [t]. *)
Definition seed (t : gmap string TNameTableEntry) (entries : list (string * node))
    : gmap string TNameTableEntry :=
  foldl (fun t e => <[e.1 := {| args := []; expr := e.2 |}]> t) t entries.

(** A call that comes back, with a value or with an exception. *)
Definition returns {A} (c : completion A) : Prop := c ≠ Diverge.

(** Every rendering a [rendered] record holds came back. *)
Definition rendered_returns (r : rendered) : Prop :=
  returns (r_left r) ∧ returns (r_right r) ∧ returns (r_expr r)
  ∧ (∀ l, r_list r = Some l → Forall returns l)
  ∧ (∀ l, r_args r = Some l → Forall returns l)
  ∧ (∀ c, r_start r = Some c → returns c)
  ∧ (∀ c, r_stop r = Some c → returns c)
  ∧ (∀ c, r_stride r = Some c → returns c).

(** The renderers of the library come back, the tensor ones provided
    the renderings of the elements they are handed did. *)
Definition renderers_return (lib : Library) : Prop :=
  (∀ n, returns (unparseNumber lib n))
  ∧ (∀ s, returns (unparseString lib s))
  ∧ (∀ m, Forall (Forall (λ x, returns x.2)) (MultiArray.array m) →
          returns (unparseTensor lib m))
  ∧ (∀ n, returns (unparseNumberML lib n))
  ∧ (∀ s, returns (unparseStringML lib s))
  ∧ (∀ m, Forall (Forall (λ x, returns x.2)) (MultiArray.array m) →
          returns (unparseTensorML lib m))
  ∧ (∀ id, returns (substSymbol lib id)).

(** The templates of the function table come back when the renderings
    of the arguments do. *)
Definition templates_return (st : EvaluatorState) : Prop :=
  ∀ name entry template,
    baseFunctionTable st !! name = Some entry →
    TBaseFunctionTableEntry.unparserML entry = Some template →
    ∀ tree a, (∀ i, returns (a i)) → returns (template tree a).

(** The node [nodeOp] builds for an increment or a decrement. *)
Definition incDecNode (pre : bool) (operation : string) (operand : node) : node :=
  match pre, bool_decide (operation = "plus") with
  | true, true => nodeOp "++_" operand Undefined
  | true, false => nodeOp "--_" operand Undefined
  | false, true => nodeOp "_++" operand Undefined
  | false, false => nodeOp "_--" operand Undefined
  end.

(** [this.nameTable[id].expr = v] on the entry [entry]. *)
Definition storeExpr (id : string) (entry : TNameTableEntry) (v : node)
    (st : EvaluatorState) : EvaluatorState :=
  set_nameTable (<[id := {| args := args entry; expr := v |}]>) st.

(** The parent chain [Evaluate] and the linking cases build: the
    enclosing objects, nearest first, each with its [index], then
    [null]. *)
Definition chain (enclosing : list (node * option nat)) : parent_ref :=
  foldr (fun f up => PObj f.1 f.2 up) PNull enclosing.

(** The resolution of [end] as the specification words it: the nearest
    enclosing ArgExpr whose callee resolves to a bound tensor variable,
    its number of subscripts, and the index of the [end] node itself. *)
Fixpoint spec_indexing_context (st : EvaluatorState) (enclosing : list (node * option nat))
    : option (node * nat) :=
  match enclosing with
  | [] => None
  | (p, _) :: up =>
      match p with
      | ARG callee subscripts =>
          match bound_tensor st (property_key (node_id callee)) with
          | Normal (Some t) => Some (t, length subscripts)
          | _ => spec_indexing_context st up
          end
      | _ => spec_indexing_context st up
      end
  end.

Definition spec_end (lib : Library) (st : EvaluatorState)
    (enclosing : list (node * option nat)) (own_index : option nat) : completion node :=
  match spec_indexing_context st enclosing with
  | Some (t, n) =>
      if n =? 1 then Normal (newNumber lib (linearLength lib t))
      else Normal (newNumber lib (getDimension lib t own_index))
  | None => Throw (SyntaxError end_message)
  end.

(** [this.nameTable['ans'] = { args: [], expr: v }] *)
Definition updateAns (v : node) (st : EvaluatorState) : EvaluatorState :=
  set_nameTable (<["ans" := {| args := []; expr := v |}]>) st.

(** The links case ['LIST'] gives the child at position [i], [done]
    being the results so far and [todo] the children not yet reduced,
    the child included. *)
Definition list_child_links (tree : node) (l : links) (i : nat) (done todo : list node)
    : links :=
  {| parent := PObj (LIST (done ++ replicate (length todo) Undefined)) None
                 (match parent l with PNull => PNull | _ => linked tree l end);
     index := Some i |}.


(** "Each argument is reduced in the caller's local context and bound
    into the frame keyed by the function name": the state [st'] reached
    from [st] by reducing the arguments [todo], the first of which has
    position [i], each with the local flag set under the caller's frame
    name, and by binding each result to the parameter of the same
    position in the frame registered under [name].  The reduction of an
    argument has to leave that frame as it was. *)
Inductive arguments_bound (Ev : Evaluator_t) (tree : node) (l : links) (fname name : string)
    : nat → list node → EvaluatorState → EvaluatorState → Prop :=
| bound_nil i st : arguments_bound Ev tree l fname name i [] st st
| bound_cons i a todo st st1 st' entry p f v :
    is_object a = true →
    nameTable st !! name = Some entry →
    args entry !! i = Some p →
    is_object p = true →
    localTable st !! name = Some f →
    reduce Ev a (arg_links tree l i) true fname st = (Normal v, st1) →
    localTable st1 !! name = Some f →
    arguments_bound Ev tree l fname name (S i) todo
      (set_localTable
         (<[name := {| frame_id := frame_id f;
                       vars := <[property_key (node_id p) := v]> (vars f) |}]>) st1)
      st' →
    arguments_bound Ev tree l fname name i (a :: todo) st st'.

(** The call of a user function as the specification words it: the
    arguments are reduced in the caller's context, the results are bound
    into a fresh frame keyed by the function name, the body is reduced
    under that frame, and the frame is discarded. *)
Definition spec_callFunction (lib : Library) (Ev : Evaluator_t) (tree : node) (l : links)
    (fname name : string) (entry : TNameTableEntry) (actual : list node) : M node :=
  if negb (length (args entry) =? length actual) then
    throw (EvalError ("invalid number of arguments in function " +:+ name +:+ "."))
  else
    let* values := mapiM (fun i a => reduce Ev a (arg_links tree l i) true fname) actual in
    do modify (fun st =>
         set_next_frame (S (next_frame st))
           (set_localTable
              (<[name := {| frame_id := next_frame st;
                            vars := list_to_map
                                      (zip (map (fun p => property_key (node_id p))
                                                (args entry)) values) |}]>) st)) in
    let* temp := reduce Ev (expr entry) (stale_links lib (expr entry)) true name in
    do modify (set_localTable (delete name)) in
    ret temp.

(** No local binding answers for [id]: the call is not local, or no
    frame is registered under [fname], or the frame holds no [id], its
    own or inherited. *)
Definition unbound_locally (st : EvaluatorState) (local : bool) (fname id : string) : Prop :=
  local = false
  ∨ ((fname ∉ inherited) ∧ localTable st !! fname = None)
  ∨ (∃ f, localTable st !! fname = Some f ∧ vars f !! id = None ∧ (id ∉ inherited)).

(** A target that [validateAssignment] accepts: a name or an indexed
    name that is not read-only, or the placeholder [~]. *)
Definition valid_target (st : EvaluatorState) (t : node) : Prop :=
  (∃ x, t = NAME x ∧ x ∉ readonlyNameTable st)
  ∨ (∃ x indices, t = ARG (NAME x) indices ∧ x ∉ readonlyNameTable st)
  ∨ t = NodeReserved "<~>".

(** * Properties *)

(** The state with the name table, the local table and the read-only
    list emptied. *)
Definition cleared (st : EvaluatorState) : EvaluatorState :=
  set_readonlyNameTable [] (set_localTable (fun _ => ∅) (set_nameTable (fun _ => ∅) st)).

(** The target [validateAssignment] makes of a valid element. *)
Definition target_of (t : node) : LeftHandSide :=
  match t with
  | NAME x => {| lhs_left := t; lhs_id := x; lhs_args := [] |}
  | ARG (NAME x) indices => {| lhs_left := NAME x; lhs_id := x; lhs_args := indices |}
  | _ => {| lhs_left := Null; lhs_id := "~"; lhs_args := [] |}
  end.


Section Claims.

Context (lib : Library).

(** ** The name table under [loadNativeTable], [Restart] and [Clear] *)

Lemma loadEntries_nameTable entries st :
  nameTable (foldl loadEntry st entries) = seed (nameTable st) entries.
Proof.
  revert st. induction entries as [|e entries IH]; intros st; [done|].
  simpl. by rewrite IH.
Qed.

Lemma loadEntries_readonly entries st :
  readonlyNameTable (foldl loadEntry st entries)
  = readonlyNameTable st ++ map fst entries.
Proof.
  revert st. induction entries as [|e entries IH]; intros st; simpl.
  - by rewrite app_nil_r.
  - rewrite IH. simpl. by rewrite <- app_assoc.
Qed.

Lemma seed_is_Some entries t id :
  is_Some (t !! id) ∨ id ∈ map fst entries → is_Some (seed t entries !! id).
Proof.
  revert t. induction entries as [|e entries IH]; intros t [H|H]; simpl.
  - done.
  - by apply elem_of_nil in H.
  - apply IH. left. destruct (decide (e.1 = id)) as [->|Hne].
    + rewrite lookup_insert_eq. eauto.
    + by rewrite lookup_insert_ne.
  - apply IH. simpl in H. apply elem_of_cons in H as [->|H].
    + left. rewrite lookup_insert_eq. eauto.
    + by right.
Qed.

Lemma loadNativeTable_nameTable st :
  nameTable (loadNativeTable lib st)
  = seed (seed (nameTable st) (nativeNameTable lib)) (constantsTable lib).
Proof.
  unfold loadNativeTable. by rewrite !loadEntries_nameTable.
Qed.

Lemma loadNativeTable_readonly st :
  readonlyNameTable (loadNativeTable lib st)
  = (readonlyNameTable st ++ map fst (nativeNameTable lib)) ++ map fst (constantsTable lib).
Proof.
  unfold loadNativeTable. by rewrite !loadEntries_readonly.
Qed.

Lemma Restart_nameTable st :
  nameTable (Restart lib st) = nameTable (loadNativeTable lib fields).
Proof.
  unfold Restart. by rewrite !loadNativeTable_nameTable.
Qed.

Lemma Restart_readonly st :
  readonlyNameTable (Restart lib st) = readonlyNameTable (loadNativeTable lib fields).
Proof.
  unfold Restart. by rewrite !loadNativeTable_readonly.
Qed.

Lemma seeded_name_bound id :
  id ∈ readonlyNameTable (loadNativeTable lib fields) →
  is_Some (nameTable (loadNativeTable lib fields) !! id).
Proof.
  rewrite loadNativeTable_readonly, loadNativeTable_nameTable.
  intros [H|H]%elem_of_app; apply seed_is_Some.
  - left. apply seed_is_Some. right.
    apply elem_of_app in H as [H|H]; [by apply elem_of_nil in H|done].
  - by right.
Qed.

Lemma clearName_readonly st name :
  readonlyNameTable (clearName st name) = readonlyNameTable st.
Proof. unfold clearName. by case_bool_decide. Qed.

Lemma clearNames_readonly names st :
  readonlyNameTable (foldl clearName st names) = readonlyNameTable st.
Proof.
  revert st. induction names as [|n names IH]; intros st; [done|].
  simpl. by rewrite IH, clearName_readonly.
Qed.

Lemma clearNames_lookup names st k :
  nameTable (foldl clearName st names) !! k
  = if bool_decide (k ∈ names ∧ k ∉ readonlyNameTable st) then None
    else nameTable st !! k.
Proof.
  revert st. induction names as [|n names IH]; intros st.
  - case_bool_decide as H; [|done]. destruct H as [H _]. by apply elem_of_nil in H.
  - cbn [foldl]. rewrite IH, clearName_readonly.
    destruct (decide (k ∈ n :: names ∧ k ∉ readonlyNameTable st)) as [[Hin Hro]|Hnot].
    + rewrite (bool_decide_eq_true_2 (k ∈ n :: names ∧ _)); [|done].
      case_bool_decide as Hk; [done|].
      apply elem_of_cons in Hin as [->|Hin]; [|naive_solver].
      unfold clearName. rewrite bool_decide_eq_false_2; [|done].
      apply lookup_delete_eq.
    + rewrite (bool_decide_eq_false_2 (k ∈ n :: names ∧ _)); [|done].
      rewrite bool_decide_eq_false_2.
      2:{ intros [Hin Hro]. apply Hnot. split; [by apply elem_of_cons; right|done]. }
      unfold clearName. case_bool_decide as Hn; [done|].
      apply lookup_delete_ne. intros ->. apply Hnot.
      split; [by apply elem_of_cons; left|done].
Qed.

Lemma Clear_names names st :
  names ≠ [] → Clear lib names st = foldl clearName st names.
Proof. unfold Clear. by destruct names. Qed.


(** ** Dispatch *)

(** How [Evaluator] with fuel left reaches each case. *)

Lemma Evaluator_assignment_case fuel type left right l local fname :
  type ∈ assignment_types →
  Evaluator lib (S fuel) (BinaryOperation type left right) l local fname
  = Evaluator_assignment lib (Evaluator lib fuel)
      (BinaryOperation type left right) l local fname type.
Proof.
  unfold assignment_types. intros H.
  repeat (apply elem_of_cons in H as [->|H]; [reflexivity|]).
  by apply elem_of_nil in H.
Qed.


Lemma Evaluator_LIST_case fuel list l local fname :
  Evaluator lib (S fuel) (LIST list) l local fname
  = Evaluator_LIST (Evaluator lib fuel) (LIST list) l local fname.
Proof. reflexivity. Qed.

Lemma Evaluator_ARG_case fuel callee actual l local fname :
  Evaluator lib (S fuel) (ARG callee actual) l local fname
  = Evaluator_ARG lib (Evaluator lib fuel) (ARG callee actual) l local fname.
Proof. reflexivity. Qed.

Lemma Evaluator_ENDRANGE_case fuel l local fname :
  Evaluator lib (S fuel) (NodeReserved "ENDRANGE") l local fname = Evaluator_ENDRANGE lib l.
Proof. reflexivity. Qed.

Lemma Evaluator_colon_case fuel l local fname :
  Evaluator lib (S fuel) (NodeReserved ":") l local fname = Evaluator_colon lib l.
Proof. reflexivity. Qed.

(** ** Read-only names *)

Lemma validateAssignment_readonly target id st :
  (target = NAME id ∨ ∃ indices, target = ARG (NAME id) indices) →
  id ∈ readonlyNameTable st →
  validateAssignment target true st
  = (Throw (EvalError (invalidMessage +:+ " " +:+ id +:+ ".")), st).
Proof.
  intros [->|[indices ->]] Hro; unfold validateAssignment, validateAssignment_body;
    cbn; unfold bind, get; cbn; by rewrite (bool_decide_eq_true_2 _ Hro).
Qed.

Lemma validateElement_valid st t :
  valid_target st t → ∃ r, validateElement t st = (Normal r, st).
Proof.
  intros [(x & -> & Hx)|[(x & indices & -> & Hx)| ->]];
    unfold validateElement, validateAssignment_body; cbn; unfold bind, get; cbn;
    rewrite ?(bool_decide_eq_false_2 _ Hx); eauto.
Qed.

Lemma validateElement_readonly st target id :
  (target = NAME id ∨ ∃ indices, target = ARG (NAME id) indices) →
  id ∈ readonlyNameTable st →
  validateElement target st
  = (Throw (EvalError (invalidMessage +:+ " " +:+ id +:+ ".")), st).
Proof.
  intros [->|[indices ->]] Hro; unfold validateElement, validateAssignment_body;
    cbn; unfold bind, get; cbn; by rewrite (bool_decide_eq_true_2 _ Hro).
Qed.

Lemma validateElements_readonly st before target after id :
  Forall (valid_target st) before →
  (target = NAME id ∨ ∃ indices, target = ARG (NAME id) indices) →
  id ∈ readonlyNameTable st →
  mapM validateElement (before ++ target :: after) st
  = (Throw (EvalError (invalidMessage +:+ " " +:+ id +:+ ".")), st).
Proof.
  intros Hbefore Htarget Hro.
  induction Hbefore as [|t before Ht _ IH]; cbn [app mapM]; unfold bind at 1.
  - by rewrite (validateElement_readonly _ _ _ Htarget Hro).
  - destruct (validateElement_valid _ _ Ht) as [r ->]. unfold bind at 1. by rewrite IH.
Qed.

(** C4.  An assignment whose target is a read-only name, be the target
    plain, indexed, or one of the targets of a multiple assignment,
    throws an [EvalError] and leaves the whole interpreter state as it
    was; [Clear] with names leaves the binding and the read-only list
    as they were, and after [Clear] without names a name of the seeded
    list is read-only and bound to its initial value. *)
Theorem readonly_protected (fuel : nat) (type id : string) (target rhs : node)
    (l : links) (local : bool) (fname : string) (st : EvaluatorState) :
  type ∈ assignment_types →
  (target = NAME id ∨ ∃ indices, target = ARG (NAME id) indices) →
  is_object rhs = true →
  id ∈ readonlyNameTable st →
  let failure := (Throw (EvalError (invalidMessage +:+ " " +:+ id +:+ ".")), st) in
  Evaluator lib (S fuel) (BinaryOperation type target rhs) l local fname st = failure
  ∧ (∀ dims before after rows class,
       Forall (valid_target st) before →
       Evaluator lib (S fuel)
         (BinaryOperation type
            (VTensor (MultiArray.mk (1 :: dims) ((before ++ target :: after) :: rows) class))
            rhs) l local fname st
       = failure)
  ∧ (∀ names, names ≠ [] →
       nameTable (Clear lib names st) !! id = nameTable st !! id
       ∧ readonlyNameTable (Clear lib names st) = readonlyNameTable st)
  ∧ (id ∈ readonlyNameTable (loadNativeTable lib fields) →
       id ∈ readonlyNameTable (Clear lib [] st)
       ∧ is_Some (nameTable (Clear lib [] st) !! id)
       ∧ nameTable (Clear lib [] st) !! id = nameTable (loadNativeTable lib fields) !! id).
Proof.
  intros Htype Htarget Hrhs Hro failure. split; [|split; [|split]].
  - rewrite (Evaluator_assignment_case _ _ _ _ _ _ _ Htype).
    unfold Evaluator_assignment. cbn [node_left node_right].
    assert (is_object target = true) as Hobj by (by destruct Htarget as [->|[? ->]]).
    unfold check_object. rewrite Hobj, Hrhs. unfold bind at 1. cbn.
    unfold bind at 1. cbn. unfold bind at 1.
    by rewrite (validateAssignment_readonly _ _ _ Htarget Hro).
  - intros dims before after rows class Hbefore.
    rewrite (Evaluator_assignment_case _ _ _ _ _ _ _ Htype).
    unfold Evaluator_assignment. cbn [node_left node_right].
    unfold check_object. rewrite Hrhs. cbn [is_object]. unfold bind at 1. cbn [ret].
    unfold bind at 1. cbn [ret]. unfold bind at 1.
    unfold validateAssignment, validateAssignment_body. cbn.
    unfold bind at 1. cbn. unfold bind at 1, get.
    rewrite bool_decide_eq_true_2 by done.
    by rewrite (validateElements_readonly _ _ _ _ _ Hbefore Htarget Hro).
  - intros names Hne. rewrite (Clear_names _ _ Hne), clearNames_lookup, clearNames_readonly.
    split; [|done]. rewrite bool_decide_eq_false_2; [done|]. by intros [_ Hn].
  - intros Hseed. change (Clear lib [] st) with (Restart lib st).
    rewrite Restart_readonly, Restart_nameTable.
    split; [done|]. split; [by apply seeded_name_bound|done].
Qed.

(** ** The renderers *)

(** Induction on a node with its nested lists. *)
Section node_induction.

Context (P : node → Prop).
Context (HUndefined : P Undefined) (HNull : P Null).
Context (HNumber : ∀ n, P (VNumber n)) (HString : ∀ s, P (VString s)).
Context (HTensor : ∀ d a t, Forall (Forall P) a → P (VTensor (MultiArray.mk d a t))).
Context (HReserved : ∀ type, P (NodeReserved type)) (HNAME : ∀ id, P (NAME id)).
Context (HCmdWList : ∀ id a, Forall P a → P (CmdWList id a)).
Context (HARG : ∀ e a, P e → Forall P a → P (ARG e a)).
Context (HRANGE : ∀ a b c, P a → P b → P c → P (RANGE a b c)).
Context (HBinary : ∀ type a b, P a → P b → P (BinaryOperation type a b)).
Context (HUnaryR : ∀ type a, P a → P (UnaryOperationR type a)).
Context (HUnaryL : ∀ type a, P a → P (UnaryOperationL type a)).
Context (HLIST : ∀ l, Forall P l → P (LIST l)).
Context (HRETLIST : ∀ selector, P (RETLIST selector)).

Fixpoint node_nested_ind (tree : node) : P tree :=
  let all :=
    fix all (l : list node) : Forall P l :=
      match l with
      | [] => @List.Forall_nil node P
      | x :: l' => @List.Forall_cons node P x l' (node_nested_ind x) (all l')
      end in
  match tree with
  | Undefined => HUndefined
  | Null => HNull
  | VNumber n => HNumber n
  | VString s => HString s
  | VTensor (MultiArray.mk d a t) =>
      HTensor d a t
        ((fix rows (a : list (list node)) : Forall (Forall P) a :=
            match a with
            | [] => @List.Forall_nil (list node) (Forall P)
            | r :: a' => @List.Forall_cons (list node) (Forall P) r a' (all r) (rows a')
            end) a)
  | NodeReserved type => HReserved type
  | NAME id => HNAME id
  | CmdWList id a => HCmdWList id a (all a)
  | ARG e a => HARG e a (node_nested_ind e) (all a)
  | RANGE a b c => HRANGE a b c (node_nested_ind a) (node_nested_ind b) (node_nested_ind c)
  | BinaryOperation type a b => HBinary type a b (node_nested_ind a) (node_nested_ind b)
  | UnaryOperationR type a => HUnaryR type a (node_nested_ind a)
  | UnaryOperationL type a => HUnaryL type a (node_nested_ind a)
  | LIST l => HLIST l (all l)
  | RETLIST selector => HRETLIST selector
  end.

End node_induction.

Lemma catch_placeholder_no_throw placeholder body e :
  catch_placeholder placeholder body ≠ Throw e.
Proof. by destruct body. Qed.

Lemma catch_debug_no_throw body e : catch_debug false body ≠ Throw e.
Proof. by destruct body. Qed.

Lemma Unparse_catches tree :
  ∃ body, Unparse lib tree = catch_placeholder "<ERROR>" body.
Proof. destruct tree as [| | | |[]| | | | | | | | | |]; eexists; reflexivity. Qed.

Lemma unparserML_catches st tree :
  ∃ body, unparserML lib st tree = catch_debug (debug st) body.
Proof. destruct tree as [| | | |[]| | | | | | | | | |]; eexists; reflexivity. Qed.

Lemma Unparse_try_eq tree :
  Unparse lib tree = catch_placeholder "<ERROR>" (Unparse_try lib (Unparse lib) tree).
Proof. destruct tree as [| | | |[]| | | | | | | | | |]; reflexivity. Qed.

Lemma unparserML_try_eq st tree :
  unparserML lib st tree
  = catch_debug (debug st) (unparserML_try lib st (unparserML lib st) tree).
Proof. destruct tree as [| | | |[]| | | | | | | | | |]; reflexivity. Qed.

Lemma cbind_returns {A B} (c : completion A) (k : A → completion B) :
  returns c → (∀ a, returns (k a)) → returns (cbind c k).
Proof. intros Hc Hk. destruct c; simpl; [apply Hk|done|by destruct Hc]. Qed.

Lemma Normal_returns {A} (a : A) : returns (Normal a).
Proof. done. Qed.

Lemma Throw_returns {A} e : returns (@Throw A e).
Proof. done. Qed.

Lemma cappend_returns a b : returns a → returns b → returns (cappend a b).
Proof.
  intros Ha Hb. apply cbind_returns; [done|]. intros x.
  apply cbind_returns; [done|]. intros y. apply Normal_returns.
Qed.

Lemma csequence_returns {A} (l : list (completion A)) :
  Forall returns l → returns (csequence l).
Proof.
  induction 1 as [|c l Hc Hl IH]; [done|]. simpl.
  apply cbind_returns; [done|]. intros x.
  apply cbind_returns; [done|]. intros xs. apply Normal_returns.
Qed.

Lemma cjoin_returns sep l : Forall returns l → returns (cjoin sep l).
Proof.
  intros Hl. apply cbind_returns; [by apply csequence_returns|].
  intros xs. apply Normal_returns.
Qed.

Lemma cconcat_returns l : Forall returns l → returns (cconcat l).
Proof.
  induction 1 as [|c l Hc Hl IH]; [done|]. simpl. by apply cappend_returns.
Qed.

Lemma required_returns {A} (o : option A) property : returns (required o property).
Proof. by destruct o. Qed.

Local Ltac returns_step :=
  first
    [ apply Normal_returns
    | apply Throw_returns
    | apply required_returns
    | assumption
    | apply cappend_returns
    | apply cjoin_returns
    | apply cconcat_returns
    | apply cbind_returns; [|intros ?]
    | apply Forall_cons; split
    | apply Forall_nil ].

Lemma Unparse_switch_returns type r :
  rendered_returns r → returns (Unparse_switch type r).
Proof.
  intros (Hl & Hr & He & Hlist & Hargs & Hstart & Hstop & Hstride).
  unfold Unparse_switch.
  repeat case_bool_decide; try (solve [repeat returns_step; eauto]);
    destruct (r_list r) as [list|]; destruct (r_args r) as [arguments|];
    destruct (r_start r) as [start|]; destruct (r_stop r) as [stop|];
    destruct (r_stride r) as [stride|];
    simpl; repeat returns_step; eauto.
Qed.

Lemma catch_placeholder_returns placeholder body :
  returns body → returns (catch_placeholder placeholder body).
Proof. by destruct body. Qed.

Lemma catch_debug_returns debug body :
  returns body → returns (catch_debug debug body).
Proof. destruct body, debug; done. Qed.

Lemma render_with_returns (U : node → completion string) u tree :
  returns u →
  match tree with
  | CmdWList _ a | LIST a => Forall (λ x, returns (U x)) a
  | ARG e a => returns (U e) ∧ Forall (λ x, returns (U x)) a
  | RANGE a b c => returns (U a) ∧ returns (U b) ∧ returns (U c)
  | BinaryOperation _ a b => returns (U a) ∧ returns (U b)
  | UnaryOperationR _ a | UnaryOperationL _ a => returns (U a)
  | _ => True
  end →
  rendered_returns (render_with U u tree).
Proof.
  intros Hu H. unfold rendered_returns, render_with.
  destruct tree; simpl; repeat split; try done; try tauto;
    try (intros ? [= <-]; apply Forall_fmap; first [done | tauto]);
    try (intros c Hc; repeat case_match; simplify_eq; tauto).
Qed.

Lemma render_elements_returns (U : node → completion string) (a : list (list node)) :
  Forall (Forall (λ x, returns (U x))) a →
  Forall (Forall (λ x : node * completion string, returns x.2))
         (map (map (λ x, (x, U x))) a).
Proof.
  intros H. apply Forall_fmap. eapply Forall_impl; [exact H|].
  intros row Hrow. simpl. apply Forall_fmap. eapply Forall_impl; [exact Hrow|done].
Qed.

Lemma Unparse_returns tree :
  renderers_return lib → returns (Unparse lib tree).
Proof.
  intros (Hn & Hs & Ht & _).
  induction tree using node_nested_ind; cbn [Unparse];
    apply catch_placeholder_returns; try done;
    try (apply Unparse_switch_returns; apply render_with_returns; done).
  - apply Ht. simpl. by apply render_elements_returns.
Qed.

Lemma nth_returns {A} (a : list (completion A)) (u : completion A) i :
  Forall returns a → returns u → returns (nth i a u).
Proof.
  intros Ha Hu. revert i. induction Ha as [|c a Hc Ha IH]; intros [|i]; simpl; auto.
Qed.

Lemma unparserML_switch_returns st type tree r :
  renderers_return lib → templates_return st →
  rendered_returns r → returns (unparserML_switch lib st type tree r).
Proof.
  intros (_ & _ & _ & _ & _ & _ & Hsymbol) Htemplates.
  intros (Hl & Hr & He & Hlist & Hargs & Hstart & Hstop & Hstride).
  assert (∀ id, returns (mi_symbol lib id)) as Hmi.
  { intros id. unfold mi_symbol. repeat returns_step; eauto. }
  unfold unparserML_switch, mo.
  repeat case_bool_decide; try (solve [repeat returns_step; eauto]).
  - (* LIST *)
    destruct (r_list r) as [list|]; simpl; [|done].
    repeat returns_step; eauto.
    apply Forall_fmap. eapply Forall_impl; [by apply Hlist|].
    intros c Hc. simpl. repeat returns_step; eauto.
  - (* RANGE *)
    destruct (r_start r) as [start|]; destruct (r_stop r) as [stop|];
      destruct (r_stride r) as [stride|]; repeat returns_step; eauto.
  - (* ARG *)
    destruct (r_args r) as [arguments|]; simpl; [|done].
    specialize (Hargs _ eq_refl).
    case_match; repeat returns_step; eauto.
    case_match; [|repeat returns_step; eauto].
    destruct (baseFunctionTable st !! _) as [[? ? ? [template|]]|] eqn:Hentry;
      [|repeat returns_step; eauto..].
    eapply Htemplates; [exact Hentry|done|].
    intros i. by apply nth_returns.
  - (* CmdWList *)
    destruct (r_args r) as [arguments|]; simpl; [|done].
    repeat returns_step; eauto.
Qed.

Lemma unparserML_returns st tree :
  renderers_return lib → templates_return st → returns (unparserML lib st tree).
Proof.
  intros Hlib Htemplates. pose proof Hlib as (_ & _ & _ & Hn & Hs & Ht & _).
  induction tree using node_nested_ind; cbn [unparserML];
    apply catch_debug_returns; try done;
    try (apply unparserML_switch_returns; [done|done|]; apply render_with_returns; done).
  - apply Ht. simpl. by apply render_elements_returns.
Qed.

(** C7.  [Unparse] never throws, and [unparserML] never throws while
    the debug flag is off.  A rendering that comes back is returned as
    it is; when the body of the [try] throws, [Unparse] returns
    ["<ERROR>"], and [unparserML] returns ["<mi>error</mi>"] while the
    debug flag is off and throws the same error again when it is on.
    The tree [null] makes both bodies throw.  When the renderers of the
    library and the templates of the function table come back, both
    return a string. *)
Theorem unparsers_recover (st : EvaluatorState) (tree : node) :
  let body := Unparse_try lib (Unparse lib) tree in
  let bodyML := unparserML_try lib st (unparserML lib st) tree in
  (∀ e, Unparse lib tree ≠ Throw e)
  ∧ (debug st = false → ∀ e, unparserML lib st tree ≠ Throw e)
  ∧ (renderers_return lib → ∃ text, Unparse lib tree = Normal text)
  ∧ (renderers_return lib → templates_return st → debug st = false →
     ∃ text, unparserML lib st tree = Normal text)
  ∧ (debug st = true →
     unparserML lib st Null
     = Throw (TypeError "Cannot read properties of null (reading 'type')"))
  ∧ (∀ e, body = Throw e → Unparse lib tree = Normal "<ERROR>")
  ∧ (∀ text, body = Normal text → Unparse lib tree = Normal text)
  ∧ (∀ e, bodyML = Throw e →
          unparserML lib st tree
          = if debug st then Throw e else Normal "<mi>error</mi>")
  ∧ (∀ text, bodyML = Normal text → unparserML lib st tree = Normal text)
  ∧ Unparse lib Null = Normal "<ERROR>"
  ∧ (debug st = false → unparserML lib st Null = Normal "<mi>error</mi>").
Proof.
  intros body bodyML.
  assert (∀ e, Unparse lib tree ≠ Throw e) as HU.
  { intros e. destruct (Unparse_catches tree) as [b ->].
    apply catch_placeholder_no_throw. }
  assert (debug st = false → ∀ e, unparserML lib st tree ≠ Throw e) as HML.
  { intros Hdebug e. destruct (unparserML_catches st tree) as [b ->].
    rewrite Hdebug. apply catch_debug_no_throw. }
  split; [done|]. split; [done|]. split; [|split; [|split]].
  - intros Hlib. pose proof (Unparse_returns tree Hlib) as Hret.
    destruct (Unparse lib tree) as [text|e|]; [by eexists|by destruct (HU e)|done].
  - intros Hlib Htemplates Hdebug.
    pose proof (unparserML_returns st tree Hlib Htemplates) as Hret.
    destruct (unparserML lib st tree) as [text|e|] eqn:E;
      [by eexists|by destruct (HML Hdebug e)|done].
  - intros Hdebug. simpl. by rewrite Hdebug.
  - rewrite (Unparse_try_eq tree), (unparserML_try_eq st tree).
    fold body bodyML.
    repeat split; try (by intros ? ->).
    intros Hdebug. simpl. by rewrite Hdebug.
Qed.

(** ** Increment and decrement *)

Lemma has_type_NAME id : has_type (NAME id) "NAME" = true.
Proof. reflexivity. Qed.

Lemma Evaluator_incDec_case fuel pre operation operand l local fname :
  operation ∈ ["plus"; "minus"] →
  Evaluator lib (S fuel) (incDecNode pre operation operand) l local fname
  = (do check_object operand (if pre then "tree.right" else "tree.left") in
     incDecOp lib pre operation operand).
Proof.
  intros Hop.
  apply elem_of_cons in Hop as [->|Hop]; [by destruct pre|].
  apply elem_of_cons in Hop as [->|Hop]; [by destruct pre|].
  by apply elem_of_nil in Hop.
Qed.

(** C10.  On a name bound in the name table, the prefix operators store
    the sum (or difference) of the stored value and one and return the
    value they stored; the postfix operators return a copy of the stored
    value taken before the store, and store the same sum (or
    difference).  On an operand that is not a NAME node all four throw
    a [SyntaxError]. *)
Theorem increment_decrement (fuel : nat) (operation : string) (l : links)
    (local : bool) (fname : string) (st : EvaluatorState) :
  operation ∈ ["plus"; "minus"] →
  let one := VNumber (ComplexDecimal_static lib "one") in
  (∀ id entry v,
     nameTable st !! id = Some entry →
     is_object (expr entry) = true →
     Tensor lib operation [expr entry; one] = Normal v →
     Evaluator lib (S fuel) (incDecNode true operation (NAME id)) l local fname st
     = (Normal v, storeExpr id entry v st))
  ∧ (∀ id entry value v,
       nameTable st !! id = Some entry →
       is_object (expr entry) = true →
       Tensor lib "copy" [expr entry] = Normal value →
       Tensor lib operation [expr entry; one] = Normal v →
       Evaluator lib (S fuel) (incDecNode false operation (NAME id)) l local fname st
       = (Normal value, storeExpr id entry v st))
  ∧ (∀ pre operand,
       is_object operand = true →
       has_type operand "NAME" = false →
       Evaluator lib (S fuel) (incDecNode pre operation operand) l local fname st
       = (Throw (SyntaxError ("invalid " +:+
                   (if bool_decide (operation = "plus") then "increment" else "decrement")
                   +:+ " variable.")), st)).
Proof.
  intros Hop one. pose proof (Evaluator_incDec_case fuel) as Hcase.
  split; [|split].
  - intros id entry v Hid Hobj Hv. rewrite (Hcase true) by done.
    unfold incDecOp. rewrite has_type_NAME.
    unfold bind, check_object, get, lift, modify, ret. simpl.
    rewrite Hid, Hobj. fold one. by rewrite Hv.
  - intros id entry value v Hid Hobj Hvalue Hv. rewrite (Hcase false) by done.
    unfold incDecOp. rewrite has_type_NAME.
    unfold bind, check_object, get, lift, modify, ret. simpl.
    rewrite Hid, Hobj, Hvalue. fold one. by rewrite Hv.
  - intros pre operand Hobj Hname. rewrite Hcase by done.
    unfold incDecOp, bind, check_object, throw. by rewrite Hobj, Hname.
Qed.

(** ** Names *)

Lemma unbound_locally_binding st local fname id :
  unbound_locally st local fname id → local_binding st local fname id = None.
Proof.
  unfold local_binding. intros [->|[[_ ->]|(f & -> & Hid & _)]]; [done| |by destruct local].
  by destruct local.
Qed.



(** ** Lists *)

Lemma type_is_number_spec v :
  type_is_number v = true
  ↔ (∃ n, v = VNumber n) ∨ (∃ m, v = VTensor m)
    ∨ (∃ s k, v = VString s ∧ CharString.type s = TNumber k).
Proof.
  unfold type_is_number. split.
  - destruct v as [| |n|s|m| | | | | | | | | |]; simpl; try done; eauto.
    destruct (CharString.type s) eqn:E; try done. eauto 10.
  - intros [[n ->]|[[m ->]|(s & k & -> & Hs)]]; simpl; [done|done|by rewrite Hs].
Qed.

(** C8.  Case ['LIST'] reduces the children from left to
    right, each in the state the previous one left.  After a child whose
    reduced result has a number as its [type] property (a
    [ComplexDecimal], but a [MultiArray] as well) the entry [ans] of the
    name table is set to that result; after any other child the state is
    the one the child left; a child that throws ends the loop. *)
Theorem LIST_updates_ans (fuel : nat) (tree : node) (l : links) (local : bool)
    (fname : string) :
  let Ev := Evaluator lib fuel in
  (∀ list st,
     Evaluator lib (S fuel) (LIST list) l local fname st
     = match Evaluator_LIST_loop Ev (LIST list) l local fname 0 [] list st with
       | (Normal results, st') => (Normal (LIST results), st')
       | (Throw e, st') => (Throw e, st')
       | (Diverge, st') => (Diverge, st')
       end)
  ∧ (∀ i done st,
       Evaluator_LIST_loop Ev tree l local fname i done [] st = (Normal done, st))
  ∧ (∀ i done child todo st,
       is_object child = true →
       Evaluator_LIST_loop Ev tree l local fname i done (child :: todo) st
       = match reduce Ev (wordListCommand st local fname child)
                 (list_child_links tree l i done (child :: todo)) local fname st with
         | (Normal v, st1) =>
             Evaluator_LIST_loop Ev tree l local fname (S i) (done ++ [v]) todo
               (if type_is_number v then updateAns v st1 else st1)
         | (Throw e, st1) => (Throw e, st1)
         | (Diverge, st1) => (Diverge, st1)
         end)
  ∧ (∀ v, type_is_number v = true
          ↔ (∃ n, v = VNumber n) ∨ (∃ m, v = VTensor m)
            ∨ (∃ s k, v = VString s ∧ CharString.type s = TNumber k)).
Proof.
  intros Ev. split; [|split; [|split]].
  - intros list st. rewrite Evaluator_LIST_case. unfold Evaluator_LIST, bind.
    fold Ev. by destruct (Evaluator_LIST_loop _ _ _ _ _ _ _ _ _) as [[]].
  - done.
  - intros i done child todo st Hobj. cbn [Evaluator_LIST_loop].
    unfold check_object. rewrite Hobj. unfold bind at 1. cbn [ret].
    unfold bind at 1, get. unfold bind at 1. unfold list_child_links.
    destruct (reduce _ _ _ _ _ _) as [[v|e|] st1]; [|done|done].
    unfold bind. by destruct (type_is_number v).
  - apply type_is_number_spec.
Qed.

(** ** Assignment *)

Lemma validateAssignment_NAME id st :
  id ∉ readonlyNameTable st →
  validateAssignment (NAME id) true st
  = (Normal [ {| lhs_left := NAME id; lhs_id := id; lhs_args := [] |} ], st).
Proof.
  intros Hro. unfold validateAssignment, validateAssignment_body. cbn.
  unfold bind, get. cbn. by rewrite (bool_decide_eq_false_2 _ Hro).
Qed.


(** An assignment with one target, up to the turn of the loop. *)
Lemma assignment_single fuel type left rhs target l local fname st r0 st1 :
  let tree := BinaryOperation type left rhs in
  let op := String.substring 0 (String.length type - 1) type in
  let right := match r0 with Normal v => v | _ => rhs end in
  let wrapped := negb (has_type right "RETLIST") in
  let selector := if wrapped then wrapRight rhs else selector_of right in
  type ∈ assignment_types →
  is_object left = true →
  is_object rhs = true →
  validateAssignment left true st = (Normal [target], st) →
  Evaluator lib fuel rhs (child_links lib tree l rhs) false fname st = (r0, st1) →
  r0 ≠ Diverge →
  is_object right = true →
  Evaluator lib (S fuel) tree l local fname st
  = (let* r := assignTarget lib (Evaluator lib fuel) tree l local fname op selector
                 wrapped 1 0 target in
     match r with
     | Some (x, is_tree) => assignmentResult l [x] is_tree
     | None => assignmentResult l [] false
     end) st1.
Proof.
  intros tree op right wrapped selector Htype Hleft Hrhs Hvalid HEv Hr0 Hright.
  unfold tree. rewrite (Evaluator_assignment_case _ _ _ _ _ _ _ Htype).
  unfold Evaluator_assignment. cbn [node_left node_right].
  unfold check_object. rewrite Hleft, Hrhs.
  unfold bind at 1. cbn [ret]. unfold bind at 1. cbn [ret].
  unfold bind at 1. rewrite Hvalid. cbn [length Nat.ltb Nat.leb andb].
  unfold bind at 1, try_catch. fold tree. rewrite HEv.
  assert ((match r0 with
           | Normal a => (Normal a, st1)
           | Throw _ => ret rhs st1
           | Diverge => (Diverge, st1)
           end) = (Normal right, st1)) as ->.
  { subst right. by destruct r0. }
  rewrite Hright. unfold bind at 1. cbn [ret].
  fold op. fold wrapped. fold selector. cbn [assignTargets].
  unfold bind.
  destruct (assignTarget _ _ _ _ _ _ _ _ _ _ _ _ _) as [[[[x is_tree]|]|e|] st2]; done.
Qed.

Lemma assignedExpr_shape type left rightN :
  type ∈ assignment_types →
  let op := String.substring 0 (String.length type - 1) type in
  (type = "=" → assignedExpr op left rightN = rightN)
  ∧ (type ≠ "=" → assignedExpr op left rightN = BinaryOperation op left rightN).
Proof.
  unfold assignment_types. intros H.
  repeat (apply elem_of_cons in H as [->|H]; [by split|]).
  by apply elem_of_nil in H.
Qed.

(** C3.  In an assignment to a plain name, when the
    evaluation of the expression to store throws, the entry of the
    target is stored with that expression unevaluated and the error is
    thrown again.  The expression is the right-hand side for [=] (the
    element selected from the return list when the right-hand side first
    reduced to one), and the operation [name op right-hand side] for a
    computed assignment [op=]. *)
Theorem failed_assignment_stores_expression (fuel : nat) (type id : string)
    (rhs : node) (l : links) (local : bool) (fname : string)
    (st st1 st2 : EvaluatorState) (r0 : completion node) (rightN : node) (e : error) :
  let tree := BinaryOperation type (NAME id) rhs in
  let op := String.substring 0 (String.length type - 1) type in
  let right := match r0 with Normal v => v | _ => rhs end in
  let wrapped := negb (has_type right "RETLIST") in
  let selector := if wrapped then wrapRight rhs else selector_of right in
  let expr := assignedExpr op (NAME id) rightN in
  type ∈ assignment_types →
  id ∉ readonlyNameTable st →
  is_object rhs = true →
  Evaluator lib fuel rhs (child_links lib tree l rhs) false fname st = (r0, st1) →
  r0 ≠ Diverge →
  is_object right = true →
  selector 1 0 = Normal rightN →
  is_object rightN = true →
  reduce (Evaluator lib fuel) expr (assignedLinks lib tree l op wrapped rightN)
    false empty st1 = (Throw e, st2) →
  Evaluator lib (S fuel) tree l local fname st
  = (Throw e, set_nameTable (<[id := {| args := []; expr := expr |}]>) st2)
  ∧ (wrapped = true → rightN = rhs)
  ∧ (type = "=" → expr = rightN)
  ∧ (type ≠ "=" → expr = BinaryOperation op (NAME id) rightN).
Proof.
  intros tree op right wrapped selector expr Htype Hro Hrhs HEv Hr0 Hright Hsel HrightN Hfail.
  split; [|split; [|apply (assignedExpr_shape _ _ _ Htype)]].
  - unfold tree.
    rewrite (assignment_single fuel type (NAME id) rhs _ l local fname st r0 st1
               Htype eq_refl Hrhs (validateAssignment_NAME id st Hro) HEv Hr0 Hright).
    fold tree op right wrapped selector.
    unfold bind at 1, assignTarget. cbn [lhs_left lhs_id lhs_args is_object length Nat.eqb].
    unfold bind at 1, assignName. unfold bind at 1, lift. rewrite Hsel.
    unfold bind at 1, check_object. rewrite HrightN. cbn [ret].
    unfold try_catch, bind at 1. fold expr. rewrite Hfail. by cbn.
  - intros Hw. subst selector. rewrite Hw in Hsel. by injection Hsel.
Qed.






(** ** Calls of user functions *)

Lemma bindArguments_bound Ev tree l fname name i todo st st' :
  arguments_bound Ev tree l fname name i todo st st' →
  bindArguments Ev tree l fname name i todo st = (Normal tt, st').
Proof.
  induction 1 as [|i a todo st st1 st' entry p f v Ha Hentry Hp Hobj Hf Hv Hf1 _ IH]; [done|].
  cbn [bindArguments]. unfold check_object. rewrite Ha.
  unfold bind at 1. cbn [ret]. unfold bind at 1, get. rewrite Hentry, Hp, Hf.
  unfold bind at 1. unfold bind at 1. rewrite Hobj. cbn [ret].
  unfold bind at 1. rewrite Hv.
  unfold bind at 1, modify, writeFrame. rewrite <- IH. f_equal.
  unfold set_localTable. cbn. rewrite Hf1, Nat.eqb_refl. done.
Qed.

(** C5.  A call of a user function throws the arity error
    unless it has as many arguments as the function has parameters.
    Otherwise a fresh frame is registered under the function name; each
    argument is reduced with the local flag set under the frame name of
    the caller, and its result is bound into that frame; the body is
    reduced under the name of the function, and the frame is deleted
    when the body returns.  This holds provided the reduction of an
    argument leaves the frame registered under the function name as it
    was, which a nested call of the same function does not.  The name
    is one that no built-in function answers to, by itself or by a key
    the function table inherits, and that no local binding hides. *)
Theorem user_function_call (fuel : nat) (name : string) (actual : list node)
    (l : links) (local : bool) (fname : string) (st : EvaluatorState)
    (entry : TNameTableEntry) :
  let tree := ARG (NAME name) actual in
  let Ev := Evaluator lib fuel in
  baseFunctionTable st !! aliasName st name = None →
  aliasName st name ∉ inherited →
  unbound_locally st local fname name →
  nameTable st !! name = Some entry →
  args entry ≠ [] →
  (localTable (createFrame name st) !! name
   = Some {| frame_id := next_frame st; vars := ∅ |})
  ∧ (length (args entry) ≠ length actual →
   Evaluator lib (S fuel) tree l local fname st
   = (Throw (EvalError ("invalid number of arguments in function " +:+ name +:+ ".")), st))
  ∧ (length (args entry) = length actual →
     ∀ st' current,
       arguments_bound Ev tree l fname name 0 actual (createFrame name st) st' →
       nameTable st' !! name = Some current →
       Evaluator lib (S fuel) tree l local fname st
       = match reduce Ev (expr current) (stale_links lib (expr current)) true name st' with
         | (Normal temp, st'') => (Normal temp, set_localTable (delete name) st'')
         | failed => failed
         end).
Proof.
  intros tree Ev Hbase Halias Hlocal%unbound_locally_binding Hentry Hfun.
  split; [apply lookup_insert_eq|].
  assert ((length (args entry) =? 0) = false) as Hlen by (by destruct (args entry)).
  assert (Evaluator lib (S fuel) tree l local fname st
          = callFunction lib Ev tree l fname name entry actual st) as ->.
  { unfold tree. rewrite Evaluator_ARG_case. unfold Evaluator_ARG.
    cbn [node_expr node_args]. unfold check_object. cbn [is_object].
    unfold bind at 1. cbn [ret]. unfold bind at 1. cbn [ret].
    rewrite has_type_NAME. unfold bind at 1, get.
    cbn [node_id property_key default from_option]. unfold id.
    by rewrite Hbase, (bool_decide_eq_false_2 _ Halias), Hlocal, Hentry, Hlen. }
  unfold callFunction. split.
  - intros Hne. apply Nat.eqb_neq in Hne. by rewrite Hne.
  - intros Heq st' current Hbound Hcurrent. apply Nat.eqb_eq in Heq. rewrite Heq.
    cbn [negb]. unfold bind at 1, modify. unfold bind at 1.
    rewrite (bindArguments_bound _ _ _ _ _ _ _ _ _ Hbound).
    unfold bind at 1, get. rewrite Hcurrent. unfold bind at 1.
    destruct (reduce _ _ _ _ _ _) as [[temp|e|] st'']; done.
Qed.

End Claims.

(** * Further properties of the evaluator *)

Section Coverage.
Context (lib : Library).

Lemma Unparse_no_throw tree e : Unparse lib tree ≠ Throw e.
Proof. destruct (Unparse_catches lib tree) as [body ->]. apply catch_placeholder_no_throw. Qed.

Lemma cappend_no_throw a b :
  (∀ e, a ≠ Throw e) → (∀ e, b ≠ Throw e) → ∀ e, cappend a b ≠ Throw e.
Proof.
  intros Ha Hb e. destruct a as [x|ea|]; [|by destruct (Ha ea)|done].
  destruct b as [y|eb|]; [done|by destruct (Hb eb)|done].
Qed.

Lemma catch_placeholder_same placeholder body :
  (∀ e, body ≠ Throw e) → catch_placeholder placeholder body = body.
Proof. intros H. destruct body as [x|e|]; [done|by destruct (H e)|done]. Qed.

Lemma Normal_no_throw {A} (a : A) e : Normal a ≠ Throw e.
Proof. done. Qed.

(** [nodeOp] on an operator it does not know builds a node of type
    INVALID: evaluating the node throws "evaluating undefined type
    'INVALID'", [Unparse] renders it as "<INVALID>" and [unparserML] as
    "<mi>invalid</mi>". *)
Theorem invalid_operator (fuel : nat) (op : string) (data1 data2 : node) (l : links)
    (local : bool) (fname : string) (st : EvaluatorState) :
  op ∉ binary_types ++ assignment_types →
  op ∉ ["()"; "!"; "~"; "+_"; "-_"; "++_"; "--_"] →
  op ∉ [".'"; "'"; "_++"; "_--"] →
  let tree := nodeOp op data1 data2 in
  Evaluator lib (S fuel) tree l local fname st
  = (Throw (EvalError "evaluating undefined type 'INVALID'."), st)
  ∧ Unparse lib tree = Normal "<INVALID>"
  ∧ unparserML lib st tree = Normal "<mi>invalid</mi>".
Proof.
  intros H1 H2 H3 tree. unfold tree, nodeOp.
  rewrite !bool_decide_eq_false_2 by done. done.
Qed.

(** The operators [!] and [~] build a prefix node and [opTable] maps
    them to [Tensor.not], but the [switch] of [Evaluator] has no case
    for them: evaluating the node throws "evaluating undefined type". *)
Theorem logical_not_unevaluated (fuel : nat) (op : string) (operand data2 : node) (l : links)
    (local : bool) (fname : string) (st : EvaluatorState) :
  op ∈ ["!"; "~"] →
  nodeOp op operand data2 = UnaryOperationR op operand
  ∧ Evaluator lib (S fuel) (nodeOp op operand data2) l local fname st
    = (Throw (EvalError ("evaluating undefined type '" +:+ op +:+ "'.")), st)
  ∧ (∀ operands, applyOp lib op operands = lift (Tensor lib "not" operands)).
Proof.
  intros H.
  apply elem_of_cons in H as [->|H]; [|apply elem_of_cons in H as [->|H]; [|by apply elem_of_nil in H]].
  - split; [reflexivity|]. split; reflexivity.
  - split; [reflexivity|]. split; reflexivity.
Qed.

Lemma Evaluator_binary_case fuel type left right l local fname :
  type ∈ binary_types →
  Evaluator lib (S fuel) (BinaryOperation type left right) l local fname
  = Evaluator_binary lib (Evaluator lib fuel) (BinaryOperation type left right) l local fname type.
Proof.
  unfold binary_types. intros H.
  repeat (apply elem_of_cons in H as [->|H]; [reflexivity|]).
  by apply elem_of_nil in H.
Qed.

Lemma binary_method type :
  type ∈ binary_types →
  ∃ method, ∀ operands, applyOp lib type operands = lift (Tensor lib method operands).
Proof.
  unfold binary_types. intros H.
  repeat (apply elem_of_cons in H as [->|H]; [eexists; intros; reflexivity|]).
  by apply elem_of_nil in H.
Qed.

Lemma nodeOp_binary type data1 data2 :
  type ∈ binary_types ++ assignment_types →
  nodeOp type data1 data2 = BinaryOperation type data1 data2.
Proof. intros H. unfold nodeOp. by rewrite bool_decide_eq_true_2. Qed.

(** A binary operator node reduces its left operand, then its right
    operand, and applies to the two values the [Tensor] method that
    [opTable] gives for the operator.  In [opTable] the operators [**],
    [.**] and [~=] are aliases of [^], [.^] and [!=]. *)
Theorem operator_dispatch (fuel : nat) (type : string) (left right : node) (l : links)
    (local : bool) (fname : string) (st : EvaluatorState) :
  type ∈ binary_types →
  is_object left = true →
  is_object right = true →
  let tree := nodeOp type left right in
  let Ev := Evaluator lib fuel in
  (∃ method,
     (∀ operands, applyOp lib type operands = lift (Tensor lib method operands))
     ∧ Evaluator lib (S fuel) tree l local fname st
       = (let* a := reduce Ev left (child_links lib tree l left) local fname in
          let* b := reduce Ev right (child_links lib tree l right) local fname in
          lift (Tensor lib method [a; b])) st)
  ∧ (∀ operands, applyOp lib "**" operands = applyOp lib "^" operands)
  ∧ (∀ operands, applyOp lib ".**" operands = applyOp lib ".^" operands)
  ∧ (∀ operands, applyOp lib "~=" operands = applyOp lib "!=" operands).
Proof.
  intros Htype Hleft Hright tree Ev. split; [|done].
  destruct (binary_method type Htype) as [method Hm]. exists method. split; [done|].
  unfold tree. rewrite nodeOp_binary by (apply elem_of_app; by left).
  rewrite (Evaluator_binary_case _ _ _ _ _ _ _ Htype).
  unfold Evaluator_binary. cbn [node_left node_right]. unfold check_object.
  rewrite Hleft, Hright. fold Ev.
  unfold bind at 1. cbn [ret]. unfold bind at 1. cbn [ret].
  unfold bind.
  destruct (reduce Ev left _ _ _ _) as [[a|e|] st1]; [|done|done].
  destruct (reduce Ev right _ _ _ _) as [[b|e|] st2]; [|done|done].
  by rewrite Hm.
Qed.

Lemma Unparse_BinaryOperation type left right :
  type ∈ binary_types ++ assignment_types →
  Unparse lib (BinaryOperation type left right)
  = catch_placeholder "<ERROR>"
      (cappend (Unparse lib left) (cappend (Normal type) (Unparse lib right))).
Proof.
  unfold binary_types, assignment_types. intros H.
  repeat (apply elem_of_cons in H as [->|H]; [reflexivity|]).
  by apply elem_of_nil in H.
Qed.

(** [Unparse] on the nodes [nodeOp] builds: an infix operator between
    its operands, a prefix operator before its operand and a postfix
    operator after it (without the underscore that marks the side in the
    node type), and parentheses around the operand of ["()"]. *)
Theorem Unparse_operators (op : string) (data1 data2 : node) :
  let text := Unparse lib (nodeOp op data1 data2) in
  let operand := Unparse lib data1 in
  (op ∈ binary_types ++ assignment_types →
   text = cappend operand (cappend (Normal op) (Unparse lib data2)))
  ∧ (op ∈ ["!"; "~"] → text = cappend (Normal op) operand)
  ∧ (op ∈ ["+_"; "-_"; "++_"; "--_"] →
     text = cappend (Normal (String.substring 0 (String.length op - 1) op)) operand)
  ∧ (op ∈ [".'"; "'"] → text = cappend operand (Normal op))
  ∧ (op ∈ ["_++"; "_--"] →
     text = cappend operand (Normal (String.substring 1 (String.length op - 1) op)))
  ∧ (op = "()" → text = cappend (Normal "(") (cappend operand (Normal ")"))).
Proof.
  intros text operand.
  assert (∀ e, operand ≠ Throw e) as Hop by (intros e; apply Unparse_no_throw).
  assert (∀ s, catch_placeholder "<ERROR>" (cappend (Normal s) operand)
               = cappend (Normal s) operand) as Hprefix.
  { intros s. by apply catch_placeholder_same, cappend_no_throw. }
  assert (∀ s, catch_placeholder "<ERROR>" (cappend operand (Normal s))
               = cappend operand (Normal s)) as Hpostfix.
  { intros s. by apply catch_placeholder_same, cappend_no_throw. }
  split; [|split; [|split; [|split; [|split]]]].
  - intros H. unfold text. rewrite nodeOp_binary, Unparse_BinaryOperation by done.
    apply catch_placeholder_same.
    apply cappend_no_throw; [done|].
    apply cappend_no_throw; [done|apply Unparse_no_throw].
  - intros H. repeat (apply elem_of_cons in H as [->|H]; [apply Hprefix|]).
    by apply elem_of_nil in H.
  - intros H. repeat (apply elem_of_cons in H as [->|H]; [apply Hprefix|]).
    by apply elem_of_nil in H.
  - intros H. repeat (apply elem_of_cons in H as [->|H]; [apply Hpostfix|]).
    by apply elem_of_nil in H.
  - intros H. repeat (apply elem_of_cons in H as [->|H]; [apply Hpostfix|]).
    by apply elem_of_nil in H.
  - intros ->. apply catch_placeholder_same.
    apply cappend_no_throw; [done|]. by apply cappend_no_throw.
Qed.


(** ** Functions under Clear *)

Lemma clearName_functions st name k :
  baseFunctionTable (clearName st name) !! k
  = if bool_decide (k = name ∧ k ∉ readonlyNameTable st) then None
    else baseFunctionTable st !! k.
Proof.
  unfold clearName. case_bool_decide as Hro.
  - rewrite bool_decide_eq_false_2; [done|]. by intros [-> H].
  - cbn. destruct (decide (k = name)) as [->|Hne].
    + rewrite bool_decide_eq_true_2 by done. apply lookup_delete_eq.
    + rewrite bool_decide_eq_false_2 by (by intros [? _]). by apply lookup_delete_ne.
Qed.

Lemma clearNames_functions names st k :
  baseFunctionTable (foldl clearName st names) !! k
  = if bool_decide (k ∈ names ∧ k ∉ readonlyNameTable st) then None
    else baseFunctionTable st !! k.
Proof.
  revert st. induction names as [|n names IH]; intros st.
  - case_bool_decide as H; [|done]. destruct H as [H _]. by apply elem_of_nil in H.
  - cbn [foldl]. rewrite IH, clearName_readonly, clearName_functions.
    destruct (decide (k ∉ readonlyNameTable st)) as [Hro|Hro].
    + destruct (decide (k = n)) as [->|Hne].
      * rewrite (bool_decide_eq_true_2 (n ∈ n :: names ∧ _));
          [|split; [by apply elem_of_cons; left|done]].
        rewrite (bool_decide_eq_true_2 (n = n ∧ _)) by done. by case_bool_decide.
      * rewrite (bool_decide_eq_false_2 (k = n ∧ _)) by (by intros [? _]).
        rewrite (bool_decide_ext (k ∈ n :: names ∧ k ∉ readonlyNameTable st)
                   (k ∈ names ∧ k ∉ readonlyNameTable st)); [done|].
        rewrite elem_of_cons. split; [|by intros [? ?]; split; [right|]].
        by intros [[?|?] ?].
    + rewrite !bool_decide_eq_false_2; [done|by intros [_ ?]..].
Qed.

Lemma loadEntries_functions entries st :
  baseFunctionTable (foldl loadEntry st entries) = baseFunctionTable st.
Proof.
  revert st. induction entries as [|e entries IH]; intros st; [done|].
  simpl. by rewrite IH.
Qed.

Lemma Restart_functions st : baseFunctionTable (Restart lib st) = baseFunctionTable st.
Proof. unfold Restart, loadNativeTable. by rewrite !loadEntries_functions. Qed.

(** [Clear] with names deletes from the function table, too, the listed
    names that are not read-only, and leaves the other functions;
    [Clear] without names and [Restart] leave the function table
    untouched, so a function deleted by name is not restored by them. *)
Theorem Clear_functions (st : EvaluatorState) :
  (∀ names k, names ≠ [] →
     baseFunctionTable (Clear lib names st) !! k
     = if bool_decide (k ∈ names ∧ k ∉ readonlyNameTable st) then None
       else baseFunctionTable st !! k)
  ∧ baseFunctionTable (Clear lib [] st) = baseFunctionTable st
  ∧ baseFunctionTable (Restart lib st) = baseFunctionTable st
  ∧ (∀ names k, names ≠ [] → k ∈ names → k ∉ readonlyNameTable st →
       baseFunctionTable (Clear lib [] (Clear lib names st)) !! k = None).
Proof.
  split; [|split; [|split]].
  - intros names k Hne. rewrite (Clear_names lib _ _ Hne). apply clearNames_functions.
  - apply Restart_functions.
  - apply Restart_functions.
  - intros names k Hne Hin Hro. change (Clear lib [] ?s) with (Restart lib s).
    rewrite Restart_functions, (Clear_names lib _ _ Hne), clearNames_functions.
    by rewrite bool_decide_eq_true_2.
Qed.

(** ** Restart *)

Lemma cleared_loadEntries entries st :
  cleared (foldl loadEntry st entries) = cleared st.
Proof.
  revert st. induction entries as [|e entries IH]; intros st; [done|].
  simpl. by rewrite IH.
Qed.

Lemma loadEntries_localTable entries st :
  localTable (foldl loadEntry st entries) = localTable st.
Proof.
  revert st. induction entries as [|e entries IH]; intros st; [done|].
  simpl. by rewrite IH.
Qed.

Lemma seed_lookup entries t id :
  is_Some (seed t entries !! id) ↔ is_Some (t !! id) ∨ id ∈ map fst entries.
Proof.
  revert t. induction entries as [|e entries IH]; intros t; simpl.
  - split; [by left|]. intros [H|H]; [done|]. by apply elem_of_nil in H.
  - rewrite IH, elem_of_cons. destruct (decide (e.1 = id)) as [->|Hne].
    + rewrite lookup_insert_eq. split; [|by left; eexists]. intros _. by right; left.
    + rewrite lookup_insert_ne by done. split.
      * intros [?|?]; [by left|by right; right].
      * intros [?|[?|?]]; [by left|done|by right].
Qed.

Lemma seed_variables entries t :
  (∀ id entry, t !! id = Some entry → args entry = []) →
  ∀ id entry, seed t entries !! id = Some entry → args entry = [].
Proof.
  revert t. induction entries as [|e entries IH]; intros t Ht; [done|].
  simpl. apply IH. intros id entry. destruct (decide (e.1 = id)) as [->|Hne].
  - rewrite lookup_insert_eq. by intros [= <-].
  - rewrite lookup_insert_ne by done. apply Ht.
Qed.

(** [Restart] is idempotent and is what [Clear] without names does.
    After it the local table is empty, the names bound are exactly the
    read-only names, and every one of them is a variable. *)
Theorem Restart_resets (st : EvaluatorState) :
  let st' := Restart lib st in
  Restart lib st' = st'
  ∧ Clear lib [] st = st'
  ∧ localTable st' = ∅
  ∧ (∀ id, is_Some (nameTable st' !! id) ↔ id ∈ readonlyNameTable st')
  ∧ (∀ id entry, nameTable st' !! id = Some entry → args entry = []).
Proof.
  intros st'. split; [|split; [done|split; [|split]]].
  - unfold st', Restart. fold (cleared st). fold (cleared (loadNativeTable lib (cleared st))).
    unfold loadNativeTable at 2. rewrite !cleared_loadEntries. done.
  - unfold st', Restart, loadNativeTable. by rewrite !loadEntries_localTable.
  - intros id. unfold st'. rewrite Restart_nameTable, Restart_readonly.
    rewrite loadNativeTable_nameTable, loadNativeTable_readonly.
    rewrite !seed_lookup, !elem_of_app. cbn [nameTable readonlyNameTable fields].
    rewrite lookup_empty. split.
    + intros [[H|H]|H]; [by destruct H|by left; right|by right].
    + intros [[H|H]|H]; [by apply elem_of_nil in H|by left; right|by right].
  - intros id entry. unfold st'. rewrite Restart_nameTable, loadNativeTable_nameTable.
    apply seed_variables, seed_variables. intros ? ?. cbn. by rewrite lookup_empty.
Qed.

(** ** Assignment targets *)

Lemma mapM_state {A B} (f : A → M B) (xs : list A) st :
  (∀ x s, snd (f x s) = s) → snd (mapM f xs st) = st.
Proof.
  intros Hf. revert st. induction xs as [|x xs IH]; intros st; [done|].
  cbn [mapM]. unfold bind at 1. specialize (Hf x st).
  destruct (f x st) as [[y|e|] s]; cbn [snd] in Hf; subst s; [|done|done].
  unfold bind. specialize (IH st).
  by destruct (mapM f xs st) as [[ys|e|] s].
Qed.

Lemma validateAssignment_body_state elements tree shallow st :
  (∀ row s, snd (elements row s) = s) →
  snd (validateAssignment_body elements tree shallow st) = st.
Proof.
  intros He. unfold validateAssignment_body, check_object.
  destruct (is_object tree); [|done]. unfold bind at 1. cbn [ret].
  unfold bind at 1, get.
  destruct (has_type tree "NAME"); [by case_bool_decide|].
  destruct (has_type tree "ARG").
  { destruct (is_object (node_expr tree)); [|done]. unfold bind. cbn [ret].
    destruct (has_type (node_expr tree) "NAME"); [by case_bool_decide|done]. }
  destruct (has_type tree "<~>"); [done|].
  destruct tree; try done.
  destruct (shallow && _); [|done]. destruct (MultiArray.array m); [done|apply He].
Qed.

Lemma validateElement_state t st : snd (validateElement t st) = st.
Proof.
  unfold validateElement, bind.
  pose proof (validateAssignment_body_state
                (fun _ => throw (EvalError (invalidMessageBase +:+ "."))) t false st
                (fun _ _ => eq_refl)) as H.
  destruct (validateAssignment_body _ _ _ _) as [[r|e|] s]; cbn [snd] in H; subst s;
    [|done|done].
  by destruct r.
Qed.

Lemma validateElement_target st t :
  valid_target st t → validateElement t st = (Normal (target_of t), st).
Proof.
  intros [(x & -> & Hx)|[(x & indices & -> & Hx)| ->]];
    unfold validateElement, validateAssignment_body; cbn; unfold bind, get; cbn;
    rewrite ?(bool_decide_eq_false_2 _ Hx); eauto.
Qed.

Lemma validateElements_targets st row :
  Forall (valid_target st) row →
  mapM validateElement row st = (Normal (map target_of row), st).
Proof.
  induction 1 as [|t row Ht _ IH]; [done|].
  cbn [mapM map]. unfold bind at 1. rewrite (validateElement_target _ _ Ht).
  unfold bind. by rewrite IH.
Qed.

Lemma validateAssignment_row st dims row rows class :
  Forall (valid_target st) row →
  validateAssignment (VTensor (MultiArray.mk (1 :: dims) (row :: rows) class)) true st
  = (Normal (map target_of row), st).
Proof.
  intros Hrow. unfold validateAssignment, validateAssignment_body. cbn.
  rewrite bool_decide_eq_true_2 by done. by apply validateElements_targets.
Qed.

(** [validateAssignment] never changes the state.  A tensor on the left
    is accepted when it has one row whose elements are all valid
    targets, and the targets are the elements in order; a tensor that
    has not exactly one row, or whose row holds a tensor, is refused with
    the "invalid left hand side of assignment" error. *)
Theorem validateAssignment_targets (st : EvaluatorState) :
  let invalid := (Throw (EvalError (invalidMessageBase +:+ ".")), st) in
  (∀ tree shallow, snd (validateAssignment tree shallow st) = st)
  ∧ (∀ dims row rows class,
       Forall (valid_target st) row →
       validateAssignment (VTensor (MultiArray.mk (1 :: dims) (row :: rows) class)) true st
       = (Normal (map target_of row), st))
  ∧ (∀ m, head (MultiArray.dim m) ≠ Some 1 →
       validateAssignment (VTensor m) true st = invalid)
  ∧ (∀ dims before inner after rows class,
       Forall (valid_target st) before →
       validateAssignment
         (VTensor (MultiArray.mk (1 :: dims) ((before ++ VTensor inner :: after) :: rows) class))
         true st
       = invalid).
Proof.
  intros invalid. split; [|split; [|split]].
  - intros tree shallow. apply validateAssignment_body_state.
    intros row s. apply mapM_state, validateElement_state.
  - intros dims row rows class. apply validateAssignment_row.
  - intros m Hm. unfold validateAssignment, validateAssignment_body. cbn.
    by rewrite bool_decide_eq_false_2.
  - intros dims before inner after rows class Hbefore.
    unfold validateAssignment, validateAssignment_body. cbn.
    rewrite bool_decide_eq_true_2 by done.
    induction Hbefore as [|t before Ht _ IH]; cbn [app mapM]; unfold bind at 1.
    + done.
    + rewrite (validateElement_target _ _ Ht). unfold bind at 1. by rewrite IH.
Qed.

(** ** Assignment, several targets *)

Lemma assignment_targets fuel type left rhs targets l local fname st r0 st1 :
  let tree := BinaryOperation type left rhs in
  let op := String.substring 0 (String.length type - 1) type in
  let right := match r0 with Normal v => v | _ => rhs end in
  let wrapped := negb (has_type right "RETLIST") in
  let selector := if wrapped then wrapRight rhs else selector_of right in
  type ∈ assignment_types →
  is_object left = true →
  is_object rhs = true →
  validateAssignment left true st = (Normal targets, st) →
  (1 <? length targets) && (0 <? String.length op) = false →
  Evaluator lib fuel rhs (child_links lib tree l rhs) false fname st = (r0, st1) →
  r0 ≠ Diverge →
  is_object right = true →
  Evaluator lib (S fuel) tree l local fname st
  = (let* results := assignTargets lib (Evaluator lib fuel) tree l local fname op selector
                       wrapped (length targets) 0 targets [] false in
     assignmentResult l results.1 results.2) st1.
Proof.
  intros tree op right wrapped selector Htype Hleft Hrhs Hvalid Hop HEv Hr0 Hright.
  unfold tree. rewrite (Evaluator_assignment_case lib _ _ _ _ _ _ _ Htype).
  unfold Evaluator_assignment. cbn [node_left node_right].
  unfold check_object. rewrite Hleft, Hrhs.
  unfold bind at 1. cbn [ret]. unfold bind at 1. cbn [ret].
  unfold bind at 1. rewrite Hvalid. fold op. rewrite Hop.
  unfold bind at 1, try_catch. fold tree. rewrite HEv.
  assert ((match r0 with
           | Normal a => (Normal a, st1)
           | Throw _ => ret rhs st1
           | Diverge => (Diverge, st1)
           end) = (Normal right, st1)) as ->.
  { subst right. by destruct r0. }
  rewrite Hright. unfold bind at 1. cbn [ret].
  by fold wrapped selector.
Qed.


(** An assignment [[a, b, ...] = rhs] whose right side does not reduce
    to a return list binds the first target to the value of [rhs] and
    then throws "element number 2 undefined in return list": the first
    binding stays in the name table. *)
Theorem multiple_assignment_plain_value (fuel : nat) (a b : string) (rest : list node)
    (dims : list nat) (rows : list (list node)) (class : Z) (rhs : node)
    (l : links) (local : bool) (fname : string)
    (st st1 st2 : EvaluatorState) (r0 : completion node) (v : node) :
  let left := VTensor (MultiArray.mk (1 :: dims) ((NAME a :: NAME b :: rest) :: rows) class) in
  let tree := BinaryOperation "=" left rhs in
  let right := match r0 with Normal v => v | _ => rhs end in
  a ∉ readonlyNameTable st →
  b ∉ readonlyNameTable st →
  Forall (valid_target st) rest →
  is_object rhs = true →
  Evaluator lib fuel rhs (child_links lib tree l rhs) false fname st = (r0, st1) →
  r0 ≠ Diverge →
  is_object right = true →
  has_type right "RETLIST" = false →
  reduce (Evaluator lib fuel) rhs (assignedLinks lib tree l empty true rhs) false empty st1
  = (Normal v, st2) →
  Evaluator lib (S fuel) tree l local fname st
  = (Throw (EvalError "element number 2 undefined in return list"),
     set_nameTable (<[a := {| args := []; expr := v |}]>) st2).
Proof.
  intros left tree right Ha Hb Hrest Hrhs HEv Hr0 Hright Hplain Hv.
  assert (Forall (valid_target st) (NAME a :: NAME b :: rest)) as Hrow.
  { constructor; [left; by exists a|]. constructor; [left; by exists b|done]. }
  assert ("=" ∈ assignment_types) as Htype by (by apply elem_of_cons; left).
  unfold tree.
  rewrite (assignment_targets fuel "=" left rhs _ l local fname st r0 st1 Htype eq_refl Hrhs
             (validateAssignment_row st dims _ rows class Hrow) eq_refl HEv Hr0 Hright).
  fold right. rewrite Hplain. cbn [negb map target_of assignTargets].
  unfold bind at 1. unfold bind at 1, assignTarget.
  cbn [lhs_left lhs_id lhs_args is_object length Nat.eqb].
  unfold bind at 1, assignName. unfold bind at 1, lift.
  cbn [wrapRight Nat.eqb]. unfold bind at 1, check_object. rewrite Hrhs. cbn [ret].
  unfold try_catch, bind at 1.
  change (assignedExpr (String.substring 0 (String.length "=" - 1) "=") (NAME a) rhs)
    with rhs.
  change (String.substring 0 (String.length "=" - 1) "=") with empty.
  fold tree. rewrite Hv. unfold bind at 1, modify. cbn [ret].
  unfold bind at 1. unfold bind at 1, assignTarget.
  cbn [lhs_left lhs_id lhs_args is_object length Nat.eqb].
  unfold bind at 1, assignName.
  reflexivity.
Qed.

(** What an assignment to a name returns once the value is stored: at
    the root of a statement, the assignment node [name = value]; inside
    another expression, the value; and, when the node has no parent, a
    TypeError thrown after the name was bound. *)
Theorem name_assignment_result (fuel : nat) (type id : string)
    (rhs : node) (l : links) (local : bool) (fname : string)
    (st st1 st2 : EvaluatorState) (r0 : completion node) (rightN v : node) :
  let tree := BinaryOperation type (NAME id) rhs in
  let op := String.substring 0 (String.length type - 1) type in
  let right := match r0 with Normal v => v | _ => rhs end in
  let wrapped := negb (has_type right "RETLIST") in
  let selector := if wrapped then wrapRight rhs else selector_of right in
  let expr := assignedExpr op (NAME id) rightN in
  let stored := set_nameTable (<[id := {| args := []; expr := v |}]>) st2 in
  type ∈ assignment_types →
  id ∉ readonlyNameTable st →
  is_object rhs = true →
  Evaluator lib fuel rhs (child_links lib tree l rhs) false fname st = (r0, st1) →
  r0 ≠ Diverge →
  is_object right = true →
  selector 1 0 = Normal rightN →
  is_object rightN = true →
  reduce (Evaluator lib fuel) expr (assignedLinks lib tree l op wrapped rightN)
    false empty st1 = (Normal v, st2) →
  (∀ p i, parent l = PObj p i PNull →
     Evaluator lib (S fuel) tree l local fname st
     = (Normal (BinaryOperation "=" (NAME id) v), stored))
  ∧ (∀ p i up, parent l = PObj p i up → up ≠ PNull →
       Evaluator lib (S fuel) tree l local fname st = (Normal v, stored))
  ∧ (parent l = PNull →
     Evaluator lib (S fuel) tree l local fname st
     = (Throw (TypeError "Cannot read properties of null (reading 'parent')"), stored)).
Proof.
  intros tree op right wrapped selector expr stored
    Htype Hro Hrhs HEv Hr0 Hright Hsel HrightN Hv.
  assert (Evaluator lib (S fuel) tree l local fname st
          = assignmentResult l [BinaryOperation "=" (NAME id) v] false stored) as ->.
  { unfold tree.
    rewrite (assignment_single lib fuel type (NAME id) rhs _ l local fname st r0 st1
               Htype eq_refl Hrhs (validateAssignment_NAME id st Hro) HEv Hr0 Hright).
    fold tree op right wrapped selector.
    unfold bind at 1, assignTarget. cbn [lhs_left lhs_id lhs_args is_object length Nat.eqb].
    unfold bind at 1, assignName. unfold bind at 1, lift. rewrite Hsel.
    unfold bind at 1, check_object. rewrite HrightN. cbn [ret].
    unfold try_catch, bind at 1. fold expr. rewrite Hv. by cbn. }
  unfold assignmentResult. split; [|split].
  - by intros p i ->.
  - intros p i up -> Hup. by destruct up.
  - by intros ->.
Qed.


Lemma validateAssignment_placeholder st :
  validateAssignment (NodeReserved "<~>") true st
  = (Normal [ {| lhs_left := Null; lhs_id := "~"; lhs_args := [] |} ], st).
Proof. reflexivity. Qed.

(** An assignment to the placeholder [~] evaluates the right side once
    and binds nothing: at the root of a statement it returns the empty
    list, and inside another expression it throws a TypeError. *)
Theorem placeholder_assignment (fuel : nat) (type : string) (rhs : node) (l : links)
    (local : bool) (fname : string) (st st1 : EvaluatorState) (r0 : completion node) :
  let tree := BinaryOperation type (NodeReserved "<~>") rhs in
  let right := match r0 with Normal v => v | _ => rhs end in
  type ∈ assignment_types →
  is_object rhs = true →
  Evaluator lib fuel rhs (child_links lib tree l rhs) false fname st = (r0, st1) →
  r0 ≠ Diverge →
  is_object right = true →
  (∀ p i, parent l = PObj p i PNull →
     Evaluator lib (S fuel) tree l local fname st = (Normal (LIST []), st1))
  ∧ (∀ p i up, parent l = PObj p i up → up ≠ PNull →
       Evaluator lib (S fuel) tree l local fname st
       = (Throw (TypeError "Cannot read properties of undefined (reading 'right')"), st1)).
Proof.
  intros tree right Htype Hrhs HEv Hr0 Hright.
  assert (Evaluator lib (S fuel) tree l local fname st = assignmentResult l [] false st1) as ->.
  { unfold tree.
    by rewrite (assignment_single lib fuel type (NodeReserved "<~>") rhs _ l local fname
                  st r0 st1 Htype eq_refl Hrhs (validateAssignment_placeholder st)
                  HEv Hr0 Hright). }
  unfold assignmentResult. split.
  - by intros p i ->.
  - intros p i up -> Hup. by destruct up.
Qed.

(** ** Operator functions *)

(** The functions [DefUnOpFunction], [DefBinOpFunction] and
    [DefBinMoreOpFunction] register accept one operand, two operands,
    and two or more operands folded from the left; any other number of
    operands throws "Invalid call to name". *)
Theorem operator_function_arity (name : string) (func : list node → completion node)
    (st : EvaluatorState) :
  let defined st' := TBaseFunctionTableEntry.func <$> baseFunctionTable st' !! name in
  let step result r := cbind result (fun x => func [x; r]) in
  (∃ f, defined (DefUnOpFunction name func st) = Some f
        ∧ ∀ operands, f operands = match operands with
                                   | [x] => func [x]
                                   | _ => invalidCall name
                                   end)
  ∧ (∃ f, defined (DefBinOpFunction name func st) = Some f
          ∧ ∀ operands, f operands = match operands with
                                     | [x; y] => func [x; y]
                                     | _ => invalidCall name
                                     end)
  ∧ (∃ f, defined (DefBinMoreOpFunction name func st) = Some f
          ∧ (∀ operands, f operands = match operands with
                                      | x :: y :: rest => foldl step (func [x; y]) rest
                                      | _ => invalidCall name
                                      end)
          ∧ (∀ x y rest z, f (x :: y :: rest ++ [z]) = step (f (x :: y :: rest)) z)).
Proof.
  intros defined step. split; [|split].
  - eexists. split.
    + unfold defined, DefUnOpFunction. cbn. by rewrite lookup_insert_eq.
    + intros [|x [|y rest]]; done.
  - eexists. split.
    + unfold defined, DefBinOpFunction. cbn. by rewrite lookup_insert_eq.
    + intros [|x [|y [|z rest]]]; done.
  - set (f := fun operands : list node =>
                let left := arg 0 operands in
                let right := drop 1 operands in
                if length right =? 1 then func [left; arg 0 right]
                else if 1 <? length right then
                  foldl (fun result r => cbind result (fun x => func [x; r]))
                        (func [left; arg 0 right]) (drop 1 right)
                else invalidCall name).
    assert (∀ operands,
              f operands = match operands with
                           | x :: y :: rest => foldl step (func [x; y]) rest
                           | _ => invalidCall name
                           end) as Hf.
    { intros [|x [|y [|z rest]]]; done. }
    exists f. split; [|split].
    + unfold defined, DefBinMoreOpFunction. cbn. by rewrite lookup_insert_eq.
    + exact Hf.
    + intros x y rest z. rewrite !Hf. by rewrite foldl_snoc.
Qed.

(** ** Ranges *)

Lemma Unparse_RANGE start stop stride :
  Unparse lib (RANGE start stop stride)
  = catch_placeholder "<ERROR>"
      (if is_object start && is_object stop then
         if is_object stride then
           cappend (Unparse lib start)
             (cappend (Normal ":") (cappend (Unparse lib stride)
                                      (cappend (Normal ":") (Unparse lib stop))))
         else cappend (Unparse lib start) (cappend (Normal ":") (Unparse lib stop))
       else Normal ":").
Proof.
  cbn [Unparse node_type Unparse_switch]. f_equal.
  unfold render_with.
  destruct (is_object start), (is_object stop), (is_object stride); reflexivity.
Qed.

Lemma Evaluator_RANGE_case fuel start stop stride l local fname :
  Evaluator lib (S fuel) (RANGE start stop stride) l local fname
  = Evaluator_RANGE lib (Evaluator lib fuel) (RANGE start stop stride) l local fname.
Proof. reflexivity. Qed.

(** [nodeRange] puts [start], [stop] and an optional [stride] (given in
    the middle) into a RANGE node and refuses any other number of
    arguments.  [Unparse] joins the parts with colons, and [Evaluator]
    reduces start, stop and stride in this order and expands the range;
    a range without start or stop renders as ":" and throws on
    evaluation. *)
Theorem range_nodes (fuel : nat) (start stride stop : node) (l : links) (local : bool)
    (fname : string) (st : EvaluatorState) :
  let Ev := Evaluator lib fuel in
  let colon a b := cappend a (cappend (Normal ":") b) in
  nodeRange [start; stop] = Normal (RANGE start stop Null)
  ∧ nodeRange [start; stride; stop] = Normal (RANGE start stop stride)
  ∧ (∀ args, length args ≠ 2 → length args ≠ 3 →
       nodeRange args = Throw (SyntaxError "invalid range."))
  ∧ (is_object start = true → is_object stop = true →
       Unparse lib (RANGE start stop Null) = colon (Unparse lib start) (Unparse lib stop)
       ∧ (is_object stride = true →
          Unparse lib (RANGE start stop stride)
          = colon (Unparse lib start) (colon (Unparse lib stride) (Unparse lib stop)))
       ∧ (let tree := RANGE start stop stride in
          Evaluator lib (S fuel) tree l local fname st
          = (let* a := reduce Ev start (child_links lib tree l start) local fname in
             let* b := reduce Ev stop (child_links lib tree l stop) local fname in
             let* c := (if is_object stride
                        then reduce Ev stride (child_links lib tree l stride) local fname
                        else ret Null) in
             lift (expandRange lib a b c)) st))
  ∧ (is_object start = false ∨ is_object stop = false →
       Unparse lib (RANGE start stop stride) = Normal ":"
       ∧ ∃ message,
           Evaluator lib (S fuel) (RANGE start stop stride) l local fname st
           = (Throw (TypeError message), st)).
Proof.
  intros Ev colon. split; [done|]. split; [done|]. split; [|split].
  - intros [|a [|b [|c [|d args]]]]; done.
  - intros Hstart Hstop. split; [|split].
    + rewrite Unparse_RANGE, Hstart, Hstop. cbn [andb is_object].
      apply catch_placeholder_same.
      apply cappend_no_throw; [apply Unparse_no_throw|].
      apply cappend_no_throw; [done|apply Unparse_no_throw].
    + intros Hstride. rewrite Unparse_RANGE, Hstart, Hstop, Hstride. cbn [andb].
      apply catch_placeholder_same.
      repeat (apply cappend_no_throw; [first [done|apply Unparse_no_throw]|]).
      apply Unparse_no_throw.
    + cbn zeta. rewrite (Evaluator_RANGE_case fuel).
      unfold Evaluator_RANGE, check_object. rewrite Hstart, Hstop.
      unfold bind at 1. cbn [ret]. unfold bind at 1. by cbn [ret].
  - intros H. split.
    + rewrite Unparse_RANGE.
      assert (is_object start && is_object stop = false) as ->; [|done].
      destruct H as [-> | ->]; [done|apply andb_false_r].
    + rewrite (Evaluator_RANGE_case fuel).
      unfold Evaluator_RANGE, check_object.
      destruct (is_object start); [|by eexists].
      destruct H as [H|H]; [done|]. rewrite H. by eexists.
Qed.

(** ** Evaluate *)

(** [Evaluate] resets the exit status, evaluates the tree as a root
    (parent [null]) and returns what [Evaluator] returns; when the
    evaluation throws, the exit status is the error code 3 and the error
    is thrown again. *)
Theorem Evaluate_exit_status (fuel : nat) (tree : node) (st : EvaluatorState) :
  let top := {| parent := PNull; index := index (stale_links lib tree) |} in
  let run := Evaluator lib fuel tree top false empty (set_exitStatus 0%Z st) in
  (is_object tree = true →
   Evaluate lib fuel tree st
   = match run with
     | (Throw e, st') => (Throw e, set_exitStatus 3%Z st')
     | returned => returned
     end)
  ∧ (is_object tree = false →
     ∃ message, Evaluate lib fuel tree st = (Throw (TypeError message), set_exitStatus 3%Z st))
  ∧ (∀ e st', Evaluate lib fuel tree st = (Throw e, st') → exitStatus st' = 3%Z).
Proof.
  intros top run.
  assert (is_object tree = true →
          Evaluate lib fuel tree st
          = match run with
            | (Throw e, st') => (Throw e, set_exitStatus 3%Z st')
            | returned => returned
            end) as Hrun.
  { intros Hobj. unfold Evaluate, try_catch, check_object. rewrite Hobj.
    unfold bind at 1, modify. unfold bind at 1. cbn [ret]. fold top. fold run.
    by destruct run as [[v|e|] st']. }
  split; [done|]. split.
  - intros Hobj. unfold Evaluate, try_catch, check_object. rewrite Hobj.
    unfold bind at 1, modify. unfold bind at 1, throw. by eexists.
  - intros e st'. destruct (is_object tree) eqn:Hobj.
    + rewrite (Hrun eq_refl). destruct run as [[v|e'|] st'']; [done| |done].
      by intros [= _ <-].
    + unfold Evaluate, try_catch, check_object. rewrite Hobj.
      unfold bind at 1, modify. unfold bind at 1, throw. by intros [= _ <-].
Qed.

(** ** Word-list commands *)

Lemma property_key_Some x : property_key (Some x) = x.
Proof. reflexivity. Qed.



(** ** Calls of built-in functions *)

Lemma mapiM_from_length {A B} (f : nat → A → M B) i xs st ys st' :
  mapiM_from i f xs st = (Normal ys, st') → length ys = length xs.
Proof.
  revert i st ys st'. induction xs as [|x xs IH]; intros i st ys st'; cbn [mapiM_from].
  - by intros [= <- _].
  - unfold bind at 1. destruct (f i x st) as [[y|e|] st1]; [|done|done].
    unfold bind at 1. destruct (mapiM_from (S i) f xs st1) as [[zs|e|] st2] eqn:E; [|done|done].
    intros [= <- _]. cbn. f_equal. by eapply IH.
Qed.

Lemma Evaluator_builtin fuel id actual l local fname st entry :
  baseFunctionTable st !! aliasName st id = Some entry →
  Evaluator lib (S fuel) (ARG (NAME id) actual) l local fname st
  = callBaseFunction lib (Evaluator lib fuel) (ARG (NAME id) actual) l local fname
      (aliasName st id) entry actual st.
Proof.
  intros Hentry. rewrite Evaluator_ARG_case. unfold Evaluator_ARG.
  cbn [node_expr node_args]. unfold check_object. cbn [is_object].
  unfold bind at 1. cbn [ret]. unfold bind at 1. cbn [ret].
  rewrite has_type_NAME. unfold bind at 1, get.
  cbn [node_id]. rewrite property_key_Some. by rewrite Hentry.
Qed.

(** A call of a built-in function reduces all arguments when the entry
    has a [mapper] flag; a mapper is applied element-wise to a single
    tensor argument and directly to a single other argument, and throws
    "Invalid call" on any other number of arguments; a function that is
    not a mapper receives the reduced arguments. *)
Theorem builtin_call (fuel : nat) (id : string) (actual : list node) (l : links)
    (local : bool) (fname : string) (st st' : EvaluatorState)
    (entry : TBaseFunctionTableEntry.t) (isMapper : bool) (argumentsList : list node) :
  let tree := ARG (NAME id) actual in
  let name := aliasName st id in
  let func := TBaseFunctionTableEntry.func entry in
  baseFunctionTable st !! name = Some entry →
  TBaseFunctionTableEntry.mapper entry = Some isMapper →
  reduceArgs (Evaluator lib fuel) tree l local fname actual st
  = (Normal argumentsList, st') →
  length argumentsList = length actual
  ∧ Evaluator lib (S fuel) tree l local fname st
    = (if isMapper then
         match argumentsList with
         | [x] => if isTensor x then mapTensor lib x func else func [x]
         | _ => Throw (EvalError ("Invalid call to " +:+ name +:+ "."))
         end
       else func argumentsList,
       st').
Proof.
  intros tree name func Hentry Hmapper Hargs. split.
  - by apply mapiM_from_length in Hargs.
  - unfold tree. rewrite (Evaluator_builtin _ _ _ _ _ _ _ _ Hentry).
    unfold callBaseFunction. rewrite Hmapper. unfold bind. fold tree. rewrite Hargs.
    destruct isMapper; [|by rewrite andb_false_r].
    destruct argumentsList as [|x [|y rest]]; [done| |done].
    cbn. by destruct (isTensor x).
Qed.



(** ** Indexing and calls through names *)


(** ** Statement lists *)

Lemma Evaluator_LIST_loop_length Ev tree l local fname todo :
  ∀ i done st results st',
    Evaluator_LIST_loop Ev tree l local fname i done todo st = (Normal results, st') →
    length results = length done + length todo.
Proof.
  induction todo as [|child todo IH]; intros i done st results st'; cbn [Evaluator_LIST_loop].
  - intros [= <- _]. cbn. lia.
  - unfold bind at 1. destruct (check_object child _ st) as [[[]|e|] s0]; [|done|done].
    unfold bind at 1, get. unfold bind at 1.
    destruct (reduce _ _ _ _ _ _) as [[v|e|] s1]; [|done|done].
    unfold bind at 1, modify, ret.
    destruct (type_is_number v); intros H; apply IH in H;
      rewrite H, length_app; cbn; lia.
Qed.

(** A statement list that evaluates returns a list with one result for
    each statement; the empty list evaluates to itself. *)
Theorem LIST_length (fuel : nat) (list : list node) (l : links) (local : bool)
    (fname : string) (st : EvaluatorState) :
  (∀ v st', Evaluator lib (S fuel) (LIST list) l local fname st = (Normal v, st') →
     ∃ results, v = LIST results ∧ length results = length list)
  ∧ Evaluator lib (S fuel) (LIST []) l local fname st = (Normal (LIST []), st).
Proof.
  split; [|done].
  intros v st'. rewrite Evaluator_LIST_case. unfold Evaluator_LIST, bind.
  destruct (Evaluator_LIST_loop _ _ _ _ _ _ _ _ _) as [[results|e|] s] eqn:E; [|done|done].
  intros [= <- _]. exists results. split; [done|].
  by apply Evaluator_LIST_loop_length in E.
Qed.

(** ** Construction *)





Lemma loadEntries_other entries st :
  aliasName (foldl loadEntry st entries) = aliasName st
  ∧ commandWordListTable (foldl loadEntry st entries) = commandWordListTable st.
Proof.
  revert st. induction entries as [|e entries IH]; intros st; [done|].
  simpl. destruct (IH (loadEntry st e)) as [-> ->]. done.
Qed.

Lemma aliasNameOf_first table :
  ∀ name,
    (Forall (λ p : string * (string → bool), p.2 name = false) table →
     aliasNameOf table name = name)
    ∧ (∀ before alias test after,
         table = before ++ (alias, test) :: after →
         Forall (λ p : string * (string → bool), p.2 name = false) before →
         test name = true →
         aliasNameOf table name = alias).
Proof.
  intros name. split.
  - induction 1 as [|[alias test] table Hp _ IH]; [done|].
    cbn in *. by rewrite Hp.
  - intros before alias test after -> Hbefore Htest.
    induction Hbefore as [|[alias' test'] before Hp _ IH]; cbn in *.
    + by rewrite Htest.
    + by rewrite Hp.
Qed.

(** [initialize] keeps the names of the constructor, merges the
    external functions over the built-in ones, installs the external
    commands, registers every command of the table in [commandsTable],
    and makes [aliasName] return the first alias of the table whose test
    accepts the name (the name itself when none does, or without
    configuration). *)
Theorem initialize_tables (config : option TEvaluatorConfig) (commands : list string)
    (st0 : EvaluatorState) :
  constructor lib = Normal st0 →
  ∃ st,
    initialize lib config commands = Normal st
    ∧ nameTable st = nameTable st0
    ∧ readonlyNameTable st = readonlyNameTable st0
    ∧ (∀ name,
         baseFunctionTable st !! name
         = match (config ≫= externalFunctionTable) ≫= (λ t, t !! name) with
           | Some e => Some e
           | None => baseFunctionTable st0 !! name
           end)
    ∧ (∀ cmd,
         commandWordListTable st !! cmd
         = (config ≫= externalCmdWListTable) ≫= (λ t, t !! cmd))
    ∧ (∀ cmd, is_Some (commandWordListTable st !! cmd) → cmd ∈ commandsTable st)
    ∧ (∀ cmd, cmd ∈ commands → cmd ∈ commandsTable st)
    ∧ (∀ name,
         aliasName st name
         = match config ≫= aliasTable with
           | Some table => aliasNameOf table name
           | None => name
           end)
    ∧ (∀ name before alias test after,
         config ≫= aliasTable = Some (before ++ (alias, test) :: after) →
         Forall (λ p : string * (string → bool), p.2 name = false) before →
         test name = true →
         aliasName st name = alias).
Proof.
  intros Hnew.
  assert (aliasName st0 = (fun name => name) ∧ commandWordListTable st0 = ∅) as [Ha Hw].
  { unfold constructor in Hnew.
    destruct (foldl _ _ _) as [table| |]; [|done|done]. injection Hnew as <-.
    cbn [aliasName commandWordListTable set_baseFunctionTable]. unfold loadNativeTable.
    destruct (loadEntries_other (constantsTable lib)
                (foldl loadEntry fields (nativeNameTable lib))) as [-> ->].
    by destruct (loadEntries_other (nativeNameTable lib) fields) as [-> ->]. }
  unfold initialize. rewrite Hnew. cbn [cbind].
  destruct config as [c|]; eexists; (split; [reflexivity|]); cbn.
  - split; [done|]. split; [done|]. split; [|split; [|split; [|split; [|split]]]].
    + intros name. destruct (externalFunctionTable c) as [t|]; cbn.
      * rewrite lookup_union. destruct (t !! name), (baseFunctionTable st0 !! name); done.
      * rewrite lookup_union, lookup_empty. by destruct (baseFunctionTable st0 !! name).
    + intros cmd. rewrite Hw, lookup_union, lookup_empty.
      destruct (externalCmdWListTable c) as [t|]; cbn; [by destruct (t !! cmd)|].
      by rewrite lookup_empty.
    + intros cmd [entry Hcmd]. apply elem_of_app. right.
      apply list_elem_of_fmap. exists (cmd, entry). split; [done|].
      by apply elem_of_map_to_list.
    + intros cmd Hcmd. apply elem_of_app. by left.
    + intros name. by destruct (aliasTable c).
    + intros name before alias test after -> Hbefore Htest.
      by apply (proj2 (aliasNameOf_first _ name) before alias test after).
  - split; [done|]. split; [done|]. split; [done|].
    split; [intros cmd; by rewrite Hw, lookup_empty|]. split; [|split; [done|split; [|done]]].
    + intros cmd. rewrite Hw, lookup_empty. by intros [? ?].
    + intros name. by rewrite Ha.
Qed.

(** ** Unary operators *)

Lemma Evaluator_unaryR_case fuel type operand l local fname :
  type ∈ ["+_"; "-_"] →
  Evaluator lib (S fuel) (UnaryOperationR type operand) l local fname
  = (do check_object operand "tree.right" in
     let* v := reduce (Evaluator lib fuel) operand
                 (child_links lib (UnaryOperationR type operand) l operand) local fname in
     applyOp lib type [v]).
Proof.
  intros H. repeat (apply elem_of_cons in H as [->|H]; [reflexivity|]).
  by apply elem_of_nil in H.
Qed.

Lemma Evaluator_unaryL_case fuel type operand l local fname :
  type ∈ [".'"; "'"] →
  Evaluator lib (S fuel) (UnaryOperationL type operand) l local fname
  = (do check_object operand "tree.left" in
     let* v := reduce (Evaluator lib fuel) operand
                 (child_links lib (UnaryOperationL type operand) l operand) local fname in
     applyOp lib type [v]).
Proof.
  intros H. repeat (apply elem_of_cons in H as [->|H]; [reflexivity|]).
  by apply elem_of_nil in H.
Qed.

(** Parentheses evaluate to the value of their operand; unary plus and
    minus and the two transpositions reduce the operand and apply the
    [Tensor] method [uplus], [uminus], [transpose] or [ctranspose]. *)
Theorem unary_operators (fuel : nat) (operand : node) (l : links) (local : bool)
    (fname : string) (st : EvaluatorState) :
  let Ev := Evaluator lib fuel in
  let value tree := reduce Ev operand (child_links lib tree l operand) local fname in
  is_object operand = true →
  (let tree := nodeOp "()" operand Undefined in
   Evaluator lib (S fuel) tree l local fname st = value tree st)
  ∧ (∀ op method,
       (op, method) ∈ [("+_", "uplus"); ("-_", "uminus");
                       (".'", "transpose"); ("'", "ctranspose")] →
       let tree := nodeOp op operand Undefined in
       Evaluator lib (S fuel) tree l local fname st
       = (let* v := value tree in lift (Tensor lib method [v])) st).
Proof.
  intros Ev value Hobj. split.
  - cbn zeta.
    change (Evaluator lib (S fuel) (nodeOp "()" operand Undefined) l local fname st)
      with ((do check_object operand "tree.right" in
             reduce Ev operand (child_links lib (UnaryOperationR "()" operand) l operand)
               local fname) st).
    unfold check_object. by rewrite Hobj.
  - intros op method H. cbn zeta.
    assert (∀ tree,
              (do check_object operand "tree.right" in
               let* v := value tree in lift (Tensor lib method [v])) st
              = (let* v := value tree in lift (Tensor lib method [v])) st) as HR.
    { intros tree. unfold check_object. by rewrite Hobj. }
    assert (∀ tree,
              (do check_object operand "tree.left" in
               let* v := value tree in lift (Tensor lib method [v])) st
              = (let* v := value tree in lift (Tensor lib method [v])) st) as HL.
    { intros tree. unfold check_object. by rewrite Hobj. }
    repeat (apply elem_of_cons in H as [[= -> ->]|H];
            [first [apply (HR (UnaryOperationR _ operand))
                   |apply (HL (UnaryOperationL _ operand))]|]).
    by apply elem_of_nil in H.
Qed.

(** ** Indexing a tensor variable *)

(** Indexing a variable that holds a tensor: with one subscript the
    subscript is reduced where it stands (it is not linked to the
    indexing node) and selects by [getItemsLogical] when it is a logical
    tensor and by [getItems] otherwise; with several subscripts each is
    linked to the indexing node with its position, reduced, and the
    list is handed to [getItems]. *)
Theorem tensor_indexing (fuel : nat) (id : string) (actual : list node) (l : links)
    (local : bool) (fname : string) (st st1 st2 : EvaluatorState)
    (entry : TNameTableEntry) (temp : node) (items : completion node) :
  let tree := ARG (NAME id) actual in
  let Ev := Evaluator lib fuel in
  baseFunctionTable st !! aliasName st id = None →
  aliasName st id ∉ inherited →
  local_binding st local fname id = None →
  nameTable st !! id = Some entry →
  args entry = [] →
  is_object (expr entry) = true →
  reduce Ev (expr entry) (child_links lib tree l (expr entry)) false empty st
  = (Normal temp, st1) →
  isTensor temp = true →
  (∀ result, items = Normal result → is_object result = true) →
  (∀ a0 arg0,
     actual = [a0] →
     reduce Ev a0 (stale_links lib a0) local fname st1 = (Normal arg0, st2) →
     items = (if isLogicalTensor lib arg0
              then getItemsLogical lib temp id arg0
              else getItems lib temp id [arg0]) →
     Evaluator lib (S fuel) tree l local fname st = (items, st2))
  ∧ (∀ subscripts,
       1 < length actual →
       reduceArgs Ev tree l local fname actual st1 = (Normal subscripts, st2) →
       items = getItems lib temp id subscripts →
       Evaluator lib (S fuel) tree l local fname st = (items, st2)).
Proof.
  intros tree Ev Hbase Halias Hlocal Hentry Hargs Hobj Htemp Htensor Hitems.
  assert (actual ≠ [] →
          Evaluator lib (S fuel) tree l local fname st
          = indexTensor lib Ev tree l local fname temp (Normal id) actual st1) as Hcase.
  { intros Hne. unfold tree. rewrite Evaluator_ARG_case. unfold Evaluator_ARG.
    cbn [node_expr node_args]. unfold check_object. cbn [is_object].
    unfold bind at 1. cbn [ret]. unfold bind at 1. cbn [ret].
    rewrite has_type_NAME. unfold bind at 1, get.
    cbn [node_id].
    rewrite property_key_Some, Hbase, (bool_decide_eq_false_2 _ Halias), Hlocal, Hentry, Hargs.
    cbn [length Nat.eqb]. rewrite Hobj. unfold bind at 1. cbn [ret].
    unfold bind at 1. fold Ev tree. rewrite Htemp, Htensor. by destruct actual. }
  assert (∀ s, (let* result := lift items in
                do check_object result "result" in ret result) s = (items, s)) as Hchecked.
  { intros s. unfold bind at 1, lift. destruct items as [result|e|]; [|done|done].
    unfold bind, check_object. by rewrite (Hitems result eq_refl). }
  split.
  - intros a0 arg0 -> Harg0 Hdef. rewrite Hcase by done. rewrite <- (Hchecked st2).
    unfold indexTensor. unfold bind at 1. unfold bind at 1. rewrite Harg0.
    unfold bind at 3. unfold lift at 2. rewrite Hdef.
    by destruct (isLogicalTensor lib arg0).
  - intros subscripts Hlen Hsub Hdef. rewrite Hcase; [|intros ->; cbn in Hlen; lia].
    rewrite <- (Hchecked st2).
    unfold indexTensor. destruct actual as [|a0 [|a1 rest]]; [cbn in Hlen; lia..|].
    unfold bind at 1. unfold bind at 1, lift. unfold bind at 1. rewrite Hsub.
    unfold bind at 2. by rewrite Hdef.
Qed.

(** ** Renderings *)

Lemma csequence_no_throw {A} (l : list (completion A)) :
  Forall (λ c, ∀ e, c ≠ Throw e) l → ∀ e, csequence l ≠ Throw e.
Proof.
  induction 1 as [|c l Hc _ IH]; intros e; [done|].
  cbn. destruct c as [x|ec|]; [|by destruct (Hc ec)|done].
  cbn. specialize (IH e). by destruct (csequence l).
Qed.

Lemma cjoin_Unparse_no_throw sep items e :
  cjoin sep (map (Unparse lib) items) ≠ Throw e.
Proof.
  unfold cjoin.
  assert (∀ e, csequence (map (Unparse lib) items) ≠ Throw e) as H.
  { apply csequence_no_throw. induction items as [|x items IH]; constructor; [|done].
    intros e'. apply Unparse_no_throw. }
  specialize (H e). destruct (csequence _); cbn; [discriminate| |discriminate].
  intros [= ->]. by apply H.
Qed.

(** [Unparse] of a name is the name ("&infin;" for [Inf] and [inf]); a
    call is the callee followed by the arguments between parentheses,
    separated by commas; a list is its statements separated and ended
    by a newline; a word-list command is its name and its words
    separated by spaces; [undefined] renders as "<UNDEFINED>" and [null]
    as "<ERROR>". *)
Theorem Unparse_names_and_calls :
  (∀ id, Unparse lib (NAME id)
         = Normal (if bool_decide (id ∈ ["Inf"; "inf"]) then "&infin;" else id))
  ∧ (∀ callee actual,
       Unparse lib (ARG callee actual)
       = cappend (Unparse lib callee)
           (cappend (Normal "(")
              (cappend (cjoin "," (map (Unparse lib) actual)) (Normal ")"))))
  ∧ (∀ list,
       Unparse lib (LIST list)
       = cappend (cjoin newline (map (Unparse lib) list)) (Normal newline))
  ∧ (∀ id words,
       Unparse lib (CmdWList id words)
       = cappend (Normal (id +:+ " ")) (cjoin " " (map (Unparse lib) words)))
  ∧ Unparse lib Undefined = Normal "<UNDEFINED>"
  ∧ Unparse lib Null = Normal "<ERROR>".
Proof.
  split; [done|]. split; [|split; [|split; [|done]]].
  - intros callee actual.
    change (Unparse lib (ARG callee actual))
      with (catch_placeholder "<ERROR>"
              (cappend (Unparse lib callee)
                 (cappend (Normal "(")
                    (cappend (cjoin "," (map (Unparse lib) actual)) (Normal ")"))))).
    apply catch_placeholder_same.
    apply cappend_no_throw; [apply Unparse_no_throw|].
    apply cappend_no_throw; [done|].
    apply cappend_no_throw; [apply cjoin_Unparse_no_throw|done].
  - intros list.
    change (Unparse lib (LIST list))
      with (catch_placeholder "<ERROR>"
              (cappend (cjoin newline (map (Unparse lib) list)) (Normal newline))).
    apply catch_placeholder_same.
    apply cappend_no_throw; [apply cjoin_Unparse_no_throw|done].
  - intros id words.
    change (Unparse lib (CmdWList id words))
      with (catch_placeholder "<ERROR>"
              (cappend (Normal (id +:+ " ")) (cjoin " " (map (Unparse lib) words)))).
    apply catch_placeholder_same.
    apply cappend_no_throw; [done|apply cjoin_Unparse_no_throw].
Qed.

Lemma catch_debug_same debug body :
  (debug = false → ∀ e, body ≠ Throw e) → catch_debug debug body = body.
Proof.
  intros H. destruct body as [x|e|]; [done| |done].
  destruct debug; [done|]. by destruct (H eq_refl e).
Qed.

Lemma unparserML_no_throw st tree e :
  debug st = false → unparserML lib st tree ≠ Throw e.
Proof.
  intros Hdebug. destruct (unparserML_catches lib st tree) as [body ->].
  rewrite Hdebug. apply catch_debug_no_throw.
Qed.

Lemma cconcat_no_throw l :
  Forall (λ c, ∀ e, c ≠ Throw e) l → ∀ e, cconcat l ≠ Throw e.
Proof.
  induction 1 as [|c l Hc _ IH]; [done|].
  cbn [cconcat]. by apply cappend_no_throw.
Qed.

Lemma unparserML_BinaryOperation st type left right :
  type ∈ binary_types ++ assignment_types →
  unparserML lib st (BinaryOperation type left right)
  = catch_debug (debug st)
      (unparserML_switch lib st type (BinaryOperation type left right)
         (render_with (unparserML lib st) (Normal "<mi>undefined</mi>")
            (BinaryOperation type left right))).
Proof. reflexivity. Qed.

(** [unparserML] of a binary operator node: the operands around the
    operator in [<mo>], with the entities for the comparisons and for
    the product; a fraction for [/]; a superscript for [^] and [**]. *)
Theorem unparserML_operators (st : EvaluatorState) (left right : node) :
  let L := unparserML lib st left in
  let R := unparserML lib st right in
  let binary op := unparserML lib st (nodeOp op left right) in
  (∀ op, op ∈ ["+"; "-"; ".*"; "./"; "." +:+ backslash; backslash; ".^"; ".**";
               "<"; ">"; "=="; "&"; "|"; "&&"; "||"] ++ assignment_types →
     binary op = cconcat [L; mo op; R])
  ∧ binary "<=" = cconcat [L; mo "&le;"; R]
  ∧ binary ">=" = cconcat [L; mo "&ge;"; R]
  ∧ (∀ op, op ∈ ["!="; "~="] → binary op = cconcat [L; mo "&ne;"; R])
  ∧ binary "*" = cconcat [L; mo "&times;"; R]
  ∧ binary "/"
    = cconcat [Normal "<mfrac><mrow>"; L; Normal "</mrow><mrow>"; R; Normal "</mrow></mfrac>"]
  ∧ (∀ op, op ∈ ["^"; "**"] →
       binary op
       = cconcat [Normal "<msup><mrow>"; L; Normal "</mrow><mrow>"; R; Normal "</mrow></msup>"]).
Proof.
  intros L R binary.
  assert (∀ a b c, catch_debug (debug st) (cconcat [L; Normal a; R]) = cconcat [L; Normal a; R]
                   ∧ catch_debug (debug st) (cconcat [Normal a; L; Normal b; R; Normal c])
                     = cconcat [Normal a; L; Normal b; R; Normal c]) as Hsame.
  { intros a b c. split; apply catch_debug_same; intros Hdebug; apply cconcat_no_throw;
      repeat constructor; try done; intros e; by apply unparserML_no_throw. }
  split; [|split; [|split; [|split; [|split; [|split]]]]].
  - intros op H. unfold assignment_types in H. cbn [app] in H.
    repeat (apply elem_of_cons in H as [->|H]; [apply (Hsame _ EmptyString EmptyString)|]).
    by apply elem_of_nil in H.
  - apply (Hsame _ EmptyString EmptyString).
  - apply (Hsame _ EmptyString EmptyString).
  - intros op H.
    repeat (apply elem_of_cons in H as [->|H]; [apply (Hsame _ EmptyString EmptyString)|]).
    by apply elem_of_nil in H.
  - apply (Hsame _ EmptyString EmptyString).
  - apply Hsame.
  - intros op H. repeat (apply elem_of_cons in H as [->|H]; [apply Hsame|]).
    by apply elem_of_nil in H.
Qed.

(** ** Indexing a literal *)

(** Indexing a literal, as in [[1,2;3,4](1,2)]: the callee is not
    evaluated; it is indexed as it stands, under the text [Unparse]
    gives for it, by one subscript (logical or not) or by the list of the
    reduced subscripts. *)
Theorem literal_indexing (fuel : nat) (callee : node) (actual : list node) (l : links)
    (local : bool) (fname : string) (st st1 : EvaluatorState) (text : string)
    (items : completion node) :
  let tree := ARG callee actual in
  let Ev := Evaluator lib fuel in
  is_object callee = true →
  has_type callee "NAME" = false →
  Unparse lib callee = Normal text →
  (∀ result, items = Normal result → is_object result = true) →
  (∀ a0 arg0,
     actual = [a0] →
     reduce Ev a0 (stale_links lib a0) local fname st = (Normal arg0, st1) →
     items = (if isLogicalTensor lib arg0
              then getItemsLogical lib callee text arg0
              else getItems lib callee text [arg0]) →
     Evaluator lib (S fuel) tree l local fname st = (items, st1))
  ∧ (∀ subscripts,
       length actual ≠ 1 →
       reduceArgs Ev tree l local fname actual st = (Normal subscripts, st1) →
       items = getItems lib callee text subscripts →
       Evaluator lib (S fuel) tree l local fname st = (items, st1)).
Proof.
  intros tree Ev Hobj Hname Htext Hitems.
  assert (Evaluator lib (S fuel) tree l local fname st
          = indexTensor lib Ev tree l local fname callee (Normal text) actual st) as Hcase.
  { unfold tree. rewrite Evaluator_ARG_case. unfold Evaluator_ARG.
    cbn [node_expr node_args].
    destruct callee; try discriminate Hobj;
      unfold check_object; cbn [is_object]; unfold bind at 1; cbn [ret];
      unfold bind at 1; cbn [ret]; rewrite Hname, Htext; reflexivity. }
  assert (∀ s, (let* result := lift items in
                do check_object result "result" in ret result) s = (items, s)) as Hchecked.
  { intros s. unfold bind at 1, lift. destruct items as [result|e|]; [|done|done].
    unfold bind, check_object. by rewrite (Hitems result eq_refl). }
  rewrite Hcase. split.
  - intros a0 arg0 -> Harg0 Hdef. rewrite <- (Hchecked st1).
    unfold indexTensor. unfold bind at 1. unfold bind at 1. rewrite Harg0.
    unfold bind at 3. unfold lift at 2. rewrite Hdef.
    by destruct (isLogicalTensor lib arg0).
  - intros subscripts Hlen Hsub Hdef. rewrite <- (Hchecked st1).
    assert (indexTensor lib Ev tree l local fname callee (Normal text) actual st
            = (let* result :=
                 (let* id := lift (Normal text) in
                  let* subscripts := reduceArgs Ev tree l local fname actual in
                  lift (getItems lib callee id subscripts)) in
               do check_object result "result" in ret result) st) as ->.
    { unfold indexTensor. by destruct actual as [|a0 [|a1 rest]]. }
    unfold bind at 1. unfold bind at 1, lift. unfold bind at 1. rewrite Hsub.
    unfold bind at 2. by rewrite Hdef.
Qed.

(** ** Calls in MathML *)


End Coverage.

(** * Examples on the sample library *)

Import Sample.



(** C1.  With [A] bound to a tensor of 3 rows and 4 columns, the
    resolution the specification words gives 12 for [end] in [A(end)]
    and 4 for [end] in [A(2,end)].  The evaluator, run on the statement
    [A(end)], throws a TypeError: the branch of one subscript evaluates
    the subscript without linking it to the indexing node, so the walk
    from [end] reads [type] on an undefined parent; [A(:)] and
    [A(1:end)] throw it as well.  For the statement [A(2,end)] the
    subscripts are linked, and the evaluator reduces them to 2 and 3:
    the dimension is read at the index of the indexing node in the
    statement list, 0, not at the index of [end] among the subscripts.
    On the tensor [M = [11, 12, 13; 21, 22, 23]] of the indexed library
    the statement [M(2,end)] so returns 22, the element [M(2,2)], where
    the resolution of the specification selects [M(2,3)], which is 23. *)
Theorem end_resolution_failing_input :
  let e := NodeReserved "ENDRANGE" in
  let st := bind_name "A" [] A evaluator in
  let grid := bind_name "M" [] Indexed.grid evaluator in
  let one := ARG (NAME "A") [e] in
  let two := ARG (NAME "A") [number 2; e] in
  let undefined_parent :=
    Throw (TypeError "Cannot read properties of undefined (reading 'type')") in
  spec_end lib st [(one, Some 0)] (Some 0) = Normal (number 12)
  ∧ fst (Evaluate lib 8 (LIST [one]) st) = undefined_parent
  ∧ fst (Evaluate lib 8 (LIST [ARG (NAME "A") [NodeReserved ":"]]) st) = undefined_parent
  ∧ fst (Evaluate lib 8 (LIST [ARG (NAME "A") [RANGE (number 1) e Undefined]]) st)
    = undefined_parent
  ∧ spec_end lib st [(two, Some 0)] (Some 1) = Normal (number 4)
  ∧ reduceArgs (Evaluator lib 1) two (list_child_links (LIST [two]) root 0 [] [two])
      false empty [number 2; e] st
    = (Normal [number 2; number 3], st)
  ∧ spec_end Indexed.lib grid [(ARG (NAME "M") [number 2; e], Some 0)] (Some 1)
    = Normal (number 3)
  ∧ fst (Evaluate Indexed.lib 8 (LIST [ARG (NAME "M") [number 2; number 3]]) grid)
    = Normal (LIST [number 23])
  ∧ fst (Evaluate Indexed.lib 8 (LIST [ARG (NAME "M") [number 2; e]]) grid)
    = Normal (LIST [number 22]).
Proof. vm_compute. repeat split. Qed.

(** [x = y] with [y] undefined stores [y] under [x] and throws. *)
Lemma failed_assignment_witness :
  let tree := BinaryOperation "=" (NAME "x") (NAME "y") in
  let e := EvalError "'y' undefined." in
  "=" ∈ assignment_types
  ∧ ("x" ∉ readonlyNameTable fields)
  ∧ Evaluator lib 1 (NAME "y") (child_links lib tree root (NAME "y")) false empty fields
    = (Throw e, fields)
  ∧ Evaluator lib 2 tree root false empty fields
    = (Throw e, bind_name "x" [] (NAME "y") fields).
Proof.
  intros tree e.
  assert ("=" ∈ assignment_types) as Htype by (by apply elem_of_cons; left).
  assert ("x" ∉ readonlyNameTable fields) as Hro by (intros H; by apply elem_of_nil in H).
  assert (Throw e ≠ (Diverge : completion node)) as Hr0 by done.
  split; [exact Htype|]. split; [exact Hro|]. split; [reflexivity|].
  exact (proj1 (failed_assignment_stores_expression lib 1 "=" "x" (NAME "y") root false
                  empty fields fields fields (Throw e) (NAME "y") e
                  Htype Hro eq_refl eq_refl Hr0 eq_refl eq_refl eq_refl eq_refl)).
Defined.

(** [x += y] with [y] undefined stores the operation [x + y] under [x],
    not the right-hand side [y]. *)
Lemma failed_assignment_counterexample :
  let st := bind_name "x" [] (number 1) fields in
  let result := Evaluate lib 8 (LIST [BinaryOperation "+=" (NAME "x") (NAME "y")]) st in
  fst result = Throw (EvalError "'y' undefined.")
  ∧ nameTable (snd result) !! "x"
    = Some {| args := []; expr := BinaryOperation "+" (NAME "x") (NAME "y") |}
  ∧ nameTable (snd result) !! "x" ≠ Some {| args := []; expr := NAME "y" |}.
Proof. vm_compute. split; [done|]. split; [done|]. discriminate. Qed.

(** [pi = 3], [pi(1) = 3] and [[a, pi] = 3] throw and change nothing. *)
Lemma readonly_protected_witness :
  let failure :=
    (Throw (EvalError
              "invalid left hand side of assignment: cannot assign to a read only value: pi."),
     evaluator) in
  "=" ∈ assignment_types
  ∧ "pi" ∈ readonlyNameTable evaluator
  ∧ Evaluator lib 1 (BinaryOperation "=" (NAME "pi") (number 3)) root false empty evaluator
    = failure
  ∧ Evaluator lib 1 (BinaryOperation "=" (ARG (NAME "pi") [number 1]) (number 3)) root
      false empty evaluator
    = failure
  ∧ Evaluator lib 1
      (BinaryOperation "=" (VTensor (MultiArray.mk [1; 2] [[NAME "a"; NAME "pi"]] 1))
         (number 3)) root false empty evaluator
    = failure
  ∧ nameTable (Clear lib ["pi"] evaluator) !! "pi" = nameTable evaluator !! "pi".
Proof.
  intros failure.
  assert ("=" ∈ assignment_types) as Htype by (by apply elem_of_cons; left).
  assert ("pi" ∈ readonlyNameTable evaluator) as Hro.
  { apply (bool_decide_unpack _). vm_compute. exact I. }
  assert (["pi"] ≠ []) as Hne by done.
  assert (Forall (valid_target evaluator) [NAME "a"]) as Hvalid.
  { repeat constructor. exists "a". split; [done|].
    apply (bool_decide_unpack _). vm_compute. exact I. }
  pose proof (readonly_protected lib 0 "=" "pi" (NAME "pi") (number 3) root false empty
                evaluator Htype (or_introl eq_refl) eq_refl Hro) as (H1 & H2 & H3 & _).
  pose proof (readonly_protected lib 0 "=" "pi" (ARG (NAME "pi") [number 1]) (number 3)
                root false empty evaluator Htype
                (or_intror (ex_intro _ [number 1] eq_refl)) eq_refl Hro) as (H4 & _).
  split; [exact Htype|]. split; [exact Hro|]. split; [exact H1|]. split; [exact H4|].
  split; [exact (H2 [2] [NAME "a"] [] [] 1%Z Hvalid)|].
  exact (proj1 (H3 ["pi"] Hne)).
Defined.

(** With [f(x) = x], the call [f(1)] binds [x] in the frame of [f],
    returns 1 and deletes the frame. *)
Lemma user_function_call_witness :
  let st := bind_name "f" [NAME "x"] (NAME "x") fields in
  let entry := {| args := [NAME "x"]; expr := NAME "x" |} in
  baseFunctionTable st !! aliasName st "f" = None
  ∧ (aliasName st "f" ∉ inherited)
  ∧ unbound_locally st false empty "f"
  ∧ nameTable st !! "f" = Some entry
  ∧ Evaluator lib 3 (ARG (NAME "f") [number 1]) root false empty st
    = (Normal (number 1), set_next_frame 1 st).
Proof.
  intros st entry.
  assert ([NAME "x"] ≠ []) as Hne by done.
  assert (aliasName st "f" ∉ inherited) as Halias.
  { apply (bool_decide_unpack _). vm_compute. exact I. }
  split; [reflexivity|]. split; [exact Halias|]. split; [by left|]. split; [reflexivity|].
  pose proof (user_function_call lib 2 "f" [number 1] root false empty st entry
                eq_refl Halias (or_introl eq_refl) eq_refl Hne) as (_ & _ & H).
  rewrite (H eq_refl
             (set_localTable
                (<["f" := {| frame_id := 0; vars := <["x" := number 1]> ∅ |}]>)
                (createFrame "f" st))
             entry).
  - vm_compute. reflexivity.
  - eapply (bound_cons _ _ _ _ _ 0 (number 1) [] _ _ _ entry (NAME "x")
              {| frame_id := 0; vars := ∅ |} (number 1));
      [reflexivity..|apply bound_nil].
  - reflexivity.
Defined.

(** With [f(x) = x], the call [f(f(1))]: the inner call replaces and
    deletes the frame the outer call registered, and the body of the
    outer call finds no binding of [x]. *)
Lemma user_function_call_counterexample :
  let st := bind_name "f" [NAME "x"] (NAME "x") fields in
  let entry := {| args := [NAME "x"]; expr := NAME "x" |} in
  let inner := ARG (NAME "f") [number 1] in
  let outer := ARG (NAME "f") [inner] in
  fst (spec_callFunction lib (Evaluator lib 4) outer root empty "f" entry [inner] st)
  = Normal (number 1)
  ∧ fst (callFunction lib (Evaluator lib 4) outer root empty "f" entry [inner] st)
    = Throw (EvalError "'x' undefined.")
  ∧ fst (Evaluate lib 8 (LIST [outer]) st) = Throw (EvalError "'x' undefined.").
Proof. vm_compute. auto. Qed.



Lemma sample_renderers_return : renderers_return lib.
Proof.
  repeat split; try done.
  - intros n. simpl. by destruct (ComplexDecimal.re n).
  - intros n. simpl. by destruct (ComplexDecimal.re n).
Qed.

(** A tree with a hole renders with the placeholder in the hole. *)
Lemma unparsers_recover_witness :
  let tree := BinaryOperation "+" (NAME "x") Null in
  renderers_return lib
  ∧ templates_return evaluator
  ∧ debug evaluator = false
  ∧ Unparse lib tree = Normal "x+<ERROR>"
  ∧ unparserML lib evaluator tree = Normal "<mi>x</mi><mo>+</mo><mi>error</mi>"
  ∧ (∃ text, Unparse lib tree = Normal text)
  ∧ (∃ text, unparserML lib evaluator tree = Normal text).
Proof.
  intros tree.
  assert (templates_return evaluator) as Htemplates.
  { intros name entry template Hentry Htemplate.
    change (baseFunctionTable evaluator)
      with ({[ "abs" := abs ]} : gmap string TBaseFunctionTableEntry.t) in Hentry.
    apply lookup_singleton_Some in Hentry as [_ <-]. done. }
  split; [exact sample_renderers_return|]. split; [exact Htemplates|].
  split; [reflexivity|]. split; [reflexivity|]. split; [reflexivity|].
  pose proof (unparsers_recover lib evaluator tree) as (_ & _ & H1 & H2 & _).
  cbv zeta in H1, H2.
  split; [exact (H1 sample_renderers_return)|].
  exact (H2 sample_renderers_return Htemplates eq_refl).
Defined.

(** With the debug flag set, [unparserML] lets the error out. *)
Lemma unparsers_recover_counterexample :
  ∃ e, unparserML lib (set_debug true evaluator) Null = Throw e.
Proof. eexists. reflexivity. Qed.

(** A statement list holding the number 7 sets [ans] to 7. *)
Lemma LIST_updates_ans_witness :
  is_object (number 7) = true
  ∧ Evaluator lib 2 (LIST [number 7]) root false empty fields
    = (Normal (LIST [number 7]), updateAns (number 7) fields).
Proof.
  split; [reflexivity|].
  pose proof (LIST_updates_ans lib 1 (LIST [number 7]) root false empty)
    as (H1 & H2 & H3 & _).
  rewrite H1, (H3 0 [] (number 7) [] fields eq_refl). reflexivity.
Defined.

(** A statement list holding a logical tensor sets [ans] to the
    tensor, which is not a bare numeric scalar. *)
Lemma LIST_updates_ans_counterexample :
  let st' := snd (Evaluate lib 8 (LIST [mask]) fields) in
  isNumber mask = false
  ∧ isLogicalTensor lib mask = true
  ∧ fst (Evaluate lib 8 (LIST [mask]) fields) = Normal (LIST [mask])
  ∧ nameTable fields !! "ans" = None
  ∧ nameTable st' !! "ans" = Some {| args := []; expr := mask |}.
Proof. vm_compute. auto 10. Qed.


(** With [x] bound to 3, [++x] stores and returns 4, and [x++] returns
    3 and stores 4. *)
Lemma increment_decrement_witness :
  let st := bind_name "x" [] (number 3) fields in
  "plus" ∈ ["plus"; "minus"]
  ∧ Evaluator lib 1 (UnaryOperationR "++_" (NAME "x")) root false empty st
    = (Normal (number 4), bind_name "x" [] (number 4) st)
  ∧ Evaluator lib 1 (UnaryOperationL "_++" (NAME "x")) root false empty st
    = (Normal (number 3), bind_name "x" [] (number 4) st).
Proof.
  intros st.
  assert ("plus" ∈ ["plus"; "minus"]) as Hop by (by apply elem_of_cons; left).
  pose proof (increment_decrement lib 0 "plus" root false empty st Hop) as (H1 & H2 & _).
  split; [exact Hop|]. split.
  - exact (H1 "x" {| args := []; expr := number 3 |} (number 4) eq_refl eq_refl eq_refl).
  - exact (H2 "x" {| args := []; expr := number 3 |} (number 3) (number 4)
             eq_refl eq_refl eq_refl eq_refl).
Defined.

(** [f(x) = x*x] followed by [f(3)] yields 9, and the frame of [f] is
    gone afterwards. *)
Example define_then_call :
  let square := BinaryOperation "*" (NAME "x") (NAME "x") in
  let program :=
    LIST [BinaryOperation "=" (ARG (NAME "f") [NAME "x"]) square;
          ARG (NAME "f") [number 3]] in
  let result := Evaluate lib 8 program fields in
  fst result = Normal (LIST [square; number 9])
  ∧ nameTable (snd result) !! "f" = Some {| args := [NAME "x"]; expr := square |}
  ∧ localTable (snd result) !! "f" = None.
Proof. vm_compute. auto. Qed.

(** [x = 5] followed by two reads of [x]: both read 5. *)
Example read_twice :
  let program := LIST [BinaryOperation "=" (NAME "x") (number 5); NAME "x"; NAME "x"] in
  fst (Evaluate lib 8 program fields)
  = Normal (LIST [BinaryOperation "=" (NAME "x") (number 5); number 5; number 5]).
Proof. vm_compute. reflexivity. Qed.

(** [end] outside any indexing throws the [SyntaxError] and marks the
    exit status. *)
Example end_outside_indexing :
  let result := Evaluate lib 8 (LIST [NodeReserved "ENDRANGE"]) fields in
  fst result = Throw (SyntaxError end_message) ∧ exitStatus (snd result) = 3%Z.
Proof. vm_compute. auto. Qed.

(** ** Examples of the further properties *)

Local Ltac decided := apply (bool_decide_unpack _); vm_compute; exact I.

(** An instance of [invalid_operator]. *)
Lemma invalid_operator_witness :
  ("%" ∉ binary_types ++ assignment_types)
  ∧ ("%" ∉ ["()"; "!"; "~"; "+_"; "-_"; "++_"; "--_"])
  ∧ ("%" ∉ [".'"; "'"; "_++"; "_--"])
  ∧ Evaluator lib 1 (nodeOp "%" (number 1) (number 2)) root false empty evaluator
    = (Throw (EvalError "evaluating undefined type 'INVALID'."), evaluator).
Proof.
  assert ("%" ∉ binary_types ++ assignment_types) as H1 by decided.
  assert ("%" ∉ ["()"; "!"; "~"; "+_"; "-_"; "++_"; "--_"]) as H2 by decided.
  assert ("%" ∉ [".'"; "'"; "_++"; "_--"]) as H3 by decided.
  split; [exact H1|]. split; [exact H2|]. split; [exact H3|].
  exact (proj1 (invalid_operator lib 0 "%" (number 1) (number 2) root false empty evaluator
                  H1 H2 H3)).
Defined.

(** An instance of [logical_not_unevaluated]. *)
Lemma logical_not_unevaluated_witness :
  "!" ∈ ["!"; "~"]
  ∧ Evaluator lib 1 (nodeOp "!" (number 1) Undefined) root false empty evaluator
    = (Throw (EvalError "evaluating undefined type '!'."), evaluator).
Proof.
  assert ("!" ∈ ["!"; "~"]) as H by decided.
  split; [exact H|].
  exact (proj1 (proj2 (logical_not_unevaluated lib 0 "!" (number 1) Undefined root false
                         empty evaluator H))).
Defined.

(** An instance of [operator_dispatch]. *)
Lemma operator_dispatch_witness :
  "-" ∈ binary_types
  ∧ ∃ method,
      (∀ operands, applyOp lib "-" operands = lift (Tensor lib method operands))
      ∧ Evaluator lib 2 (nodeOp "-" (number 5) (number 2)) root false empty evaluator
        = (Tensor lib method [number 5; number 2], evaluator).
Proof.
  assert ("-" ∈ binary_types) as H by decided.
  split; [exact H|].
  exact (proj1 (operator_dispatch lib 1 "-" (number 5) (number 2) root false empty evaluator
                  H eq_refl eq_refl)).
Defined.

(** An instance of [Unparse_operators]. *)
Lemma Unparse_operators_witness :
  "+=" ∈ binary_types ++ assignment_types
  ∧ Unparse lib (nodeOp "+=" (NAME "x") (number 2)) = Normal "x+=2"
  ∧ Unparse lib (nodeOp "_++" (NAME "x") Undefined) = Normal "x++"
  ∧ Unparse lib (nodeOp "-_" (NAME "x") Undefined) = Normal "-x".
Proof.
  assert ("+=" ∈ binary_types ++ assignment_types) as H1 by decided.
  assert ("_++" ∈ ["_++"; "_--"]) as H2 by decided.
  assert ("-_" ∈ ["+_"; "-_"; "++_"; "--_"]) as H3 by decided.
  split; [exact H1|]. split; [|split].
  - exact (proj1 (Unparse_operators lib "+=" (NAME "x") (number 2)) H1).
  - pose proof (Unparse_operators lib "_++" (NAME "x") Undefined) as (_ & _ & _ & _ & H & _).
    exact (H H2).
  - pose proof (Unparse_operators lib "-_" (NAME "x") Undefined) as (_ & _ & H & _).
    exact (H H3).
Defined.


(** An instance of [Clear_functions]. *)
Lemma Clear_functions_witness :
  ["abs"] ≠ []
  ∧ "abs" ∈ ["abs"]
  ∧ ("abs" ∉ readonlyNameTable evaluator)
  ∧ is_Some (baseFunctionTable evaluator !! "abs")
  ∧ baseFunctionTable (Clear lib [] (Clear lib ["abs"] evaluator)) !! "abs" = None.
Proof.
  assert (["abs"] ≠ []) as H1 by done.
  assert ("abs" ∈ ["abs"]) as H2 by decided.
  assert ("abs" ∉ readonlyNameTable evaluator) as H3 by decided.
  split; [exact H1|]. split; [exact H2|]. split; [exact H3|]. split; [by eexists|].
  exact (proj2 (proj2 (proj2 (Clear_functions lib evaluator))) ["abs"] "abs" H1 H2 H3).
Defined.

(** An instance of [validateAssignment_targets]. *)
Lemma validateAssignment_targets_witness :
  let row := [NAME "a"; ARG (NAME "b") [number 1]; NodeReserved "<~>"] in
  Forall (valid_target evaluator) row
  ∧ validateAssignment (VTensor (MultiArray.mk [1; 3] [row] 1)) true evaluator
    = (Normal [ {| lhs_left := NAME "a"; lhs_id := "a"; lhs_args := [] |};
                {| lhs_left := NAME "b"; lhs_id := "b"; lhs_args := [number 1] |};
                {| lhs_left := Null; lhs_id := "~"; lhs_args := [] |} ], evaluator).
Proof.
  intros row.
  assert (Forall (valid_target evaluator) row) as H.
  { apply Forall_cons_2; [left; exists "a"; split; [done|decided]|].
    apply Forall_cons_2; [right; left; exists "b", [number 1]; split; [done|decided]|].
    apply Forall_cons_2; [right; by right|]. apply Forall_nil_2. }
  split; [exact H|].
  exact (proj1 (proj2 (validateAssignment_targets evaluator)) [3] row [] 1%Z H).
Defined.

(** An instance of [multiple_assignment_plain_value]. *)
Lemma multiple_assignment_plain_value_witness :
  let left := VTensor (MultiArray.mk [1; 2] [[NAME "a"; NAME "b"]] 1) in
  ("a" ∉ readonlyNameTable evaluator)
  ∧ ("b" ∉ readonlyNameTable evaluator)
  ∧ Evaluator lib 2 (BinaryOperation "=" left (number 5)) root false empty evaluator
    = (Throw (EvalError "element number 2 undefined in return list"),
       bind_name "a" [] (number 5) evaluator).
Proof.
  intros left.
  assert ("a" ∉ readonlyNameTable evaluator) as Ha by decided.
  assert ("b" ∉ readonlyNameTable evaluator) as Hb by decided.
  assert (Normal (number 5) ≠ (Diverge : completion node)) as Hr0 by done.
  split; [exact Ha|]. split; [exact Hb|].
  exact (multiple_assignment_plain_value lib 1 "a" "b" [] [2] [] 1%Z (number 5) root false
           empty evaluator evaluator evaluator (Normal (number 5)) (number 5)
           Ha Hb (Forall_nil_2 _) eq_refl eq_refl Hr0 eq_refl eq_refl eq_refl).
Defined.

(** An instance of [name_assignment_result]. *)
Lemma name_assignment_result_witness :
  let tree := BinaryOperation "=" (NAME "x") (number 5) in
  let stored := bind_name "x" [] (number 5) evaluator in
  "=" ∈ assignment_types
  ∧ ("x" ∉ readonlyNameTable evaluator)
  ∧ Evaluator lib 2 tree {| parent := PObj (LIST [Undefined]) None PNull; index := Some 0 |}
      false empty evaluator
    = (Normal (BinaryOperation "=" (NAME "x") (number 5)), stored)
  ∧ Evaluator lib 2 tree root false empty evaluator
    = (Throw (TypeError "Cannot read properties of null (reading 'parent')"), stored).
Proof.
  intros tree stored.
  assert ("=" ∈ assignment_types) as Htype by decided.
  assert ("x" ∉ readonlyNameTable evaluator) as Hro by decided.
  assert (Normal (number 5) ≠ (Diverge : completion node)) as Hr0 by done.
  split; [exact Htype|]. split; [exact Hro|]. split.
  - exact (proj1 (name_assignment_result lib 1 "=" "x" (number 5)
                    {| parent := PObj (LIST [Undefined]) None PNull; index := Some 0 |}
                    false empty evaluator evaluator evaluator (Normal (number 5)) (number 5)
                    (number 5) Htype Hro eq_refl eq_refl Hr0 eq_refl eq_refl eq_refl eq_refl)
             (LIST [Undefined]) None eq_refl).
  - exact (proj2 (proj2 (name_assignment_result lib 1 "=" "x" (number 5) root
                    false empty evaluator evaluator evaluator (Normal (number 5)) (number 5)
                    (number 5) Htype Hro eq_refl eq_refl Hr0 eq_refl eq_refl eq_refl eq_refl))
             eq_refl).
Defined.


(** An instance of [placeholder_assignment]. *)
Lemma placeholder_assignment_witness :
  let tree := BinaryOperation "=" (NodeReserved "<~>") (NAME "y") in
  let l := {| parent := PObj (LIST [Undefined]) None PNull; index := Some 0 |} in
  "=" ∈ assignment_types
  ∧ Evaluator lib 1 (NAME "y") (child_links lib tree l (NAME "y")) false empty evaluator
    = (Throw (EvalError "'y' undefined."), evaluator)
  ∧ Evaluator lib 2 tree l false empty evaluator = (Normal (LIST []), evaluator).
Proof.
  intros tree l.
  assert ("=" ∈ assignment_types) as Htype by decided.
  assert (Throw (EvalError "'y' undefined.") ≠ (Diverge : completion node)) as Hr0 by done.
  split; [exact Htype|]. split; [reflexivity|].
  exact (proj1 (placeholder_assignment lib 1 "=" (NAME "y") l false empty evaluator evaluator
                  (Throw (EvalError "'y' undefined.")) Htype eq_refl eq_refl Hr0 eq_refl)
           (LIST [Undefined]) None eq_refl).
Defined.

(** An instance of [range_nodes]. *)
Lemma range_nodes_witness :
  Unparse lib (RANGE (number 1) (number 9) (number 2)) = Normal "1:2:9"
  ∧ Unparse lib (RANGE Null Null Null) = Normal ":"
  ∧ ∃ message,
      Evaluator lib 1 (RANGE Null Null Null) root false empty evaluator
      = (Throw (TypeError message), evaluator).
Proof.
  pose proof (range_nodes lib 0 (number 1) (number 2) (number 9) root false empty evaluator)
    as (_ & _ & _ & H & _).
  pose proof (range_nodes lib 0 Null Null Null root false empty evaluator)
    as (_ & _ & _ & _ & H').
  split; [exact (proj1 (proj2 (H eq_refl eq_refl)) eq_refl)|].
  exact (H' (or_introl eq_refl)).
Defined.

(** An instance of [Evaluate_exit_status]. *)
Lemma Evaluate_exit_status_witness :
  let tree := LIST [NAME "y"] in
  is_object tree = true
  ∧ Evaluate lib 3 tree evaluator
    = (Throw (EvalError "'y' undefined."), set_exitStatus 3 evaluator)
  ∧ exitStatus (Evaluate lib 3 tree evaluator).2 = 3%Z.
Proof.
  intros tree. split; [reflexivity|]. split.
  - exact (proj1 (Evaluate_exit_status lib 3 tree evaluator) eq_refl).
  - exact (proj2 (proj2 (Evaluate_exit_status lib 3 tree evaluator))
             (EvalError "'y' undefined.") (Evaluate lib 3 tree evaluator).2 eq_refl).
Defined.


(** An instance of [builtin_call]. *)
Lemma builtin_call_witness :
  let tree := ARG (NAME "abs") [number (-3)] in
  baseFunctionTable evaluator !! aliasName evaluator "abs" = Some abs
  ∧ TBaseFunctionTableEntry.mapper abs = Some true
  ∧ reduceArgs (Evaluator lib 1) tree root false empty [number (-3)] evaluator
    = (Normal [number (-3)], evaluator)
  ∧ Evaluator lib 2 tree root false empty evaluator = (Normal (number 3), evaluator).
Proof.
  intros tree. split; [reflexivity|]. split; [reflexivity|]. split; [reflexivity|].
  exact (proj2 (builtin_call lib 1 "abs" [number (-3)] root false empty evaluator evaluator
                  abs true [number (-3)] eq_refl eq_refl eq_refl)).
Defined.



(** An instance of [unary_operators]. *)
Lemma unary_operators_witness :
  is_object (number 4) = true
  ∧ Evaluator lib 2 (nodeOp "()" (number 4) Undefined) root false empty evaluator
    = (Normal (number 4), evaluator).
Proof.
  split; [reflexivity|].
  exact (proj1 (unary_operators lib 1 (number 4) root false empty evaluator eq_refl)).
Defined.

(** An instance of [tensor_indexing]. *)
Lemma tensor_indexing_witness :
  let st := bind_name "v" [] Indexed.row evaluator in
  baseFunctionTable st !! aliasName st "v" = None
  ∧ nameTable st !! "v" = Some {| args := []; expr := Indexed.row |}
  ∧ Evaluator Indexed.lib 2 (ARG (NAME "v") [number 2]) root false empty st
    = (Normal (number 20), st)
  ∧ Evaluator Indexed.lib 2 (ARG (NAME "v") [mask]) root false empty st
    = (Normal (VTensor (MultiArray.mk [1; 1] [[number 10]] 1)), st).
Proof.
  intros st. split; [reflexivity|]. split; [reflexivity|].
  assert (∀ result, Normal (number 20) = Normal result → is_object result = true) as H20.
  { by intros result [= <-]. }
  assert (∀ result,
            Normal (VTensor (MultiArray.mk [1; 1] [[number 10]] 1)) = Normal result →
            is_object result = true) as H10.
  { by intros result [= <-]. }
  assert (aliasName st "v" ∉ inherited) as Hv by decided.
  split.
  - exact (proj1 (tensor_indexing Indexed.lib 1 "v" [number 2] root false empty st st st
                    {| args := []; expr := Indexed.row |} Indexed.row (Normal (number 20))
                    eq_refl Hv eq_refl eq_refl eq_refl eq_refl eq_refl eq_refl H20)
             (number 2) (number 2) eq_refl eq_refl eq_refl).
  - exact (proj1 (tensor_indexing Indexed.lib 1 "v" [mask] root false empty st st st
                    {| args := []; expr := Indexed.row |} Indexed.row
                    (Normal (VTensor (MultiArray.mk [1; 1] [[number 10]] 1)))
                    eq_refl Hv eq_refl eq_refl eq_refl eq_refl eq_refl eq_refl H10)
             mask mask eq_refl eq_refl eq_refl).
Defined.

(** An instance of [literal_indexing]. *)
Lemma literal_indexing_witness :
  is_object Indexed.row = true
  ∧ has_type Indexed.row "NAME" = false
  ∧ Unparse Indexed.lib Indexed.row = Normal "[...]"
  ∧ Evaluator Indexed.lib 2 (ARG Indexed.row [number 3]) root false empty evaluator
    = (Normal (number 30), evaluator).
Proof.
  split; [reflexivity|]. split; [reflexivity|]. split; [reflexivity|].
  assert (∀ result, Normal (number 30) = Normal result → is_object result = true) as H30.
  { by intros result [= <-]. }
  exact (proj1 (literal_indexing Indexed.lib 1 Indexed.row [number 3] root false empty
                  evaluator evaluator "[...]" (Normal (number 30))
                  eq_refl eq_refl eq_refl H30)
           (number 3) (number 3) eq_refl eq_refl eq_refl).
Defined.


(** An instance of [initialize_tables]. *)
Lemma initialize_tables_witness :
  let st0 := match constructor Indexed.lib with Normal s => s | _ => fields end in
  let clc := TCommandWordListTableEntry.mk (fun _ => Normal tt) in
  let config :=
    {| aliasTable := Some [("abs", fun name => bool_decide (name = "absolute"))];
       externalFunctionTable := None;
       externalCmdWListTable := Some {[ "clc" := clc ]} |} in
  constructor Indexed.lib = Normal st0
  ∧ ∃ st, initialize Indexed.lib (Some config) ["help"] = Normal st
          ∧ "clc" ∈ commandsTable st
          ∧ "help" ∈ commandsTable st
          ∧ aliasName st "absolute" = "abs"
          ∧ aliasName st "x" = "x"
          ∧ nameTable st = nameTable st0.
Proof.
  intros st0 clc config.
  assert (constructor Indexed.lib = Normal st0) as Hnew by (vm_compute; reflexivity).
  split; [exact Hnew|].
  destruct (initialize_tables Indexed.lib (Some config) ["help"] st0 Hnew)
    as (st & Hst & Hnames & _ & _ & Htable & Hwords & Hcommands & Halias & _).
  assert ("help" ∈ ["help"]) as Hhelp by decided.
  assert (is_Some (commandWordListTable st !! "clc")) as Hclc.
  { exists clc. rewrite Htable. vm_compute. reflexivity. }
  exists st. split; [exact Hst|]. split; [exact (Hwords "clc" Hclc)|].
  split; [exact (Hcommands "help" Hhelp)|].
  split; [exact (Halias "absolute")|]. split; [exact (Halias "x")|exact Hnames].
Defined.


(** An instance of [unparserML_operators]. *)
Lemma unparserML_operators_witness :
  "+=" ∈ ["+"; "-"; ".*"; "./"; "." +:+ backslash; backslash; ".^"; ".**";
          "<"; ">"; "=="; "&"; "|"; "&&"; "||"] ++ assignment_types
  ∧ unparserML lib evaluator (nodeOp "+=" (NAME "x") (number 1))
    = Normal "<mi>x</mi><mo>+=</mo><mn>1</mn>"
  ∧ unparserML lib evaluator (nodeOp "/" (NAME "x") (number 2))
    = Normal "<mfrac><mrow><mi>x</mi></mrow><mrow><mn>2</mn></mrow></mfrac>".
Proof.
  assert ("+=" ∈ ["+"; "-"; ".*"; "./"; "." +:+ backslash; backslash; ".^"; ".**";
                  "<"; ">"; "=="; "&"; "|"; "&&"; "||"] ++ assignment_types) as H by decided.
  split; [exact H|]. split.
  - exact (proj1 (unparserML_operators lib evaluator (NAME "x") (number 1)) "+=" H).
  - pose proof (unparserML_operators lib evaluator (NAME "x") (number 2))
      as (_ & _ & _ & _ & _ & H' & _).
    exact H'.
Defined.
